(** * SleepTracker: the spike monitor, the synchronized recorder and the
      application gate of [main.py], embedded in Rocq.

    The development follows the source file top-down:

    - [F64]: Python's [float] (IEEE-754 binary64) on the standard library's
      [spec_float], with the literals and the [':.4f'] format the program uses;
    - [Np]: the numpy operations of line 20, in binary64 and in either of
      the dtypes float32 and float64;
    - [Level]: the body of [AudioMonitor.run.cb] (lines 18-21);
    - [Monitor]: the life cycles of the [AudioMonitor] threads the window
      creates, their audio callbacks and the caller of [start_mon] and
      [stop_mon], as an interleaving transition system (lines 16-24, 89-93);
    - [Recorder]: [RecorderThread.run] (lines 30-74) in a state-and-exception
      monad over an explicit world (clock, camera, audio stream, external
      tool, working directory);
    - [App]: the handlers of [SleepMonitorApp] (lines 88-98).

    Definitions come first, theorems after them. *)

From Stdlib Require Import ZArith List String Ascii Bool Lia PeanoNat.
From Stdlib Require Import Floats.SpecFloat.
Import ListNotations.

Local Open Scope string_scope.
Local Open Scope Z_scope.

(* ================================================================== *)
(** * Binary64 arithmetic *)
(* ================================================================== *)

Module F64.

(** A Python [float] is an IEEE-754 binary64 number: 53 bits of precision,
    infinities at exponent 1024.  [spec_float] is the standard library's
    executable specification of such numbers (one NaN, signed zeros and
    infinities, finite numbers as sign, mantissa, exponent). *)
Definition float : Type := spec_float.

Definition prec : Z := 53.
Definition emax : Z := 1024.

Definition nan : float := S754_nan.
Definition zero : float := S754_zero false.
Definition neg_zero : float := S754_zero true.
Definition infinity : float := S754_infinity false.
Definition neg_infinity : float := S754_infinity true.

(** [float(n)] for a Python [int]: round to nearest, ties to even.  (Python
    raises [OverflowError] beyond the binary64 range, where this gives an
    infinity; the integers of the program are a spin-box value and a frame
    counter.) *)
Definition of_Z (n : Z) : float := binary_normalize prec emax n 0 false.

Definition add : float -> float -> float := SFadd prec emax.
Definition sub : float -> float -> float := SFsub prec emax.
Definition mul : float -> float -> float := SFmul prec emax.
Definition div : float -> float -> float := SFdiv prec emax.
Definition sqrt : float -> float := SFsqrt prec emax.
Definition abs : float -> float := SFabs.
Definition opp : float -> float := SFopp.
Definition ltb : float -> float -> bool := SFltb.
Definition leb : float -> float -> bool := SFleb.
Definition eqb : float -> float -> bool := SFeqb.

(** A Python [int] as an exact operand of the division. *)
Definition raw_int (n : Z) : float :=
  match n with
  | Z0 => S754_zero false
  | Zpos p => S754_finite false p 0
  | Zneg p => S754_finite true p 0
  end.

(** [a / b] on two Python [int]s with [b] not zero: the quotient of the
    exact integers, rounded once.  (Python raises [OverflowError] where the
    quotient is beyond the binary64 range and this gives an infinity.) *)
Definition int_quotient (a b : Z) : float :=
  SFdiv prec emax (raw_int a) (raw_int b).

(** [x > y] as Python writes it. *)
Definition gtb (x y : float) : bool := ltb y x.

Definition is_nan (x : float) : bool :=
  match x with S754_nan => true | _ => false end.

Definition is_finite (x : float) : bool :=
  match x with
  | S754_zero _ | S754_finite _ _ _ => true
  | S754_infinity _ | S754_nan => false
  end.

(** A number other than zero, with the given sign. *)
Definition signed_number (sign : bool) (x : float) : Prop :=
  match x with
  | S754_finite s _ _ | S754_infinity s => s = sign
  | S754_zero _ | S754_nan => False
  end.

(** A decimal literal [num/den] with both parts exactly representable: the
    correctly rounded quotient is the binary64 number the literal denotes
    ([0.1] is [decimal 1 10], [1e-6] is [decimal 1 1000000]). *)
Definition decimal (num den : Z) : float := div (of_Z num) (of_Z den).

(** ** [format(x, '.4f')] *)

Definition digit (d : Z) : ascii := ascii_of_nat (48 + Z.to_nat d).

(** Decimal digits of a non-negative integer, most significant first; the
    fuel bounds the number of digits. *)
Fixpoint digits_rev (fuel : nat) (n : Z) : list ascii :=
  match fuel with
  | O => []
  | S fuel' =>
      if n <? 10 then [digit n]
      else digit (n mod 10) :: digits_rev fuel' (n / 10)
  end.

Definition string_of_list (l : list ascii) : string :=
  fold_right String EmptyString l.

Definition dec_string (n : Z) : string :=
  string_of_list (rev (digits_rev (S (Z.to_nat (Z.log2 n))) n)).

(** The four digits after the decimal point. *)
Definition frac4 (n : Z) : string :=
  String (digit (n / 1000 mod 10))
    (String (digit (n / 100 mod 10))
       (String (digit (n / 10 mod 10))
          (String (digit (n mod 10)) EmptyString))).

(** [round_half_even num den] is the integer nearest to [num/den], ties to
    the even one ([num >= 0], [den > 0]). *)
Definition round_half_even (num den : Z) : Z :=
  let q := num / den in
  let r := num mod den in
  match 2 * r ?= den with
  | Lt => q
  | Gt => q + 1
  | Eq => if Z.even q then q else q + 1
  end.

(** The magnitude [m * 2^e] in ten-thousandths, correctly rounded. *)
Definition scaled4 (m : positive) (e : Z) : Z :=
  if 0 <=? e then Z.pos m * 2 ^ e * 10000
  else round_half_even (Z.pos m * 10000) (2 ^ (- e)).

Definition sign_string (s : bool) : string := if s then "-" else "".

Definition fixed4 (s : bool) (q : Z) : string :=
  sign_string s ++ dec_string (q / 10000) ++ "." ++ frac4 (q mod 10000).

Definition format_4f (x : float) : string :=
  match x with
  | S754_nan => "nan"
  | S754_infinity s => sign_string s ++ "inf"
  | S754_zero s => fixed4 s 0
  | S754_finite s m e => fixed4 s (scaled4 m e)
  end.

(** ** What a text with four decimal places says

    The reader below is what the receiver of the text does: a sign, the
    digits before the point, the point, and exactly four digits.  It is
    independent of the way [format_4f] produces its digits, and
    [nearest4] states in integers what "rounded to four places" means. *)








End F64.

(* ================================================================== *)
(** * The numpy operations of the level computation *)
(* ================================================================== *)

Module Np.
Import F64.

(** An audio block [indata]: the samples of all frames and channels, in
    order.  ([np.mean] without an axis reduces over every element.)  The
    samples are taken as binary64 numbers; the stream's own sample type is
    narrower, which changes roundings and neither the zeros nor the NaN the
    statements below are about. *)
Definition ndarray : Type := list float.

(** [indata**2]: the element-wise square. *)
Definition square (a : ndarray) : ndarray := map (fun x => mul x x) a.

(** [np.add.reduce]: the empty sum is [0.0]; otherwise the reduction starts
    from the first element.  (numpy adds long arrays pairwise; the order
    only matters for the rounding of the sum.) *)
Definition sum (a : ndarray) : float :=
  match a with
  | [] => zero
  | x :: rest => fold_left add rest x
  end.

(** [np.mean]: the sum divided by the element count.  For an empty array
    this is [0.0 / 0], a NaN (numpy issues a [RuntimeWarning], it does not
    raise). *)
Definition mean (a : ndarray) : float :=
  div (sum a) (of_Z (Z.of_nat (List.length a))).

(** ** [np.log10]

    numpy's [log10] is an external library function.  Its values at the
    special arguments are fixed by IEEE-754 / C99 Annex F: NaN for a NaN or
    a negative argument, minus infinity at either zero, plus infinity at
    plus infinity.  On positive finite arguments the library returns an
    approximation of the mathematical logarithm whose last bits depend on
    the platform; [log10_pos] computes such an approximation in binary64
    (argument reduction to [[sqrt(1/2), sqrt(2))] and the series of
    [2*atanh((f-1)/(f+1))]).  The statements below use [log10] at a NaN and
    at the floor value only. *)

Definition log10_2 : float := S754_finite false 0x134413509f79ff (-54).
Definition inv_ln10 : float := S754_finite false 0x1bcb7b1526e50e (-54).
Definition sqrt_half : float := sqrt (decimal 1 2).

Fixpoint atanh_series (n : nat) (s2 : float) : float :=
  match n with
  | O => decimal 1 27
  | S n' =>
      add (decimal 1 (2 * Z.of_nat (13 - n) + 1)) (mul s2 (atanh_series n' s2))
  end.

Definition ln_mant (f : float) : float :=
  let s := div (sub f (of_Z 1)) (add f (of_Z 1)) in
  mul (mul (of_Z 2) s) (atanh_series 13 (mul s s)).

Definition log10_pos (m : positive) (e : Z) : float :=
  let d := Z.pos (digits2_pos m) in
  let f := binary_round prec emax false m (- d) in
  let '(f, k) :=
    if ltb f sqrt_half then (mul (of_Z 2) f, e + d - 1) else (f, e + d) in
  add (mul (of_Z k) log10_2) (mul (ln_mant f) inv_ln10).

Definition log10 (x : float) : float :=
  match x with
  | S754_nan => nan
  | S754_zero _ => neg_infinity
  | S754_infinity false => infinity
  | S754_infinity true => nan
  | S754_finite true _ _ => nan
  | S754_finite false m e => log10_pos m e
  end.

(** Does the block hold a NaN sample. *)
Definition has_nan (a : ndarray) : bool := existsb is_nan a.

(** The block with the polarity of every sample reversed ([-indata]). *)
Definition negate (a : ndarray) : ndarray := map opp a.

(** ** The operations in a given dtype

    The stream of [sd.InputStream(callback=cb)] delivers samples of
    sounddevice's default dtype, float32, and numpy computes [indata**2],
    [np.mean] and [np.sqrt] in the dtype of the array.  The operations
    above are the binary64 instances of the ones below. *)

Inductive dtype : Type := Float32 | Float64.

Definition prec_of (d : dtype) : Z :=
  match d with Float32 => 24 | Float64 => 53 end.

Definition emax_of (d : dtype) : Z :=
  match d with Float32 => 128 | Float64 => 1024 end.

Definition add_as (d : dtype) : float -> float -> float :=
  SFadd (prec_of d) (emax_of d).
Definition mul_as (d : dtype) : float -> float -> float :=
  SFmul (prec_of d) (emax_of d).
Definition div_as (d : dtype) : float -> float -> float :=
  SFdiv (prec_of d) (emax_of d).
Definition sqrt_as (d : dtype) : float -> float :=
  SFsqrt (prec_of d) (emax_of d).

(** A Python [int] as a number of the dtype. *)
Definition of_int (d : dtype) (n : Z) : float :=
  binary_normalize (prec_of d) (emax_of d) n 0 false.

(** A number as a number of the dtype: rounded to nearest, ties to even.
    (Widening changes nothing but the representation.) *)
Definition cast (d : dtype) (x : float) : float :=
  match x with
  | S754_finite s m e => binary_round (prec_of d) (emax_of d) s m e
  | _ => x
  end.

Definition square_as (d : dtype) (a : ndarray) : ndarray :=
  map (fun x => mul_as d x x) a.

Definition sum_as (d : dtype) (a : ndarray) : float :=
  match a with
  | [] => zero
  | x :: rest => fold_left (add_as d) rest x
  end.

Definition mean_as (d : dtype) (a : ndarray) : float :=
  div_as d (sum_as d a) (of_int d (Z.of_nat (List.length a))).

End Np.

(* ================================================================== *)
(** * AudioMonitor: the level meter and the audio callback *)
(* ================================================================== *)

Module Level.
Import F64.

(** The fields of an [AudioMonitor] (line 15). *)
Record AudioMonitor : Type := mkMonitor {
  threshold_db : Z;
  running : bool
}.

(** The literal [1e-6] of line 20. *)
Definition floor : float := decimal 1 1000000.

(** [np.sqrt(np.mean(indata**2))], the first operand of line 20. *)
Definition rms (indata : Np.ndarray) : float :=
  sqrt (Np.mean (Np.square indata)).

(** Line 20: [db = 20 * np.log10(np.sqrt(np.mean(indata**2)) + 1e-6)]. *)
Definition level (indata : Np.ndarray) : float :=
  mul (of_Z 20) (Np.log10 (add (rms indata) floor)).

(** Line 21: [if db > self.threshold_db]. *)
Definition is_spike (threshold : Z) (db : float) : bool :=
  gtb db (of_Z threshold).

(** The signals a callback invocation emits. *)
Inductive signal : Type := spike_detected.

(** Lines 18-21, the callback [cb(indata, *_)]. *)
Definition cb (self : AudioMonitor) (indata : Np.ndarray) : list signal :=
  if negb (running self) then []
  else
    let db := level indata in
    if is_spike (threshold_db self) db then [spike_detected] else [].

(** A sample that is a zero of either sign, and a block of such samples. *)
Definition is_zero (x : float) : bool :=
  match x with S754_zero _ => true | _ => false end.

Definition all_zero (indata : Np.ndarray) : bool := forallb is_zero indata.

(** The level as section 4.1 of the specification words it: the square root
    of the sum of the squared samples over their number, plus the floor,
    under [20 * log10]. *)
Definition spec_sum_of_squares (block : list float) : float :=
  fold_left (fun acc x => add acc (mul x x)) block zero.

Definition spec_rms (block : list float) : float :=
  sqrt (div (spec_sum_of_squares block) (of_Z (Z.of_nat (List.length block)))).

Definition spec_level (block : list float) : float :=
  mul (of_Z 20) (Np.log10 (add (spec_rms block) (decimal 1 1000000))).

(** The blocks of a sequence, by index, on which a listening monitor
    raises the signal; [spike_indices_from] works on the computed levels. *)
Fixpoint spike_indices_from (i : nat) (threshold : Z) (levels : list float)
  : list nat :=
  match levels with
  | [] => []
  | db :: rest =>
      if is_spike threshold db
      then i :: spike_indices_from (S i) threshold rest
      else spike_indices_from (S i) threshold rest
  end.

Definition spike_indices (threshold : Z) (levels : list float) : list nat :=
  spike_indices_from 0 threshold levels.

(** The signals raised over a whole sequence of delivered blocks. *)
Definition deliver_all (self : AudioMonitor) (blocks : list Np.ndarray)
  : list (list signal) :=
  map (cb self) blocks.

(** ** Line 20 in the dtypes of numpy

    [np.sqrt(np.mean(indata**2))] is a scalar of the array's dtype.  What
    dtype the rest of line 20 is computed in depends on the numpy at hand:
    from numpy 2 on a Python [float] or [int] operand adopts the dtype of
    the numpy scalar it meets ([Weak]); before, arithmetic of a numpy
    scalar with a Python [float] is done in float64 ([Legacy]).
    [np.log10] is numpy's and not part of this program: it is a parameter,
    the function numpy applies to a scalar of that dtype. *)

Inductive promotion : Type := Legacy | Weak.

Definition scalar_dtype (array : Np.dtype) (rule : promotion) : Np.dtype :=
  match rule with
  | Weak => array
  | Legacy => Np.Float64
  end.

(** The literal [1e-6], a Python [float], as an operand of the dtype. *)
Definition floor_as (scalar : Np.dtype) : float :=
  Np.cast scalar (decimal 1 1000000).

Definition rms_as (array : Np.dtype) (indata : Np.ndarray) : float :=
  Np.sqrt_as array (Np.mean_as array (Np.square_as array indata)).

Definition level_as (array : Np.dtype) (rule : promotion)
           (log10 : float -> float) (indata : Np.ndarray) : float :=
  let scalar := scalar_dtype array rule in
  Np.mul_as scalar (Np.of_int scalar 20)
    (log10 (Np.add_as scalar (rms_as array indata) (floor_as scalar))).

(** The level as section 4.1 of the specification words it, in the same
    dtypes. *)
Definition spec_sum_of_squares_as (d : Np.dtype) (block : list float)
  : float :=
  fold_left (fun acc x => Np.add_as d acc (Np.mul_as d x x)) block zero.

Definition spec_rms_as (d : Np.dtype) (block : list float) : float :=
  Np.sqrt_as d
    (Np.div_as d (spec_sum_of_squares_as d block)
                 (Np.of_int d (Z.of_nat (List.length block)))).

Definition spec_level_as (array : Np.dtype) (rule : promotion)
           (log10 : float -> float) (block : list float) : float :=
  let scalar := scalar_dtype array rule in
  Np.mul_as scalar (Np.of_int scalar 20)
    (log10 (Np.add_as scalar (spec_rms_as array block)
                      (Np.cast scalar (decimal 1 1000000)))).

(** [x] is a finite number of magnitude below [2^k]. *)
Definition magnitude_below (k : Z) (x : float) : bool :=
  match x with
  | S754_zero _ => true
  | S754_finite _ m e => Zdigits2 (Z.pos m) + e <=? k
  | S754_infinity _ | S754_nan => false
  end.

(** [x] is the positive number of the dtype nearest to [num/den]: a
    mantissa [m] of the dtype's precision and a negative exponent [e] with
    [|m * 2^e - num/den| <= 2^e / 2], cleared of fractions. *)
Definition nearest_in (d : Np.dtype) (num den : Z) (x : float) : bool :=
  match x with
  | S754_finite false m e =>
      (e <? 0)
      && (2 ^ (Np.prec_of d - 1) <=? Z.pos m)
      && (Z.pos m <? 2 ^ Np.prec_of d)
      && (2 * Z.abs (Z.pos m * den - num * 2 ^ (- e)) <=? den)
  | _ => false
  end.

(** [x] is the integer [n], exactly. *)
Definition is_int (n : Z) (x : float) : bool :=
  match x with
  | S754_finite false m e => (e <=? 0) && (Z.pos m =? n * 2 ^ (- e))
  | _ => false
  end.

End Level.

(* ================================================================== *)
(** * RecorderThread *)
(* ================================================================== *)

Module Recorder.
Import F64.

(** ** The world of one recording session *)

(** What the environment decides.  The oracles are indexed by the number
    of calls made so far, so that any behaviour of the clock, the camera
    and the external tool is covered. *)
Record Env : Type := mkEnv {
  timestamp : string;            (* datetime.now().strftime('%Y%m%d_%H%M%S') *)
  camera_opens : bool;           (* does cv2.VideoCapture(0) open the device *)
  writer_opens : bool;           (* does cv2.VideoWriter create its file *)
  audio_opens : bool;            (* does sd.InputStream open the device *)
  clock : nat -> float;          (* k-th value of time.perf_counter() *)
  camera : nat -> bool;          (* [ret] of the k-th cap.read() *)
  delivered : list Np.ndarray;   (* blocks passed to audio_cb before stream.stop() *)
  tool : nat -> Z * bool         (* k-th subprocess.run: return code, and
                                    whether the output file was written *)
}.

(** The observable effects, in program order. *)
Inductive event : Type :=
| EvVideoCapture (index : Z)
| EvCapSet (prop value : Z)
| EvVideoWriter (path : string) (fps width height : Z)
| EvStreamStart (samplerate channels : Z)
| EvWriteFrame
| EvSleep (seconds : float)
| EvStreamStop
| EvCapRelease
| EvWriterRelease
| EvSfWrite (path : string) (blocks : nat) (samplerate : Z)
| EvSubprocess (argv : list string) (returncode : Z)
| EvRemove (path : string)
| EvEmit (final : string).

Record State : Type := mkState {
  ticks : nat;                   (* calls of time.perf_counter() so far *)
  reads : nat;                   (* calls of cap.read() so far *)
  runs : nat;                    (* calls of subprocess.run so far *)
  files : list string;           (* the files of the working directory *)
  log : list event               (* effects so far, oldest first *)
}.

Inductive exn : Type :=
| PortAudioError                      (* sd.InputStream on a missing device *)
| ValueError                          (* np.concatenate of an empty list *)
| ZeroDivisionError                   (* int / int with a zero divisor *)
| FileNotFoundError (path : string).  (* os.remove of a missing file *)

(** How a computation ends: with a value, with a Python exception, or
    not within the number of loop passes the model was given. *)
Inductive outcome (A : Type) : Type :=
| Return (a : A)
| Raise (e : exn)
| OutOfFuel.
Arguments Return {A} a.
Arguments Raise {A} e.
Arguments OutOfFuel {A}.

(** ** The monad: environment, state, exceptions *)

Definition M (A : Type) : Type := Env -> State -> State * outcome A.

Definition pure {A} (a : A) : M A := fun _ s => (s, Return a).

Definition bind {A B} (c : M A) (k : A -> M B) : M B :=
  fun env s =>
    match c env s with
    | (s', Return a) => k a env s'
    | (s', Raise e) => (s', Raise e)
    | (s', OutOfFuel) => (s', OutOfFuel)
    end.

Notation "x <- c ;; k" := (bind c (fun x => k))
  (at level 61, c at next level, right associativity).
Notation "c ;;; k" := (bind c (fun _ => k))
  (at level 61, right associativity).

Definition raise {A} (e : exn) : M A := fun _ s => (s, Raise e).
Definition out_of_fuel {A} : M A := fun _ s => (s, OutOfFuel).
Definition ask : M Env := fun env s => (s, Return env).

Definition emit_event (ev : event) : M unit :=
  fun _ s =>
    (mkState (ticks s) (reads s) (runs s) (files s) (log s ++ [ev]), Return tt).

(** ** The working directory *)

Definition exists_file (p : string) (fs : list string) : bool :=
  existsb (String.eqb p) fs.

Definition create_file (p : string) (fs : list string) : list string :=
  if exists_file p fs then fs else fs ++ [p].

Definition delete_file (p : string) (fs : list string) : list string :=
  filter (fun q => negb (String.eqb p q)) fs.

Definition touch (p : string) : M unit :=
  fun _ s =>
    (mkState (ticks s) (reads s) (runs s) (create_file p (files s)) (log s),
     Return tt).

(** ** The primitives [run] calls *)

(** The state after one more reading of the clock. *)
Definition ticked (s : State) : State :=
  mkState (S (ticks s)) (reads s) (runs s) (files s) (log s).

(** [time.perf_counter()]. *)
Definition perf_counter : M float :=
  fun env s => (ticked s, Return (clock env (ticks s))).

(** [time.sleep(seconds)]. *)
Definition time_sleep (seconds : float) : M unit :=
  emit_event (EvSleep seconds).

(** [cv2.VideoCapture(0); cap.set(3, w); cap.set(4, h)]: a device that
    cannot be opened raises nothing. *)
Definition VideoCapture (index w h : Z) : M unit :=
  emit_event (EvVideoCapture index) ;;;
  emit_event (EvCapSet 3 w) ;;;
  emit_event (EvCapSet 4 h).

(** [cv2.VideoWriter(path, fourcc, fps, (w, h))]: opening the writer
    creates the file. *)
Definition VideoWriter (path : string) (fps w h : Z) : M unit :=
  env <- ask ;;
  emit_event (EvVideoWriter path fps w h) ;;;
  if writer_opens env then touch path else pure tt.

(** [sd.InputStream(...)] followed by [stream.start()]. *)
Definition InputStream_start (sr ch : Z) : M unit :=
  env <- ask ;;
  if audio_opens env then emit_event (EvStreamStart sr ch)
  else raise PortAudioError.

(** [cap.read()]: the flag [ret]; a capture that is not opened never
    delivers a frame. *)
Definition cap_read : M bool :=
  fun env s =>
    (mkState (ticks s) (S (reads s)) (runs s) (files s) (log s),
     Return (camera_opens env && camera env (reads s))).

(** [vw.write(frame)]. *)
Definition vw_write : M unit := emit_event EvWriteFrame.

(** [sf.write(path, np.concatenate(audio_frames), sr)]. *)
Definition sf_write (path : string) (sr : Z) : M unit :=
  env <- ask ;;
  match delivered env with
  | [] => raise ValueError
  | _ :: _ =>
      emit_event (EvSfWrite path (List.length (delivered env)) sr) ;;;
      touch path
  end.

(** [subprocess.run(argv, ...)] without [check=True]: the return code is
    in the result and raises nothing.  The output file is the last
    argument. *)
Definition subprocess_run (argv : list string) : M Z :=
  fun env s =>
    let '(returncode, written) := tool env (runs s) in
    let fs := if written then create_file (last argv "") (files s)
              else files s in
    (mkState (ticks s) (reads s) (S (runs s)) fs
             (log s ++ [EvSubprocess argv returncode]),
     Return returncode).

(** [os.remove(path)]. *)
Definition os_remove (path : string) : M unit :=
  fun env s =>
    if exists_file path (files s)
    then (mkState (ticks s) (reads s) (runs s) (delete_file path (files s))
                  (log s ++ [EvRemove path]),
          Return tt)
    else (s, Raise (FileNotFoundError path)).

(** [self.finished_recording.emit(final)]. *)
Definition finished_recording_emit (final : string) : M unit :=
  emit_event (EvEmit final).

(** ** [run], lines 30-74 *)

(** Lines 32-34. *)
Definition v_tmp_of (ts : string) : string := "v_" ++ ts ++ ".mp4".
Definition a_tmp_of (ts : string) : string := "a_" ++ ts ++ ".wav".
Definition final_of (ts : string) : string := "sleep_" ++ ts ++ ".mp4".
Definition fixed_video_of (ts : string) : string := "vfix_" ++ ts ++ ".mp4".
Definition fps_target : Z := 20.
Definition sr : Z := 44100.
Definition ch : Z := 1.
Definition w : Z := 640.
Definition h : Z := 480.

(** Line 43: [frame_interval = 1.0 / fps_target]. *)
Definition frame_interval : float := div (of_Z 1) (of_Z fps_target).

(** The variables the capture loop updates. *)
Record loop_state : Type := mkLoop {
  next_frame_t : float;
  frames_written : nat
}.

(** Lines 48-53, one pass through the body of the loop. *)
Definition iteration (st : loop_state) : M loop_state :=
  ret <- cap_read ;;
  written <- (if ret : bool
              then vw_write ;;; pure (S (frames_written st))
              else pure (frames_written st)) ;;
  let next := add (next_frame_t st) frame_interval in
  now <- perf_counter ;;
  let sleep_for := sub next now in
  (if gtb sleep_for (of_Z 0) then time_sleep sleep_for else pure tt) ;;;
  pure (mkLoop next written).

(** Lines 47-53: [while time.perf_counter() < end_t: ...]. *)
Fixpoint capture (fuel : nat) (end_t : float) (st : loop_state)
  : M loop_state :=
  match fuel with
  | O => out_of_fuel
  | S fuel' =>
      now <- perf_counter ;;
      if ltb now end_t
      then st' <- iteration st ;; capture fuel' end_t st'
      else pure st
  end.

(** Python's [a / b] on two [int]s: the correctly rounded quotient, and
    [ZeroDivisionError] for a zero divisor. *)
Definition truediv (a b : Z) : M float :=
  if b =? 0 then raise ZeroDivisionError
  else pure (int_quotient a b).

(** Line 61: [frames_written / elapsed if elapsed else fps_target]; an
    [int] is false when it is zero. *)
Definition actual_fps_of (written : nat) (elapsed : Z) : M float :=
  if negb (elapsed =? 0) then truediv (Z.of_nat written) elapsed
  else pure (of_Z fps_target).

(** Line 62: [abs(actual_fps - fps_target) > 0.1]. *)
Definition needs_correction (actual_fps : float) : bool :=
  gtb (abs (sub actual_fps (of_Z fps_target))) (decimal 1 10).

(** Line 64, the argument vector of the retiming call. *)
Definition retime_argv (v_tmp : string) (actual_fps : float)
           (fixed_video : string) : list string :=
  ["ffmpeg"; "-y"; "-i"; v_tmp; "-r"; format_4f actual_fps; fixed_video].

(** Lines 69-72, the argument vector of the muxing call. *)
Definition mux_argv (v_tmp a_tmp final : string) : list string :=
  ["ffmpeg"; "-y"; "-i"; v_tmp; "-i"; a_tmp;
   "-c:v"; "copy"; "-c:a"; "aac"; "-movflags"; "+faststart"; "-shortest";
   final].

(** Lines 36-41. *)
Definition starting (ts : string) : M unit :=
  VideoCapture 0 w h ;;;
  VideoWriter (v_tmp_of ts) fps_target w h ;;;
  InputStream_start sr ch.

(** Lines 60-66: the video path handed to the muxer. *)
Definition adjust_fps (ts : string) (actual_fps : float) : M string :=
  if needs_correction actual_fps
  then
    let fixed_video := fixed_video_of ts in
    subprocess_run (retime_argv (v_tmp_of ts) actual_fps fixed_video) ;;;
    os_remove (v_tmp_of ts) ;;;
    pure fixed_video
  else pure (v_tmp_of ts).

(** Lines 54-74, everything after the capture loop. *)
Definition finalize (ts : string) (duration : Z) (written : nat) : M string :=
  let elapsed := duration in
  emit_event EvStreamStop ;;;
  emit_event EvCapRelease ;;;
  emit_event EvWriterRelease ;;;
  sf_write (a_tmp_of ts) sr ;;;
  actual_fps <- actual_fps_of written elapsed ;;
  v_tmp <- adjust_fps ts actual_fps ;;
  subprocess_run (mux_argv v_tmp (a_tmp_of ts) (final_of ts)) ;;;
  os_remove v_tmp ;;;
  os_remove (a_tmp_of ts) ;;;
  finished_recording_emit (final_of ts) ;;;
  pure (final_of ts).

(** [RecorderThread(duration).run()]. *)
Definition run (duration : Z) (fuel : nat) : M string :=
  env <- ask ;;
  let ts := timestamp env in
  starting ts ;;;
  next_frame_t0 <- perf_counter ;;
  let end_t := add next_frame_t0 (of_Z duration) in
  st <- capture fuel end_t (mkLoop next_frame_t0 0) ;;
  finalize ts duration (frames_written st).

(** ** Reading a session *)

(** The value line 61 computes. *)
Definition measured_fps (written : nat) (elapsed : Z) : float :=
  if elapsed =? 0 then of_Z fps_target
  else int_quotient (Z.of_nat written) elapsed.


(** The loop reads the clock twice per pass: once in its test, once for
    [sleep_for].  [still_capturing env c end_t k] says that the [k] tests
    that start at clock reading [c] all find the clock before [end_t]. *)
Definition still_capturing (env : Env) (c : nat) (end_t : float) (k : nat)
  : bool :=
  forallb (fun j => ltb (clock env (c + 2 * j)) end_t) (seq 0 k).

(** The deadline after [k] passes. *)
Definition deadline_after (k : nat) (t : float) : float :=
  Nat.iter k (fun d => add d frame_interval) t.

(** The successful ones among the [k] reads that start at read [r]. *)
Definition frames_read (env : Env) (r k : nat) : nat :=
  List.length
    (filter (fun j => camera_opens env && camera env j) (seq r k)).

(** The events of one pass, given the flag of the read and [sleep_for]. *)
Definition pass_events (ret : bool) (sleep_for : float) : list event :=
  ((if ret then [EvWriteFrame] else [])
   ++ (if gtb sleep_for (of_Z 0) then [EvSleep sleep_for] else []))%list.

(** A session starts with nothing done yet. *)
Definition initial (fs : list string) : State := mkState 0 0 0 fs [].

(** The external commands of a log, in order. *)
Fixpoint subprocess_calls (l : list event) : list (list string) :=
  match l with
  | [] => []
  | EvSubprocess argv _ :: rest => argv :: subprocess_calls rest
  | _ :: rest => subprocess_calls rest
  end.

(** The paths the [finished_recording] signal carried. *)
Fixpoint emitted (l : list event) : list string :=
  match l with
  | [] => []
  | EvEmit final :: rest => final :: emitted rest
  | _ :: rest => emitted rest
  end.

(** The return codes of the external commands of a log, in order. *)
Fixpoint returncodes (l : list event) : list Z :=
  match l with
  | [] => []
  | EvSubprocess _ returncode :: rest => returncode :: returncodes rest
  | _ :: rest => returncodes rest
  end.

(** The sleeps of a log. *)
Fixpoint sleeps (l : list event) : list float :=
  match l with
  | [] => []
  | EvSleep d :: rest => d :: sleeps rest
  | _ :: rest => sleeps rest
  end.

(** The frames a log handed to the video writer: the calls of
    [vw.write].  They reach a file only when the writer has opened one. *)
Fixpoint written_frames (l : list event) : nat :=
  match l with
  | [] => O
  | EvWriteFrame :: rest => S (written_frames rest)
  | _ :: rest => written_frames rest
  end.

(** The files a log removed. *)
Fixpoint removed (l : list event) : list string :=
  match l with
  | [] => []
  | EvRemove path :: rest => path :: removed rest
  | _ :: rest => removed rest
  end.

End Recorder.

(* ================================================================== *)
(** * SleepMonitorApp *)
(* ================================================================== *)

Module App.

(** The fields the handlers read and write (lines 80-88).  [mon] holds the
    monitor object, [rec] the duration the recorder thread was built
    with. *)
Record SleepMonitorApp : Type := mkApp {
  status : string;
  slider : Z;
  dur_box : Z;
  mon : option Level.AudioMonitor;
  rec : option Z;
  rec_active : bool
}.

(** The threads a handler starts. *)
Inductive command : Type :=
| StartMonitor (threshold : Z)     (* self.mon.start() *)
| StartRecorder (duration : Z).    (* self.rec.start() *)

(** Lines 78-88, [__init__]. *)
Definition init : SleepMonitorApp :=
  mkApp "Status: Idle" (-30) 10 None None false.

(** Line 15, [AudioMonitor(threshold_db)]. *)
Definition new_monitor (threshold : Z) : Level.AudioMonitor :=
  Level.mkMonitor threshold false.

(** Line 24, [AudioMonitor.stop]. *)
Definition stop (m : Level.AudioMonitor) : Level.AudioMonitor :=
  Level.mkMonitor (Level.threshold_db m) false.

(** Line 17, the first statement of [AudioMonitor.run]. *)
Definition set_running (m : Level.AudioMonitor) : Level.AudioMonitor :=
  Level.mkMonitor (Level.threshold_db m) true.

(** Lines 89-91, [start_mon]. *)
Definition start_mon (a : SleepMonitorApp) : SleepMonitorApp * list command :=
  (mkApp "Status: Listening…" (slider a) (dur_box a)
         (Some (new_monitor (slider a))) (rec a) (rec_active a),
   [StartMonitor (slider a)]).

(** Line 93 up to and including [self.mon.stop()]. *)
Definition stop_mon_request (a : SleepMonitorApp) : SleepMonitorApp :=
  mkApp (status a) (slider a) (dur_box a) (option_map stop (mon a))
        (rec a) (rec_active a).

(** Line 93 after [self.mon.wait()] has returned. *)
Definition stop_mon_finish (a : SleepMonitorApp) : SleepMonitorApp :=
  match mon a with
  | Some _ =>
      mkApp "Status: Stopped" (slider a) (dur_box a) None (rec a)
            (rec_active a)
  | None => a
  end.

(** Lines 92-93, [stop_mon] as one call. *)
Definition stop_mon (a : SleepMonitorApp) : SleepMonitorApp :=
  stop_mon_finish (stop_mon_request a).

(** Lines 94-97, [on_spike]. *)
Definition on_spike (a : SleepMonitorApp) : SleepMonitorApp * list command :=
  if rec_active a then (a, [])
  else
    (mkApp "Status: Recording…" (slider a) (dur_box a) (mon a)
           (Some (dur_box a)) true,
     [StartRecorder (dur_box a)]).

(** Line 98, [on_done]. *)
Definition on_done (f : string) (a : SleepMonitorApp) : SleepMonitorApp :=
  mkApp ("Saved: " ++ f ++ " — Listening…") (slider a) (dur_box a) (mon a)
        (rec a) false.

(** ** The application with its recorder threads

    [sessions] counts the recorder threads that were started and have not
    ended; it is not a field of the program. *)
Record system : Type := mkSystem {
  app : SleepMonitorApp;
  sessions : nat
}.

Definition boot : system := mkSystem init 0.

(** What can happen to the application: the two buttons, the spin box and
    the slider, a [spike_detected] signal reaching [on_spike], and the end
    of a recorder thread with the outcome of its [run]. *)
Inductive input : Type :=
| ClickStart
| ClickStop
| SetSlider (v : Z)
| SetDuration (v : Z)
| Spike
| SessionEnds (result : Recorder.outcome string).

Definition count_recorders (cs : list command) : nat :=
  List.length (filter (fun c => match c with StartRecorder _ => true
                                       | StartMonitor _ => false end) cs).

(** A recorder thread that returns from [run] has emitted
    [finished_recording], which runs [on_done]; one that ends by an
    exception has emitted nothing. *)
Definition handle (i : input) (s : system) : option system :=
  match i with
  | ClickStart => Some (mkSystem (fst (start_mon (app s))) (sessions s))
  | ClickStop => Some (mkSystem (stop_mon (app s)) (sessions s))
  | SetSlider v =>
      let a := app s in
      Some (mkSystem (mkApp (status a) v (dur_box a) (mon a) (rec a)
                            (rec_active a)) (sessions s))
  | SetDuration v =>
      let a := app s in
      Some (mkSystem (mkApp (status a) (slider a) v (mon a) (rec a)
                            (rec_active a)) (sessions s))
  | Spike =>
      let '(a, cs) := on_spike (app s) in
      Some (mkSystem a (sessions s + count_recorders cs))
  | SessionEnds result =>
      match sessions s with
      | O => None
      | S n =>
          match result with
          | Recorder.Return f => Some (mkSystem (on_done f (app s)) n)
          | _ => Some (mkSystem (app s) n)
          end
      end
  end.

(** The gate: at most one recorder thread, and the flag is set while there
    is one. *)
Definition gate_invariant (s : system) : Prop :=
  (sessions s <= 1)%nat
  /\ (sessions s = 1%nat -> rec_active (app s) = true)
  /\ (rec_active (app s) = false -> sessions s = 0%nat).

Fixpoint handle_all (inputs : list input) (s : system) : option system :=
  match inputs with
  | [] => Some s
  | i :: rest =>
      match handle i s with
      | Some s' => handle_all rest s'
      | None => None
      end
  end.

(** Line 99, [closeEvent]: [stop_mon], then the default handler. *)
Definition closeEvent (a : SleepMonitorApp) : SleepMonitorApp := stop_mon a.

(** The threads an input starts. *)
Definition commands_of (i : input) (s : system) : list command :=
  match i with
  | ClickStart => snd (start_mon (app s))
  | Spike => snd (on_spike (app s))
  | _ => []
  end.

(** The threads started along a sequence of inputs, in order. *)
Fixpoint all_commands (inputs : list input) (s : system) : list command :=
  match inputs with
  | [] => []
  | i :: rest =>
      match handle i s with
      | Some s' => (commands_of i s ++ all_commands rest s')%list
      | None => []
      end
  end.

(** The ranges of the two widgets (lines 83-84).  A Qt slider or spin box
    keeps its value within the range given to [setRange]: a value outside
    is replaced by the nearest bound. *)
Definition slider_min : Z := -60.
Definition slider_max : Z := 0.
Definition dur_min : Z := 5.
Definition dur_max : Z := 600.

Definition bound (lo hi v : Z) : Z := Z.max lo (Z.min hi v).

(** What the user and the threads can do to the window. *)
Inductive gesture : Type :=
| PressStart
| PressStop
| MoveSlider (v : Z)
| EditDuration (v : Z)
| Hear                                       (* a spike signal arrives *)
| RecorderEnds (result : Recorder.outcome string).

Definition input_of (g : gesture) : input :=
  match g with
  | PressStart => ClickStart
  | PressStop => ClickStop
  | MoveSlider v => SetSlider (bound slider_min slider_max v)
  | EditDuration v => SetDuration (bound dur_min dur_max v)
  | Hear => Spike
  | RecorderEnds result => SessionEnds result
  end.

(** The parameters of the threads a list of commands starts. *)
Definition in_range (c : command) : Prop :=
  match c with
  | StartMonitor threshold => slider_min <= threshold <= slider_max
  | StartRecorder duration => dur_min <= duration <= dur_max
  end.

(** Is the input one of the two monitoring buttons. *)
Definition is_button (i : input) : bool :=
  match i with
  | ClickStart | ClickStop => true
  | _ => false
  end.

(** Both widgets show a value of their range. *)
Definition in_ranges (a : SleepMonitorApp) : Prop :=
  slider_min <= slider a <= slider_max
  /\ dur_min <= dur_box a <= dur_max.

(** The recording side of the application: what [on_spike] and [on_done]
    read and write, and the recorder threads alive. *)
Definition recording_view (s : system) : Z * option Z * bool * nat :=
  (dur_box (app s), rec (app s), rec_active (app s), sessions s).

(** The durations of the recorder threads a list of commands starts, in
    order. *)
Definition recorder_durations (cs : list command) : list Z :=
  flat_map (fun c => match c with
                     | StartRecorder duration => [duration]
                     | StartMonitor _ => []
                     end) cs.

(** Is the input the end of a recorder thread that did not return from
    [run], and so never emitted [finished_recording]. *)
Definition ends_without_signal (i : input) : bool :=
  match i with
  | SessionEnds (Recorder.Return _) => false
  | SessionEnds _ => true
  | _ => false
  end.

(** Every session that ended emitted [finished_recording]. *)
Definition all_sessions_returned (inputs : list input) : bool :=
  forallb (fun i => negb (ends_without_signal i)) inputs.

(** The flag is set exactly while a recorder thread is alive, and there is
    at most one. *)
Definition gate_exact (s : system) : Prop :=
  (sessions s <= 1)%nat
  /\ (rec_active (app s) = true <-> sessions s = 1%nat).

(** The inputs that are left when the two monitoring buttons are never
    pressed. *)
Definition without_buttons (inputs : list input) : list input :=
  filter (fun i => negb (is_button i)) inputs.

End App.

(* ================================================================== *)
(** * The monitor threads, their callbacks and [stop_mon], interleaved *)
(* ================================================================== *)

Module Monitor.

(** Where the thread of an [AudioMonitor] is in [run]. *)
Inductive phase : Type :=
| Scheduled      (* start() was called, run has not begun *)
| Started        (* line 17 done *)
| Listening      (* inside the [with] block of line 22: the stream is open *)
| Finished.      (* run has ended, by its return or by an exception *)

(** One [AudioMonitor] with its thread.  [self] is the object (the
    threshold and the flag [running]); [pending] is a callback invocation
    that has passed the test of line 19 and not yet completed line 21. *)
Record thread : Type := mkThread {
  self : Level.AudioMonitor;
  at_phase : phase;
  pending : option Np.ndarray
}.

(** The window and the monitors it has created.  Every call of [start_mon]
    creates a new [AudioMonitor]; the objects are kept by age, and [mon] is
    the reference [self.mon] holds, an index into them.  A monitor that
    [self.mon] no longer refers to stays alive while its [run] executes.
    [waiting] says that the GUI thread is inside [stop_mon], blocked in
    [self.mon.wait()]. *)
Record sys : Type := mkSys {
  slider : Z;
  threads : list thread;
  mon : option nat;
  waiting : bool
}.

Definition init : sys := mkSys (App.slider App.init) [] None false.

(** What a monitor thread and the audio thread of its stream do. *)
Inductive thread_action : Type :=
| Run                            (* line 17 *)
| Open                           (* line 22: the stream is opened *)
| OpenFails                      (* line 22: [sd.InputStream] raises *)
| Deliver (indata : Np.ndarray)  (* audio thread: cb is called, line 19 *)
| Compute                        (* audio thread: lines 20-21 *)
| Poll.                          (* line 23: the test of the loop *)

(** The atomic steps: those of the GUI thread, and those of the monitor
    with a given index. *)
Inductive action : Type :=
| StartMonitoring                (* start_mon, lines 89-91 *)
| MoveSlider (v : Z)             (* the user moves the slider *)
| StopMonitoring                 (* stop_mon up to self.mon.stop() *)
| StopReturns                    (* self.mon.wait() returns; self.mon = None *)
| On (i : nat) (a : thread_action).

(** Line 90: the monitor [start_mon] creates. *)
Definition new_thread (threshold : Z) : thread :=
  mkThread (App.new_monitor threshold) Scheduled None.

(** Line 24 on the object of a thread. *)
Definition stopped (t : thread) : thread :=
  mkThread (App.stop (self t)) (at_phase t) (pending t).

(** One step of a monitor, when it can happen.  A stream that cannot be
    opened ends [run] with an exception.  Leaving the [with] block closes
    the stream, which waits for a callback in progress. *)
Definition local (a : thread_action) (t : thread) : option thread :=
  match a with
  | Run =>
      match at_phase t with
      | Scheduled =>
          Some (mkThread (App.set_running (self t)) Started (pending t))
      | _ => None
      end
  | Open =>
      match at_phase t with
      | Started => Some (mkThread (self t) Listening (pending t))
      | _ => None
      end
  | OpenFails =>
      match at_phase t with
      | Started => Some (mkThread (self t) Finished (pending t))
      | _ => None
      end
  | Deliver indata =>
      match at_phase t, pending t with
      | Listening, None =>
          if Level.running (self t)
          then Some (mkThread (self t) Listening (Some indata))
          else Some t
      | _, _ => None
      end
  | Compute =>
      match pending t with
      | Some _ => Some (mkThread (self t) (at_phase t) None)
      | None => None
      end
  | Poll =>
      match at_phase t with
      | Listening =>
          if Level.running (self t) then Some t
          else
            match pending t with
            | None => Some (mkThread (self t) Finished None)
            | Some _ => None
            end
      | _ => None
      end
  end.

(** The signals a step of a monitor emits (line 21). *)
Definition local_emits (a : thread_action) (t : thread)
  : list Level.signal :=
  match a, pending t with
  | Compute, Some indata =>
      if Level.is_spike (Level.threshold_db (self t)) (Level.level indata)
      then [Level.spike_detected] else []
  | _, _ => []
  end.

(** The list with the element at index [i] replaced. *)
Fixpoint update (i : nat) (t : thread) (l : list thread) : list thread :=
  match l, i with
  | [], _ => []
  | _ :: rest, O => t :: rest
  | x :: rest, S j => x :: update j t rest
  end.

Definition thread_at (s : sys) (i : nat) : option thread :=
  nth_error (threads s) i.

Definition with_thread (s : sys) (i : nat) (t : thread) : sys :=
  mkSys (slider s) (update i t (threads s)) (mon s) (waiting s).

(** [step act s] is the state after [act], when [act] can happen in [s].
    The GUI thread does nothing else while it is inside [stop_mon];
    [start_mon] has no test and replaces whatever [self.mon] holds;
    [stop_mon] does nothing without a monitor; [wait()] returns once the
    [run] of the monitor it was called on has ended. *)
Definition step (act : action) (s : sys) : option sys :=
  match act with
  | StartMonitoring =>
      if waiting s then None
      else Some (mkSys (slider s)
                       (threads s ++ [new_thread (slider s)])
                       (Some (List.length (threads s))) false)
  | MoveSlider v =>
      if waiting s then None
      else Some (mkSys (App.bound App.slider_min App.slider_max v)
                       (threads s) (mon s) false)
  | StopMonitoring =>
      if waiting s then None
      else
        match mon s with
        | None => Some s
        | Some i =>
            match thread_at s i with
            | Some t =>
                Some (mkSys (slider s) (update i (stopped t) (threads s))
                            (Some i) true)
            | None => None
            end
        end
  | StopReturns =>
      match waiting s, mon s with
      | true, Some i =>
          match thread_at s i with
          | Some t =>
              match at_phase t with
              | Finished => Some (mkSys (slider s) (threads s) None false)
              | _ => None
              end
          | None => None
          end
      | _, _ => None
      end
  | On i a =>
      match thread_at s i with
      | Some t =>
          match local a t with
          | Some t' => Some (with_thread s i t')
          | None => None
          end
      | None => None
      end
  end.

(** A signal with the index of the monitor that emitted it. *)
Definition emission : Type := (nat * Level.signal)%type.

Definition emits (act : action) (s : sys) : list emission :=
  match act with
  | On i a =>
      match thread_at s i with
      | Some t => map (pair i) (local_emits a t)
      | None => []
      end
  | _ => []
  end.

(** Running a schedule: the final state and the signals emitted, oldest
    first. *)
Fixpoint exec (acts : list action) (s : sys)
  : option (sys * list emission) :=
  match acts with
  | [] => Some (s, [])
  | act :: rest =>
      match step act s with
      | None => None
      | Some s' =>
          match exec rest s' with
          | None => None
          | Some (s'', out) => Some (s'', (emits act s ++ out)%list)
          end
      end
  end.

(** Is a monitoring session open after the schedule [acts]: has
    [StartMonitoring] been called with no return of [StopMonitoring]
    since. *)
Fixpoint session_open (opened : bool) (acts : list action) : bool :=
  match acts with
  | [] => opened
  | StartMonitoring :: rest => session_open true rest
  | StopReturns :: rest => session_open false rest
  | _ :: rest => session_open opened rest
  end.

(** Does the caller keep to the protocol Idle, Listening, Idle of the
    specification: [StartMonitoring] is only called while no session is
    open. *)
Fixpoint alternates (opened : bool) (acts : list action) : bool :=
  match acts with
  | [] => true
  | StartMonitoring :: rest => negb opened && alternates true rest
  | StopReturns :: rest => alternates false rest
  | _ :: rest => alternates opened rest
  end.

Definition is_start (act : action) : bool :=
  match act with
  | StartMonitoring => true
  | _ => false
  end.

(** A schedule without a call of [start_mon]. *)
Definition no_start (acts : list action) : bool :=
  forallb (fun act => negb (is_start act)) acts.

(** Is [act] a step of the monitor [i]. *)
Definition is_on (i : nat) (act : action) : bool :=
  match act with
  | On j _ => Nat.eqb j i
  | _ => false
  end.

(** Is [act] a step the thread of monitor [i] takes itself, or the end of
    a callback: anything of monitor [i] but the arrival of a block. *)
Definition is_own_step (i : nat) (act : action) : bool :=
  match act with
  | On j (Deliver _) => false
  | On j _ => Nat.eqb j i
  | _ => false
  end.

Definition own_steps (i : nat) (acts : list action) : list action :=
  filter (is_own_step i) acts.

(** The signals of monitor [i] among the emitted ones. *)
Definition emitted_by (i : nat) (out : list emission) : list emission :=
  filter (fun e => Nat.eqb (fst e) i) out.

(** Does [self.mon] refer to monitor [i]. *)
Definition holds (s : sys) (i : nat) : bool :=
  match mon s with
  | Some j => Nat.eqb j i
  | None => false
  end.

(** ** Invariants *)

(** A callback in progress belongs to an open stream. *)
Definition callback_in_stream (t : thread) : Prop :=
  pending t <> None -> at_phase t = Listening.

(** [self.mon] refers to a monitor that exists, and the GUI thread waits
    only for a monitor it holds. *)
Definition well_formed (s : sys) : Prop :=
  Forall callback_in_stream (threads s)
  /\ (forall i, mon s = Some i -> (i < List.length (threads s))%nat)
  /\ (mon s = None -> waiting s = false).

(** The run of the thread has ended and none of its callbacks is in
    progress. *)
Definition terminated (t : thread) : Prop :=
  at_phase t = Finished /\ pending t = None.

(** Monitor [i] has terminated and the window has let go of it. *)
Definition released (i : nat) (s : sys) : Prop :=
  holds s i = false
  /\ (i < List.length (threads s))%nat
  /\ exists t, thread_at s i = Some t /\ terminated t.

(** Every monitor but the one the window holds has terminated. *)
Definition only_held_alive (s : sys) : Prop :=
  forall i t, thread_at s i = Some t -> holds s i = false -> terminated t.

(** [stop_mon] waits for monitor [i], whose thread has not begun or runs
    with the flag set. *)
Definition stuck (i : nat) (s : sys) : Prop :=
  waiting s = true /\ mon s = Some i
  /\ exists t,
       thread_at s i = Some t
       /\ ((at_phase t = Scheduled /\ Level.running (self t) = false)
           \/ (Level.running (self t) = true
               /\ (at_phase t = Started \/ at_phase t = Listening))).

(** The flag of the monitor is clear and its thread is past line 17. *)
Definition flag_down (t : thread) : Prop :=
  Level.running (self t) = false /\ at_phase t <> Scheduled.

(** The callbacks of a monitor in progress. *)
Definition callbacks (t : thread) : nat :=
  match pending t with
  | Some _ => 1
  | None => 0
  end.

(** The steps monitor [t] has left before its run has ended and [wait()]
    has returned, at most. *)
Definition remaining (t : thread) : nat :=
  match at_phase t with
  | Scheduled => 4
  | Started => 3
  | Listening => 2 + callbacks t
  | Finished => 1
  end.

(** [stop_mon] waits for monitor [i], whose thread is past line 17 and
    sees the flag clear. *)
Definition winding_down (i : nat) (s : sys) : Prop :=
  waiting s = true /\ mon s = Some i
  /\ exists t,
       thread_at s i = Some t /\ flag_down t /\ callback_in_stream t.

(** A block of silence: one sample at least, and every sample a zero. *)
Definition silent (indata : Np.ndarray) : bool :=
  match indata with
  | [] => false
  | _ => Level.all_zero indata
  end.

(** A step that is not the arrival of a block with sound in it. *)
Definition hears_silence (act : action) : bool :=
  match act with
  | On _ (Deliver indata) => silent indata
  | _ => true
  end.

(** The thresholds the slider offers (line 83). *)
Definition slider_values : list Z :=
  map (fun k => App.slider_min + Z.of_nat k)
      (seq 0 (Z.to_nat (App.slider_max - App.slider_min + 1))).

(** The callback in progress works on silence and the monitor has a
    threshold of the slider's range. *)
Definition quiet (t : thread) : Prop :=
  (forall indata, pending t = Some indata -> silent indata = true)
  /\ App.slider_min <= Level.threshold_db (self t) <= App.slider_max.

End Monitor.

(* ================================================================== *)
(** * Sample worlds *)
(* ================================================================== *)

Module Examples.
Import F64.

Definition ts : string := "20240101_000000".

(** A clock that advances by [num/den] seconds from one reading to the
    next. *)
Definition clock_every (num den : Z) : nat -> float :=
  fun k => mul (of_Z (Z.of_nat k)) (decimal num den).

(** One block of two silent samples. *)
Definition silence : Np.ndarray := [zero; zero].

(** A healthy session: every read delivers a frame, the clock advances
    25 ms per reading (50 ms per pass), the tool succeeds. *)
Definition env_steady : Recorder.Env :=
  Recorder.mkEnv ts true true true (clock_every 25 1000) (fun _ => true)
                 [silence] (fun _ => (0, true)).

(** The same session with a muxer that exits with status 1 and writes
    nothing. *)
Definition env_mux_fails : Recorder.Env :=
  Recorder.mkEnv ts true true true (clock_every 25 1000) (fun _ => true)
                 [silence] (fun _ => (1, false)).

(** A slow session (30 ms per reading) whose retiming run exits with
    status 1 after writing its output. *)
Definition env_retime_fails : Recorder.Env :=
  Recorder.mkEnv ts true true true (clock_every 30 1000) (fun _ => true)
                 [silence] (fun k => (if Nat.eqb k 0 then 1 else 0, true)).

(** The camera cannot be opened. *)
Definition env_no_camera : Recorder.Env :=
  Recorder.mkEnv ts false true true (clock_every 25 1000) (fun _ => true)
                 [silence] (fun _ => (0, true)).

(** The audio device cannot be opened. *)
Definition env_no_audio : Recorder.Env :=
  Recorder.mkEnv ts true true false (clock_every 25 1000) (fun _ => true)
                 [] (fun _ => (0, true)).

(** A session in which every fourth read fails. *)
Definition env_dropping : Recorder.Env :=
  Recorder.mkEnv ts true true true (clock_every 25 1000)
                 (fun j => negb (Nat.eqb (j mod 4) 3)) [silence]
                 (fun _ => (0, true)).

(** The state [finalize] starts from in a session that wrote its raw
    video. *)
Definition after_capture : Recorder.State :=
  Recorder.mkState 41 20 0 [Recorder.v_tmp_of ts] [].

(** A monitoring session in which one loud block arrives. *)
Definition loud : Np.ndarray := [decimal 1 2; opp (decimal 1 2)].

Definition one_session : list Monitor.action :=
  [Monitor.StartMonitoring; Monitor.On 0 Monitor.Run;
   Monitor.On 0 Monitor.Open; Monitor.On 0 (Monitor.Deliver loud);
   Monitor.On 0 Monitor.Compute; Monitor.StopMonitoring;
   Monitor.On 0 Monitor.Poll; Monitor.StopReturns].

(** Monitoring is started twice and stopped once: [stop_mon] stops the
    second monitor and returns. *)
Definition started_twice : list Monitor.action :=
  [Monitor.StartMonitoring; Monitor.On 0 Monitor.Run;
   Monitor.On 0 Monitor.Open; Monitor.StartMonitoring;
   Monitor.On 1 Monitor.Run; Monitor.On 1 Monitor.Open;
   Monitor.StopMonitoring; Monitor.On 1 Monitor.Poll; Monitor.StopReturns].

(** The stream of the first monitor delivers a loud block. *)
Definition first_monitor_hears : list Monitor.action :=
  [Monitor.On 0 (Monitor.Deliver loud); Monitor.On 0 Monitor.Compute].

End Examples.


(* ================================================================== *)
(** * Facts about binary64 rounding *)
(* ================================================================== *)

(** The shifts of the rounding function divide the mantissa by a power of
    two; a positive integer therefore never rounds to zero. *)

Lemma shr_1_m (mrs : shr_record) :
  0 <= shr_m mrs -> shr_m (shr_1 mrs) = shr_m mrs / 2.
Proof.
  destruct mrs as [m r s]; simpl; intros Hm.
  destruct m as [|p|p]; try lia; [reflexivity|].
  destruct p as [p|p|]; simpl.
  - rewrite Pos2Z.inj_xI. apply Z.div_unique with (r := 1); lia.
  - rewrite Pos2Z.inj_xO. apply Z.div_unique with (r := 0); lia.
  - reflexivity.
Qed.

Lemma iter_shr_m (n : positive) : forall mrs,
  0 <= shr_m mrs ->
  shr_m (iter_pos shr_1 n mrs) = shr_m mrs / 2 ^ Z.pos n.
Proof.
  assert (Hnn : forall mrs, 0 <= shr_m mrs -> 0 <= shr_m (shr_1 mrs)).
  { intros mrs H. rewrite shr_1_m by assumption. apply Z.div_pos; lia. }
  induction n as [n IH|n IH|]; intros mrs Hm; cbn [iter_pos].
  - rewrite IH.
    2:{ rewrite IH by auto. apply Z.div_pos; [auto|lia]. }
    rewrite IH by auto. rewrite shr_1_m by assumption.
    rewrite !Z.div_div by lia. f_equal.
    replace (2 ^ Z.pos n~1) with (2 * (2 ^ Z.pos n * 2 ^ Z.pos n)); [reflexivity|].
    rewrite <- Z.pow_add_r, <- Z.pow_succ_r by lia. f_equal. lia.
  - rewrite IH.
    2:{ rewrite IH by auto. apply Z.div_pos; [auto|lia]. }
    rewrite IH by auto.
    rewrite !Z.div_div by lia. f_equal.
    replace (2 ^ Z.pos n~0) with (2 ^ Z.pos n * 2 ^ Z.pos n); [reflexivity|].
    rewrite <- Z.pow_add_r by lia. f_equal. lia.
  - rewrite shr_1_m by assumption. reflexivity.
Qed.

Lemma shr_spec (mrs : shr_record) (e n : Z) :
  0 <= shr_m mrs ->
  shr_m (fst (shr mrs e n)) = shr_m mrs / 2 ^ Z.max 0 n
  /\ snd (shr mrs e n) = e + Z.max 0 n.
Proof.
  intros Hm. destruct n as [|p|p]; simpl.
  - rewrite Z.div_1_r. lia.
  - rewrite (iter_shr_m p) by assumption. split; reflexivity.
  - rewrite Z.div_1_r. lia.
Qed.

Lemma digits2_size (p : positive) : digits2_pos p = Pos.size p.
Proof. induction p; simpl; congruence. Qed.

Lemma Zdigits2_bounds (m : Z) :
  0 < m -> 2 ^ (Zdigits2 m - 1) <= m < 2 ^ Zdigits2 m.
Proof.
  intros Hm. destruct m as [|p|p]; try lia.
  change (Zdigits2 (Z.pos p)) with (Z.pos (digits2_pos p)).
  rewrite digits2_size.
  pose proof (Pos.size_gt p) as Hgt. pose proof (Pos.size_le p) as Hle.
  apply Pos2Z.pos_lt_pos in Hgt. apply Pos2Z.pos_le_pos in Hle.
  rewrite Pos2Z.inj_pow in Hgt, Hle.
  change (Z.pos p~0) with (2 * Z.pos p) in Hle.
  replace (Z.pos (Pos.size p)) with (Z.succ (Z.pos (Pos.size p) - 1)) in Hle by lia.
  rewrite Z.pow_succ_r in Hle by lia.
  split; lia.
Qed.

Lemma Zdigits2_pos (m : Z) : 0 < m -> 0 < Zdigits2 m.
Proof. destruct m; simpl; lia. Qed.

(** Dividing by a power of two below the number's size leaves it positive. *)
Lemma shift_positive (m n : Z) :
  0 < m -> n <= Zdigits2 m - 1 -> 0 < m / 2 ^ Z.max 0 n.
Proof.
  intros Hm Hn. pose proof (Zdigits2_bounds m Hm) as [Hlo _].
  pose proof (Zdigits2_pos m Hm) as Hd.
  apply Z.div_str_pos. split; [apply Z.pow_pos_nonneg; lia|].
  apply Z.le_trans with (2 ^ (Zdigits2 m - 1)); [|assumption].
  apply Z.pow_le_mono_r; lia.
Qed.

Lemma Zdigits2_mono (a b : Z) : 0 < a -> a <= b -> Zdigits2 a <= Zdigits2 b.
Proof.
  intros Ha Hab.
  pose proof (Zdigits2_bounds a Ha) as [Hlo _].
  pose proof (Zdigits2_bounds b ltac:(lia)) as [_ Hhi].
  pose proof (Zdigits2_pos a Ha). pose proof (Zdigits2_pos b ltac:(lia)).
  destruct (Z.le_gt_cases (Zdigits2 a) (Zdigits2 b)) as [|Hgt]; [assumption|].
  exfalso.
  assert (2 ^ Zdigits2 b <= 2 ^ (Zdigits2 a - 1)) by (apply Z.pow_le_mono_r; lia).
  lia.
Qed.

(** Size of a number shifted right by [n] binary places. *)
Lemma Zdigits2_shift (m n : Z) :
  0 < m -> 0 <= n -> n <= Zdigits2 m - 1 ->
  Zdigits2 m - n <= Zdigits2 (m / 2 ^ n).
Proof.
  intros Hm Hn0 Hn.
  assert (Hq : 0 < m / 2 ^ n).
  { replace n with (Z.max 0 n) by lia. apply shift_positive; assumption. }
  pose proof (Zdigits2_bounds m Hm) as [Hlo _].
  pose proof (Zdigits2_bounds _ Hq) as [_ Hhi].
  pose proof (Zdigits2_pos _ Hq) as Hdq.
  destruct (Z.le_gt_cases (Zdigits2 m - n) (Zdigits2 (m / 2 ^ n))) as [|Hgt];
    [assumption|exfalso].
  assert (H2n : 0 < 2 ^ n) by (apply Z.pow_pos_nonneg; lia).
  assert (Hm' : m < 2 ^ n * 2 ^ Zdigits2 (m / 2 ^ n)).
  { pose proof (Z.mul_succ_div_gt m (2 ^ n) H2n). nia. }
  rewrite <- Z.pow_add_r in Hm' by lia.
  assert (2 ^ (n + Zdigits2 (m / 2 ^ n)) <= 2 ^ (Zdigits2 m - 1))
    by (apply Z.pow_le_mono_r; lia).
  lia.
Qed.

Lemma shr_record_of_loc_m (m : Z) (l : location) :
  shr_m (shr_record_of_loc m l) = m.
Proof. destruct l as [|[ | | ]]; reflexivity. Qed.

Lemma shr_fexp_spec (m e : Z) (l : location) :
  0 <= m ->
  let n := Z.max 0 (fexp F64.prec F64.emax (Zdigits2 m + e) - e) in
  shr_m (fst (shr_fexp F64.prec F64.emax m e l)) = m / 2 ^ n
  /\ snd (shr_fexp F64.prec F64.emax m e l) = e + n.
Proof.
  intros Hm n. unfold shr_fexp.
  destruct (shr_spec (shr_record_of_loc m l) e
              (fexp F64.prec F64.emax (Zdigits2 m + e) - e)) as [H1 H2].
  - rewrite shr_record_of_loc_m. assumption.
  - rewrite shr_record_of_loc_m in H1. split; assumption.
Qed.

Lemma round_nearest_even_bounds (m : Z) (l : location) :
  m <= round_nearest_even m l <= m + 1.
Proof.
  destruct l as [|[ | | ]]; simpl; try lia.
  destruct (Z.even m); lia.
Qed.

(** The amount by which rounding shifts a number that is not below the
    smallest subnormal keeps at least one of its bits. *)
Lemma shift_amount_bound (m e : Z) :
  0 < m -> -1073 <= Zdigits2 m + e ->
  fexp F64.prec F64.emax (Zdigits2 m + e) - e <= Zdigits2 m - 1.
Proof.
  intros Hm He. unfold fexp, emin, F64.prec, F64.emax. lia.
Qed.

Lemma binary_round_aux_signed (s : bool) (m e : Z) (l : location) :
  0 < m -> -1073 <= Zdigits2 m + e ->
  F64.signed_number s (binary_round_aux F64.prec F64.emax s m e l).
Proof.
  intros Hm He. unfold binary_round_aux.
  pose proof (shr_fexp_spec m e l ltac:(lia)) as [Hm1 He1].
  destruct (shr_fexp F64.prec F64.emax m e l) as [mrs1 e1]; simpl in Hm1, He1.
  set (n1 := Z.max 0 (fexp F64.prec F64.emax (Zdigits2 m + e) - e)) in *.
  pose proof (shift_amount_bound m e Hm He) as Hn1.
  pose proof (Zdigits2_pos m Hm) as Hd.
  assert (Hpos1 : 0 < shr_m mrs1).
  { rewrite Hm1. apply shift_positive; assumption. }
  assert (Hd1 : Zdigits2 m - n1 <= Zdigits2 (shr_m mrs1)).
  { rewrite Hm1. apply Zdigits2_shift; lia. }
  pose proof (round_nearest_even_bounds (shr_m mrs1) (loc_of_shr_record mrs1))
    as Hrne.
  set (m2 := round_nearest_even (shr_m mrs1) (loc_of_shr_record mrs1)) in *.
  assert (Hd2 : Zdigits2 (shr_m mrs1) <= Zdigits2 m2)
    by (apply Zdigits2_mono; lia).
  pose proof (shr_fexp_spec m2 e1 loc_Exact ltac:(lia)) as [Hm3 He3].
  destruct (shr_fexp F64.prec F64.emax m2 e1 loc_Exact) as [mrs3 e3];
    simpl in Hm3, He3.
  assert (Hpos3 : 0 < shr_m mrs3).
  { rewrite Hm3. apply shift_positive; [lia|].
    apply shift_amount_bound; lia. }
  destruct (shr_m mrs3) as [|q|q]; try lia.
  destruct (e3 <=? F64.emax - F64.prec); reflexivity.
Qed.

Lemma binary_round_signed (s : bool) (p : positive) :
  F64.signed_number s (binary_round F64.prec F64.emax s p 0).
Proof.
  unfold binary_round, shl_align.
  set (ex := fexp F64.prec F64.emax (Z.pos (digits2_pos p) + 0)).
  assert (Hex : -1074 <= ex) by (unfold ex, fexp, emin, F64.prec, F64.emax; lia).
  destruct (ex - 0) as [|d|d] eqn:Hd.
  - apply binary_round_aux_signed; simpl; lia.
  - apply binary_round_aux_signed; simpl; lia.
  - apply binary_round_aux_signed; [lia|].
    change (Zdigits2 (Z.pos (Pos.iter xO p d))) with
      (Z.pos (digits2_pos (Pos.iter xO p d))). lia.
Qed.

(** [float(n)] of a positive integer is a positive number, of a negative
    one a negative number. *)
Lemma of_Z_signed (n : Z) : n <> 0 -> F64.signed_number (n <? 0) (F64.of_Z n).
Proof.
  intros Hn. destruct n as [|p|p]; [congruence| |]; apply binary_round_signed.
Qed.

(* ================================================================== *)
(** * The level meter *)
(* ================================================================== *)

(** A square is never the negative zero, so adding it to [0.0] changes
    nothing. *)
Lemma add_zero_square (x : F64.float) :
  F64.add F64.zero (F64.mul x x) = F64.mul x x.
Proof.
  destruct x as [s|s| |s m e];
    [destruct s; reflexivity|destruct s; reflexivity|reflexivity|].
  unfold F64.mul, SFmul. replace (xorb s s) with false by (destruct s; reflexivity).
  unfold binary_round_aux.
  destruct (shr_fexp _ _ _ _ _) as [mrs1 e1].
  destruct (shr_fexp _ _ _ _ _) as [mrs2 e2].
  destruct (shr_m mrs2); try reflexivity.
  destruct (e2 <=? _); reflexivity.
Qed.

Lemma fold_left_add_square (l : list F64.float) : forall a,
  fold_left F64.add (Np.square l) a
  = fold_left (fun acc x => F64.add acc (F64.mul x x)) l a.
Proof.
  induction l as [|x l IH]; intros a; simpl; [reflexivity|apply IH].
Qed.

Lemma sum_square_spec (indata : Np.ndarray) :
  Np.sum (Np.square indata) = Level.spec_sum_of_squares indata.
Proof.
  destruct indata as [|x l]; [reflexivity|].
  unfold Level.spec_sum_of_squares, Np.sum. cbn [Np.square map fold_left].
  rewrite add_zero_square. apply (fold_left_add_square l).
Qed.

Lemma square_length (indata : Np.ndarray) :
  List.length (Np.square indata) = List.length indata.
Proof. apply length_map. Qed.

(** The code computes the level the specification describes. *)
Lemma rms_refines_spec (indata : Np.ndarray) :
  Level.rms indata = Level.spec_rms indata.
Proof.
  unfold Level.rms, Level.spec_rms, Np.mean.
  rewrite sum_square_spec, square_length. reflexivity.
Qed.

Lemma level_refines_spec (indata : Np.ndarray) :
  Level.level indata = Level.spec_level indata.
Proof.
  unfold Level.level, Level.spec_level. rewrite rms_refines_spec.
  reflexivity.
Qed.

(** The squares of a silent block add up to [0.0]. *)
Lemma sum_of_squares_silent (l : list F64.float) :
  Level.all_zero l = true -> Level.spec_sum_of_squares l = F64.zero.
Proof.
  unfold Level.spec_sum_of_squares.
  induction l as [|x l IH]; simpl; intros Hz; [reflexivity|].
  apply andb_true_iff in Hz as [Hx Hl].
  destruct x as [s| | |]; try discriminate.
  destruct s; simpl; apply IH; assumption.
Qed.

Lemma rms_silent (indata : Np.ndarray) :
  indata <> [] -> Level.all_zero indata = true ->
  Level.is_zero (Level.spec_rms indata) = true.
Proof.
  intros Hne Hz. unfold Level.spec_rms.
  rewrite sum_of_squares_silent by assumption.
  destruct indata as [|x l]; [congruence|].
  pose proof (of_Z_signed (Z.of_nat (List.length (x :: l)))) as Hn.
  destruct (F64.of_Z (Z.of_nat (List.length (x :: l)))) as [s|s| |s m e];
    simpl in Hn.
  - exfalso. apply Hn. simpl. lia.
  - destruct s; reflexivity.
  - exfalso. apply Hn. simpl. lia.
  - destruct s; reflexivity.
Qed.

Lemma add_zero_floor (x : F64.float) :
  Level.is_zero x = true -> F64.add x (F64.decimal 1 1000000) = Level.floor.
Proof. destruct x as [s| | |]; try discriminate. destruct s; reflexivity. Qed.

Lemma level_of_silence (indata : Np.ndarray) :
  indata <> [] -> Level.all_zero indata = true ->
  Level.level indata = F64.mul (F64.of_Z 20) (Np.log10 Level.floor).
Proof.
  intros Hne Hz. rewrite level_refines_spec. unfold Level.spec_level.
  rewrite add_zero_floor by (apply rms_silent; assumption). reflexivity.
Qed.

(** In the model the level of the floor is [-120.0]. *)
Lemma floor_level_value :
  F64.mul (F64.of_Z 20) (Np.log10 Level.floor) = F64.opp (F64.of_Z 120).
Proof. vm_compute. reflexivity. Qed.

(** No float is below itself, and none is below or above a NaN. *)
Lemma ltb_irrefl (x : F64.float) : F64.ltb x x = false.
Proof.
  destruct x as [s|s| |s m e]; try (destruct s; reflexivity); try reflexivity.
  unfold F64.ltb, SFltb, SFcompare.
  destruct s; rewrite Z.compare_refl, Pos.compare_cont_refl; reflexivity.
Qed.

Lemma ltb_nan_r (x : F64.float) : F64.ltb x F64.nan = false.
Proof. destruct x as [s|s| |s m e]; reflexivity. Qed.

(** C5.  While the monitor runs, every delivered block is judged on its
    own: the callback raises [spike_detected] exactly when the block's level
    is strictly above the threshold (a level equal to the threshold raises
    nothing), a stopped monitor raises nothing, the signals of a sequence of
    blocks are those of its blocks one by one, and the levels
    [-40, -20, -10, -35] against a threshold of -30 raise the signal at
    indices 1 and 2 and nowhere else. *)
Theorem spike_raised_per_block_above_threshold :
  (forall self indata,
      Level.running self = true ->
      Level.cb self indata
      = if F64.gtb (Level.level indata) (F64.of_Z (Level.threshold_db self))
        then [Level.spike_detected] else [])
  /\ (forall self indata, Level.running self = false -> Level.cb self indata = [])
  /\ (forall threshold, Level.is_spike threshold (F64.of_Z threshold) = false)
  /\ (forall self blocks i,
         nth_error (Level.deliver_all self blocks) i
         = option_map (Level.cb self) (nth_error blocks i))
  /\ Level.spike_indices (-30)
       [F64.of_Z (-40); F64.of_Z (-20); F64.of_Z (-10); F64.of_Z (-35)]
     = [1%nat; 2%nat].
Proof.
  split; [|split; [|split; [|split]]].
  - intros self indata Hrun. unfold Level.cb, Level.is_spike. rewrite Hrun.
    reflexivity.
  - intros self indata Hrun. unfold Level.cb. rewrite Hrun. reflexivity.
  - intros threshold. unfold Level.is_spike, F64.gtb. apply ltb_irrefl.
  - intros self blocks i. unfold Level.deliver_all. apply nth_error_map.
  - vm_compute. reflexivity.
Qed.

(** Witness for C5: a running monitor at -30 dB hears a loud block and a
    silent one. *)
Lemma spike_raised_per_block_witness :
  Level.running (Level.mkMonitor (-30) true) = true
  /\ Level.cb (Level.mkMonitor (-30) true) Examples.loud = [Level.spike_detected]
  /\ Level.cb (Level.mkMonitor (-30) true) Examples.silence = [].
Proof.
  split; [reflexivity|].
  split;
    rewrite (proj1 spike_raised_per_block_above_threshold
               (Level.mkMonitor (-30) true) _ eq_refl);
    vm_compute; reflexivity.
Defined.

(** ** The level in the dtypes of numpy *)

Lemma shr_fexp_spec_gen (prec emax m e : Z) (l : location) :
  0 <= m ->
  let n := Z.max 0 (fexp prec emax (Zdigits2 m + e) - e) in
  shr_m (fst (shr_fexp prec emax m e l)) = m / 2 ^ n
  /\ snd (shr_fexp prec emax m e l) = e + n.
Proof.
  intros Hm n. unfold shr_fexp.
  destruct (shr_spec (shr_record_of_loc m l) e
              (fexp prec emax (Zdigits2 m + e) - e)) as [H1 H2].
  - rewrite shr_record_of_loc_m. assumption.
  - rewrite shr_record_of_loc_m in H1. split; assumption.
Qed.

(** In every format, a positive number that is not below the smallest
    subnormal does not round to zero. *)
Lemma binary_round_aux_signed_gen (prec emax : Z) (s : bool) (m e : Z)
      (l : location) :
  0 < prec -> 0 < m -> emin prec emax < Zdigits2 m + e ->
  F64.signed_number s (binary_round_aux prec emax s m e l).
Proof.
  intros Hprec Hm He. unfold binary_round_aux.
  pose proof (shr_fexp_spec_gen prec emax m e l ltac:(lia)) as [Hm1 He1].
  destruct (shr_fexp prec emax m e l) as [mrs1 e1]; simpl in Hm1, He1.
  assert (Hn1 : fexp prec emax (Zdigits2 m + e) - e <= Zdigits2 m - 1)
    by (unfold fexp, emin in *; lia).
  pose proof (Zdigits2_pos m Hm) as Hd.
  assert (Hpos1 : 0 < shr_m mrs1).
  { rewrite Hm1. apply shift_positive; assumption. }
  assert (Hd1 : Zdigits2 m
                - Z.max 0 (fexp prec emax (Zdigits2 m + e) - e)
                <= Zdigits2 (shr_m mrs1)).
  { rewrite Hm1. apply Zdigits2_shift; lia. }
  pose proof (round_nearest_even_bounds (shr_m mrs1) (loc_of_shr_record mrs1))
    as Hrne.
  set (m2 := round_nearest_even (shr_m mrs1) (loc_of_shr_record mrs1)) in *.
  assert (Hd2 : Zdigits2 (shr_m mrs1) <= Zdigits2 m2)
    by (apply Zdigits2_mono; lia).
  pose proof (shr_fexp_spec_gen prec emax m2 e1 loc_Exact ltac:(lia))
    as [Hm3 He3].
  destruct (shr_fexp prec emax m2 e1 loc_Exact) as [mrs3 e3];
    simpl in Hm3, He3.
  assert (Hpos3 : 0 < shr_m mrs3).
  { rewrite Hm3. apply shift_positive; [lia|].
    unfold fexp, emin in *. lia. }
  destruct (shr_m mrs3) as [|q|q]; try lia.
  destruct (e3 <=? emax - prec); reflexivity.
Qed.

Lemma binary_round_signed_gen (prec emax : Z) (s : bool) (p : positive) :
  0 < prec -> 2 < emax + prec ->
  F64.signed_number s (binary_round prec emax s p 0).
Proof.
  intros Hprec Hemax. unfold binary_round, shl_align.
  set (ex := fexp prec emax (Z.pos (digits2_pos p) + 0)).
  assert (Hex : emin prec emax <= ex) by (unfold ex, fexp; lia).
  assert (Hmin : emin prec emax < 1) by (unfold emin; lia).
  destruct (ex - 0) as [|d|d] eqn:Hd.
  - apply binary_round_aux_signed_gen; simpl; lia.
  - apply binary_round_aux_signed_gen; simpl; lia.
  - apply binary_round_aux_signed_gen; [lia|lia|].
    change (Zdigits2 (Z.pos (Pos.iter xO p d))) with
      (Z.pos (digits2_pos (Pos.iter xO p d))). lia.
Qed.

(** An integer other than zero is a number other than zero in both
    dtypes. *)
Lemma of_int_signed (d : Np.dtype) (n : Z) :
  n <> 0 -> F64.signed_number (n <? 0) (Np.of_int d n).
Proof.
  intros Hn. destruct n as [|p|p]; [congruence| |];
    apply binary_round_signed_gen; destruct d; cbn; lia.
Qed.

Lemma add_zero_square_as (d : Np.dtype) (x : F64.float) :
  Np.add_as d F64.zero (Np.mul_as d x x) = Np.mul_as d x x.
Proof.
  destruct x as [s|s| |s m e];
    [destruct s; reflexivity|destruct s; reflexivity|reflexivity|].
  unfold Np.mul_as, SFmul.
  replace (xorb s s) with false by (destruct s; reflexivity).
  unfold binary_round_aux.
  destruct (shr_fexp _ _ _ _ _) as [mrs1 e1].
  destruct (shr_fexp _ _ _ _ _) as [mrs2 e2].
  destruct (shr_m mrs2); try reflexivity.
  destruct (e2 <=? _); reflexivity.
Qed.

Lemma fold_left_add_square_as (d : Np.dtype) (l : list F64.float) :
  forall a,
    fold_left (Np.add_as d) (Np.square_as d l) a
    = fold_left (fun acc x => Np.add_as d acc (Np.mul_as d x x)) l a.
Proof.
  induction l as [|x l IH]; intros a; simpl; [reflexivity|apply IH].
Qed.

(** The code computes the root mean square the specification describes,
    in either dtype. *)
Lemma rms_refines_spec_as (d : Np.dtype) (indata : Np.ndarray) :
  Level.rms_as d indata = Level.spec_rms_as d indata.
Proof.
  unfold Level.rms_as, Level.spec_rms_as, Np.mean_as.
  f_equal. f_equal.
  - destruct indata as [|x l]; [reflexivity|].
    unfold Level.spec_sum_of_squares_as, Np.sum_as.
    cbn [Np.square_as map fold_left].
    rewrite add_zero_square_as. apply (fold_left_add_square_as d l).
  - unfold Np.square_as. rewrite length_map. reflexivity.
Qed.

Lemma sum_of_squares_silent_as (d : Np.dtype) (l : list F64.float) :
  Level.all_zero l = true -> Level.spec_sum_of_squares_as d l = F64.zero.
Proof.
  unfold Level.spec_sum_of_squares_as.
  induction l as [|x l IH]; simpl; intros Hz; [reflexivity|].
  apply andb_true_iff in Hz as [Hx Hl].
  destruct x as [s| | |]; try discriminate.
  destruct s; simpl; apply IH; assumption.
Qed.

(** The root mean square of a block of zeros is [0.0]. *)
Lemma rms_silent_as (d : Np.dtype) (indata : Np.ndarray) :
  indata <> [] -> Level.all_zero indata = true ->
  Level.rms_as d indata = F64.zero.
Proof.
  intros Hne Hz. rewrite rms_refines_spec_as. unfold Level.spec_rms_as.
  rewrite sum_of_squares_silent_as by assumption.
  destruct indata as [|x l]; [congruence|].
  pose proof (of_int_signed d (Z.of_nat (List.length (x :: l)))) as Hn.
  destruct (Np.of_int d (Z.of_nat (List.length (x :: l)))) as [s|s| |s m e];
    simpl in Hn.
  - exfalso. apply Hn. simpl. lia.
  - assert (s = false) by (apply Hn; simpl; lia). subst s. reflexivity.
  - exfalso. apply Hn. simpl. lia.
  - assert (s = false) by (apply Hn; simpl; lia). subst s. reflexivity.
Qed.

Lemma add_zero_floor_as (d : Np.dtype) :
  Np.add_as d F64.zero (Level.floor_as d) = Level.floor_as d.
Proof. destruct d; vm_compute; reflexivity. Qed.

(** ** A product that cannot overflow *)

Lemma Zdigits2_upper (a : Z) : 0 <= a -> a < 2 ^ Zdigits2 a.
Proof.
  intros Ha. destruct (Z.eq_dec a 0) as [->|Hne]; [reflexivity|].
  apply Zdigits2_bounds. lia.
Qed.

Lemma Zdigits2_nonneg (a : Z) : 0 <= Zdigits2 a.
Proof. destruct a; simpl; lia. Qed.

Lemma Zdigits2_le (a k : Z) : 0 <= k -> 0 <= a < 2 ^ k -> Zdigits2 a <= k.
Proof.
  intros Hk [Ha Hlt]. destruct (Z.eq_dec a 0) as [->|Hne]; [simpl; lia|].
  pose proof (Zdigits2_bounds a ltac:(lia)) as [Hlo _].
  pose proof (Zdigits2_pos a ltac:(lia)) as Hd.
  destruct (Z.le_gt_cases (Zdigits2 a) k) as [|Hgt]; [assumption|exfalso].
  assert (2 ^ k <= 2 ^ (Zdigits2 a - 1)) by (apply Z.pow_le_mono_r; lia).
  lia.
Qed.

Lemma Zdigits2_mul (a b : Z) :
  0 < a -> 0 < b -> Zdigits2 (a * b) <= Zdigits2 a + Zdigits2 b.
Proof.
  intros Ha Hb.
  pose proof (Zdigits2_upper a ltac:(lia)) as Hua.
  pose proof (Zdigits2_upper b ltac:(lia)) as Hub.
  pose proof (Zdigits2_nonneg a). pose proof (Zdigits2_nonneg b).
  apply Zdigits2_le; [lia|]. split; [nia|].
  rewrite Z.pow_add_r by lia. nia.
Qed.

Lemma Zdigits2_div_pow (a n : Z) :
  0 <= a -> 0 <= n -> Zdigits2 (a / 2 ^ n) <= Z.max 0 (Zdigits2 a - n).
Proof.
  intros Ha Hn.
  pose proof (Zdigits2_upper a Ha) as Hu.
  pose proof (Zdigits2_nonneg a) as Hd.
  assert (H2n : 0 < 2 ^ n) by (apply Z.pow_pos_nonneg; lia).
  destruct (Z.le_gt_cases (Zdigits2 a) n) as [Hle|Hgt].
  - rewrite Z.div_small; [simpl; lia|]. split; [exact Ha|].
    apply Z.lt_le_trans with (2 ^ Zdigits2 a); [exact Hu|].
    apply Z.pow_le_mono_r; lia.
  - rewrite Z.max_r by lia. apply Zdigits2_le; [lia|].
    split; [apply Z.div_pos; lia|].
    apply Z.div_lt_upper_bound; [exact H2n|].
    rewrite <- Z.pow_add_r by lia.
    replace (n + (Zdigits2 a - n)) with (Zdigits2 a) by lia. exact Hu.
Qed.

Lemma Zdigits2_succ (a : Z) : 0 <= a -> Zdigits2 (a + 1) <= Zdigits2 a + 1.
Proof.
  intros Ha. pose proof (Zdigits2_upper a Ha) as Hu.
  pose proof (Zdigits2_nonneg a) as Hd.
  apply Zdigits2_le; [lia|]. split; [lia|].
  rewrite Z.pow_add_r by lia. change (2 ^ 1) with 2. lia.
Qed.

Lemma Zdigits2_mono_nonneg (a b : Z) :
  0 <= a -> a <= b -> Zdigits2 a <= Zdigits2 b.
Proof.
  intros Ha Hab. destruct (Z.eq_dec a 0) as [->|Hne].
  - apply Zdigits2_nonneg.
  - apply Zdigits2_mono; lia.
Qed.

(** A number well below the largest one rounds to a finite number. *)
Lemma binary_round_aux_finite (prec emax : Z) (s : bool) (m e : Z)
      (l : location) :
  0 < prec -> 3 <= 2 * emax -> 0 < m ->
  Zdigits2 m + e <= emax - prec ->
  F64.is_finite (binary_round_aux prec emax s m e l) = true.
Proof.
  intros Hprec Hemax Hm HD. unfold binary_round_aux.
  pose proof (shr_fexp_spec_gen prec emax m e l ltac:(lia)) as [Hm1 He1].
  destruct (shr_fexp prec emax m e l) as [mrs1 e1]; simpl in Hm1, He1.
  pose proof (Zdigits2_pos m Hm) as Hd.
  set (n1 := Z.max 0 (fexp prec emax (Zdigits2 m + e) - e)) in *.
  assert (Hn1 : 0 <= n1) by (unfold n1; lia).
  assert (Hm1pos : 0 <= shr_m mrs1)
    by (rewrite Hm1; apply Z.div_pos; [lia|apply Z.pow_pos_nonneg; lia]).
  assert (Hd1 : Zdigits2 (shr_m mrs1) <= Z.max 0 (Zdigits2 m - n1))
    by (rewrite Hm1; apply Zdigits2_div_pow; lia).
  pose proof (round_nearest_even_bounds (shr_m mrs1) (loc_of_shr_record mrs1))
    as Hrne.
  set (m2 := round_nearest_even (shr_m mrs1) (loc_of_shr_record mrs1)) in *.
  assert (Hd2 : Zdigits2 m2 <= Zdigits2 (shr_m mrs1) + 1).
  { etransitivity; [|apply Zdigits2_succ; exact Hm1pos].
    apply Zdigits2_mono_nonneg; lia. }
  pose proof (shr_fexp_spec_gen prec emax m2 e1 loc_Exact ltac:(lia))
    as [Hm3 He3].
  destruct (shr_fexp prec emax m2 e1 loc_Exact) as [mrs3 e3];
    simpl in Hm3, He3.
  assert (Hm3pos : 0 <= shr_m mrs3)
    by (rewrite Hm3; apply Z.div_pos; [lia|apply Z.pow_pos_nonneg; lia]).
  assert (He1b : e1 <= emax - prec)
    by (rewrite He1; unfold n1, fexp, emin; lia).
  assert (He3b : e3 <= emax - prec).
  { rewrite He3. unfold fexp, emin.
    assert (Zdigits2 m2 + e1 <= emax - prec + 1)
      by (rewrite He1 in *; unfold n1, fexp, emin in *; lia).
    lia. }
  destruct (shr_m mrs3) as [|q|q]; [reflexivity| |lia].
  apply Z.leb_le in He3b. rewrite He3b. reflexivity.
Qed.

(** Twenty times a number of magnitude below [2^10] is a finite number,
    in either dtype. *)
Lemma mul_20_finite (d : Np.dtype) (y : F64.float) :
  Level.magnitude_below 10 y = true ->
  F64.is_finite (Np.mul_as d (Np.of_int d 20) y) = true.
Proof.
  intros Hy.
  assert (H20 : exists m20 e20,
             Np.of_int d 20 = S754_finite false m20 e20
             /\ Zdigits2 (Z.pos m20) + e20 = 5)
    by (destruct d; eexists; eexists; split; vm_compute; reflexivity).
  destruct H20 as (m20 & e20 & -> & H5).
  destruct y as [sy|sy| |sy my ey]; try discriminate.
  - reflexivity.
  - unfold Level.magnitude_below in Hy. apply Z.leb_le in Hy.
    unfold Np.mul_as, SFmul.
    apply binary_round_aux_finite.
    + destruct d; cbn; lia.
    + destruct d; cbn; lia.
    + lia.
    + rewrite Pos2Z.inj_mul.
      pose proof (Zdigits2_mul (Z.pos m20) (Z.pos my) ltac:(lia) ltac:(lia)).
      destruct d; cbn [Np.prec_of Np.emax_of]; lia.
Qed.

Lemma finite_is_not_minus_infinity (x : F64.float) :
  F64.is_finite x = true -> F64.eqb x F64.neg_infinity = false.
Proof. destruct x as [s|s| |s m e]; try discriminate; destruct s; reflexivity. Qed.

(** The level of the other sections is the instance in which the samples
    and the scalars are binary64 numbers and [log10] is [Np.log10]. *)
Lemma level_is_float64_instance (indata : Np.ndarray) :
  Level.level indata
  = Level.level_as Np.Float64 Level.Weak Np.log10 indata.
Proof.
  unfold Level.level, Level.level_as, Level.rms, Level.rms_as, Level.floor.
  cbn [Level.scalar_dtype].
  replace (Level.floor_as Np.Float64) with (F64.decimal 1 1000000)
    by (vm_compute; reflexivity).
  reflexivity.
Qed.

(** C6.  In either dtype numpy can compute it in, and whatever function
    numpy's [log10] is, the level of every block is
    [20 * log10(rms + floor)], where [rms] is the root of the mean of the
    squared samples as the specification words it and [floor] is the
    number of the dtype nearest to [1e-6]; on the two-sample block
    [0.5, -0.5] the rms is [0.5] and the level is [20 * log10(0.5 + floor)].
    For a non-empty block of zero samples (of either sign) the rms is [0.0]
    and the argument of [log10] is the floor itself, a positive number, so
    the level is [20 * log10(floor)], the same for every such block; it is
    finite and is not minus infinity as soon as [log10] of the floor is a
    finite number of magnitude below [2^10], as every logarithm of a float
    is.  The level is a total function: no block raises an error. *)
Theorem level_formula_and_silence :
  forall (array : Np.dtype) (rule : Level.promotion)
         (log10 : F64.float -> F64.float),
    let scalar := Level.scalar_dtype array rule in
    (forall indata,
        Level.level_as array rule log10 indata
        = Level.spec_level_as array rule log10 indata)
    /\ (Level.nearest_in scalar 1 1000000 (Level.floor_as scalar) = true
        /\ Level.is_int 20 (Np.of_int scalar 20) = true)
    /\ (Level.rms_as array Examples.loud = Np.cast array (F64.decimal 1 2)
        /\ Level.level_as array rule log10 Examples.loud
           = Np.mul_as scalar (Np.of_int scalar 20)
               (log10 (Np.add_as scalar (Np.cast array (F64.decimal 1 2))
                                 (Level.floor_as scalar))))
    /\ (forall indata,
           indata <> [] -> Level.all_zero indata = true ->
           Level.rms_as array indata = F64.zero
           /\ Np.add_as scalar (Level.rms_as array indata)
                        (Level.floor_as scalar)
              = Level.floor_as scalar
           /\ Level.level_as array rule log10 indata
              = Np.mul_as scalar (Np.of_int scalar 20)
                          (log10 (Level.floor_as scalar))
           /\ (Level.magnitude_below 10 (log10 (Level.floor_as scalar))
               = true ->
               F64.is_finite (Level.level_as array rule log10 indata) = true
               /\ F64.eqb (Level.level_as array rule log10 indata)
                          F64.neg_infinity = false)).
Proof.
  intros array rule log10 scalar.
  split.
  { intros indata. unfold Level.level_as, Level.spec_level_as.
    rewrite rms_refines_spec_as. reflexivity. }
  split.
  { unfold scalar. destruct array, rule; split; vm_compute; reflexivity. }
  assert (Hloud : Level.rms_as array Examples.loud
                  = Np.cast array (F64.decimal 1 2))
    by (destruct array; vm_compute; reflexivity).
  split.
  { split; [exact Hloud|]. unfold Level.level_as. rewrite Hloud.
    reflexivity. }
  intros indata Hne Hz.
  pose proof (rms_silent_as array indata Hne Hz) as Hrms.
  assert (Hlevel : Level.level_as array rule log10 indata
                   = Np.mul_as scalar (Np.of_int scalar 20)
                               (log10 (Level.floor_as scalar))).
  { unfold Level.level_as. fold scalar.
    rewrite Hrms, add_zero_floor_as. reflexivity. }
  split; [exact Hrms|]. split; [rewrite Hrms; apply add_zero_floor_as|].
  split; [exact Hlevel|].
  intros Hmag. rewrite Hlevel.
  pose proof (mul_20_finite scalar _ Hmag) as Hfin.
  split; [exact Hfin|]. apply finite_is_not_minus_infinity. exact Hfin.
Qed.

(** Witness for C6: a block of two silent samples, computed in float32
    throughout, with a [log10] that rounds the logarithm to float32. *)
Lemma level_of_silence_witness :
  Level.all_zero Examples.silence = true
  /\ Level.magnitude_below 10
       (Np.cast Np.Float32 (Np.log10 (Level.floor_as Np.Float32))) = true
  /\ F64.is_finite
       (Level.level_as Np.Float32 Level.Weak
          (fun x => Np.cast Np.Float32 (Np.log10 x)) Examples.silence)
     = true.
Proof.
  split; [reflexivity|]. split; [vm_compute; reflexivity|].
  destruct (proj2 (proj2 (proj2
              (level_formula_and_silence Np.Float32 Level.Weak
                 (fun x => Np.cast Np.Float32 (Np.log10 x)))))
              Examples.silence)
    as (_ & _ & _ & Hfin); [discriminate|reflexivity|].
  apply Hfin. vm_compute. reflexivity.
Defined.

(** Counterexample to C7: the level of the empty block is a NaN, while the
    level computed from the floor alone is a finite number. *)
Lemma empty_block_level_is_nan :
  Level.level [] = F64.nan
  /\ F64.is_nan (F64.mul (F64.of_Z 20) (Np.log10 Level.floor)) = false
  /\ F64.eqb (Level.level []) (F64.mul (F64.of_Z 20) (Np.log10 Level.floor))
     = false.
Proof. repeat split; vm_compute; reflexivity. Qed.

(** C7, amended.  On an empty block the level computation raises nothing;
    the mean of no samples is [0.0 / 0], a NaN, and so is the level; a NaN
    is above no threshold, so the callback emits nothing. *)
Theorem empty_block_yields_nan_and_no_spike :
  Np.mean (Np.square []) = F64.nan
  /\ Level.level [] = F64.nan
  /\ (forall threshold, Level.is_spike threshold (Level.level []) = false)
  /\ (forall self, Level.cb self [] = []).
Proof.
  assert (Hlevel : Level.level [] = F64.nan) by (vm_compute; reflexivity).
  assert (Hspike : forall threshold,
             Level.is_spike threshold (Level.level []) = false).
  { intros threshold. rewrite Hlevel. unfold Level.is_spike, F64.gtb.
    apply ltb_nan_r. }
  split; [vm_compute; reflexivity|].
  split; [exact Hlevel|]. split; [exact Hspike|].
  intros self. unfold Level.cb. rewrite Hspike.
  destruct (Level.running self); reflexivity.
Qed.

(* ================================================================== *)
(** * The recorder *)
(* ================================================================== *)

Import Recorder.

(** ** The working directory *)

Lemma exists_create (p q : string) (fs : list string) :
  exists_file p (create_file q fs) = (p =? q)%string || exists_file p fs.
Proof.
  unfold create_file. destruct (exists_file q fs) eqn:Hq.
  - destruct (String.eqb_spec p q) as [->|]; [|reflexivity].
    rewrite Hq. reflexivity.
  - unfold exists_file. rewrite existsb_app. cbn.
    rewrite orb_false_r. apply orb_comm.
Qed.

Lemma exists_delete (p q : string) (fs : list string) :
  exists_file p (delete_file q fs) = negb (p =? q)%string && exists_file p fs.
Proof.
  unfold exists_file, delete_file.
  induction fs as [|x fs IH]; cbn; [rewrite andb_false_r; reflexivity|].
  destruct (String.eqb_spec q x) as [->|Hqx]; cbn.
  - rewrite IH. destruct (String.eqb_spec p x); cbn; reflexivity.
  - rewrite IH. destruct (String.eqb_spec p x) as [->|]; cbn.
    + destruct (String.eqb_spec x q); [congruence|reflexivity].
    + reflexivity.
Qed.

(** The four names of a session differ in their first two characters. *)
Lemma names_distinct (ts : string) :
  ((v_tmp_of ts =? a_tmp_of ts) = false
   /\ (a_tmp_of ts =? v_tmp_of ts) = false
   /\ (v_tmp_of ts =? fixed_video_of ts) = false
   /\ (fixed_video_of ts =? v_tmp_of ts) = false
   /\ (a_tmp_of ts =? fixed_video_of ts) = false
   /\ (fixed_video_of ts =? a_tmp_of ts) = false
   /\ (v_tmp_of ts =? final_of ts) = false
   /\ (a_tmp_of ts =? final_of ts) = false
   /\ (fixed_video_of ts =? final_of ts) = false)%string.
Proof. repeat split; reflexivity. Qed.

Lemma last_retime (v : string) (x : F64.float) (f : string) :
  last (retime_argv v x f) "" = f.
Proof. reflexivity. Qed.

Lemma last_mux (v a f : string) : last (mux_argv v a f) "" = f.
Proof. reflexivity. Qed.


(** ** Proof steps for runs of the monad *)

#[local] Arguments F64.div : simpl never.
#[local] Arguments F64.int_quotient : simpl never.
#[local] Arguments F64.of_Z : simpl never.
#[local] Arguments F64.sub : simpl never.
#[local] Arguments F64.add : simpl never.
#[local] Arguments F64.gtb : simpl never.
#[local] Arguments F64.ltb : simpl never.
#[local] Arguments frame_interval : simpl never.
#[local] Arguments needs_correction : simpl never.
#[local] Arguments v_tmp_of : simpl never.
#[local] Arguments a_tmp_of : simpl never.
#[local] Arguments final_of : simpl never.
#[local] Arguments fixed_video_of : simpl never.
#[local] Arguments retime_argv : simpl never.
#[local] Arguments mux_argv : simpl never.
#[local] Arguments create_file : simpl never.
#[local] Arguments delete_file : simpl never.
#[local] Arguments exists_file : simpl never.
#[local] Arguments String.eqb : simpl never.

Ltac unfold_prims :=
  unfold finalize, adjust_fps, actual_fps_of, truediv, sf_write, subprocess_run,
    os_remove, finished_recording_emit, emit_event, touch, ask, raise, pure, bind.

(** Case analysis on the innermost scrutinee of the goal. *)
Ltac split_match :=
  match goal with
  | |- context [match ?x with _ => _ end] =>
      lazymatch x with
      | context [match _ with _ => _ end] => fail
      | _ => first [is_var x; destruct x | destruct x eqn:?]
      end
  end.

Ltac crunch := cbn; repeat (split_match; cbn).

Ltac normalize_log :=
  repeat rewrite <- app_assoc; cbn [app].

Ltac use_names ts :=
  destruct (names_distinct ts) as
    (Hva & Hav & Hvf & Hfv & Haf & Hfa & Hvs & Has & Hfs).

Ltac fs_simpl Hv :=
  repeat (rewrite ?exists_delete, ?exists_create, ?String.eqb_refl, ?Hv;
          repeat match goal with
                 | H : (_ =? _)%string = false |- _ => rewrite H
                 end;
          rewrite ?orb_true_r, ?orb_false_r, ?andb_true_r; cbn).

(** ** The capture loop *)

(** One pass of the loop, in closed form. *)
Lemma iteration_spec (st : loop_state) (env : Env) (s : State) :
  let ret := camera_opens env && camera env (reads s) in
  let next := F64.add (next_frame_t st) frame_interval in
  let sleep_for := F64.sub next (clock env (ticks s)) in
  iteration st env s
  = (mkState (S (ticks s)) (S (reads s)) (runs s) (files s)
             (log s ++ pass_events ret sleep_for),
     Return (mkLoop next
                    (if ret then S (frames_written st) else frames_written st))).
Proof.
  destruct s as [t r n fs lg]. unfold iteration, pass_events.
  unfold cap_read, vw_write, perf_counter, time_sleep, emit_event, ticked,
    pure, bind. cbn.
  destruct (camera_opens env && camera env r); cbn;
    destruct (F64.gtb _ _); cbn; rewrite <- ?app_assoc, ?app_nil_r; reflexivity.
Qed.

Lemma capture_unfold (fuel : nat) (end_t : F64.float) (st : loop_state)
      (env : Env) (s : State) :
  capture (S fuel) end_t st env s
  = if F64.ltb (clock env (ticks s)) end_t
    then bind (iteration st) (capture fuel end_t) env (ticked s)
    else (ticked s, Return st).
Proof.
  cbn [capture]. unfold bind at 1, perf_counter.
  destruct (F64.ltb _ _); reflexivity.
Qed.

Lemma still_capturing_shift (env : Env) (c : nat) (end_t : F64.float)
      (k : nat) : forall a,
  forallb (fun j => F64.ltb (clock env (c + 2 * j)) end_t) (seq (S a) k)
  = forallb (fun j => F64.ltb (clock env (S (S c) + 2 * j)) end_t) (seq a k).
Proof.
  induction k as [|k IH]; intros a; cbn [seq forallb]; [reflexivity|].
  rewrite IH. f_equal. f_equal. f_equal. lia.
Qed.

Lemma still_capturing_S (env : Env) (c : nat) (end_t : F64.float) (k : nat) :
  still_capturing env c end_t (S k)
  = F64.ltb (clock env c) end_t && still_capturing env (S (S c)) end_t k.
Proof.
  unfold still_capturing. cbn [seq forallb].
  rewrite Nat.mul_0_r, Nat.add_0_r. f_equal.
  apply still_capturing_shift.
Qed.

Lemma frames_read_S (env : Env) (r k : nat) :
  frames_read env r (S k)
  = ((if camera_opens env && camera env r then 1 else 0)
     + frames_read env (S r) k)%nat.
Proof.
  unfold frames_read. cbn [seq filter].
  destruct (camera_opens env && camera env r); reflexivity.
Qed.

Lemma deadline_after_S (k : nat) (t : F64.float) :
  deadline_after (S k) t = deadline_after k (F64.add t frame_interval).
Proof. unfold deadline_after. rewrite Nat.iter_succ_r. reflexivity. Qed.

(** The loop leaves at the first test that finds the clock not before
    [end_t], after exactly that many passes. *)
Lemma capture_exits (env : Env) (end_t : F64.float) (k : nat) :
  forall fuel st s,
    (k < fuel)%nat ->
    still_capturing env (ticks s) end_t k = true ->
    F64.ltb (clock env (ticks s + 2 * k)) end_t = false ->
    exists s',
      capture fuel end_t st env s
      = (s', Return (mkLoop (deadline_after k (next_frame_t st))
                            (frames_written st + frames_read env (reads s) k)))
      /\ ticks s' = (ticks s + 2 * k + 1)%nat
      /\ reads s' = (reads s + k)%nat
      /\ runs s' = runs s
      /\ files s' = files s.
Proof.
  induction k as [|k IH]; intros fuel st s Hfuel Hbefore Hexit.
  - destruct fuel as [|fuel]; [lia|]. rewrite capture_unfold.
    rewrite Nat.mul_0_r, Nat.add_0_r in Hexit. rewrite Hexit.
    exists (ticked s). cbn. unfold frames_read. cbn.
    rewrite !Nat.add_0_r. destruct st. repeat split; first [lia | reflexivity].
  - destruct fuel as [|fuel]; [lia|]. rewrite capture_unfold.
    rewrite still_capturing_S in Hbefore.
    apply andb_true_iff in Hbefore as [Hnow Hlater]. rewrite Hnow.
    unfold bind. rewrite iteration_spec. cbn [ticked ticks reads runs files log].
    match goal with
    | |- context [capture fuel end_t ?st1 env ?s1] =>
        destruct (IH fuel st1 s1) as (s' & Heq & Ht & Hr & Hn & Hf)
    end.
    + lia.
    + exact Hlater.
    + cbn [ticks]. rewrite <- Hexit. f_equal. f_equal. lia.
    + exists s'. rewrite Heq. cbn [ticks reads runs files next_frame_t frames_written] in *.
      rewrite deadline_after_S, frames_read_S.
      split; [|repeat split; first [lia | congruence]].
      f_equal. f_equal. f_equal.
      destruct (camera_opens env && camera env (reads s)); lia.
Qed.

(** While every test finds the clock before [end_t], the loop goes on. *)
Lemma capture_goes_on (env : Env) (end_t : F64.float) (fuel : nat) :
  forall st s,
    still_capturing env (ticks s) end_t fuel = true ->
    snd (capture fuel end_t st env s) = OutOfFuel.
Proof.
  induction fuel as [|fuel IH]; intros st s Hbefore; [reflexivity|].
  rewrite capture_unfold. rewrite still_capturing_S in Hbefore.
  apply andb_true_iff in Hbefore as [Hnow Hlater]. rewrite Hnow.
  unfold bind. rewrite iteration_spec.
  match goal with
  | |- context [capture fuel end_t ?st1 env ?s1] =>
      specialize (IH st1 s1 Hlater);
      destruct (capture fuel end_t st1 env s1) as [s2 [a|e|]]
  end; cbn in IH |- *; congruence.
Qed.

(** ** After the loop *)

Lemma actual_fps_of_spec (written : nat) (elapsed : Z) (env : Env) (s : State) :
  actual_fps_of written elapsed env s = (s, Return (measured_fps written elapsed)).
Proof.
  unfold actual_fps_of, measured_fps, truediv, pure.
  destruct (elapsed =? 0); reflexivity.
Qed.

(** The return codes of the external tool are never looked at: whenever the
    files the session removes are there, it ends the way a successful
    session does. *)
Lemma finalize_success (ts : string) (duration : Z) (written : nat)
      (env : Env) (s : State) :
  delivered env <> [] ->
  exists_file (v_tmp_of ts) (files s) = true ->
  (needs_correction (measured_fps written duration) = true ->
   snd (tool env (runs s)) = true) ->
  exists s' evs,
    finalize ts duration written env s = (s', Return (final_of ts))
    /\ log s' = (log s ++ evs)%list
    /\ emitted evs = [final_of ts]
    /\ returncodes evs
       = (if needs_correction (measured_fps written duration)
          then [fst (tool env (runs s)); fst (tool env (S (runs s)))]
          else [fst (tool env (runs s))])
    /\ exists_file (v_tmp_of ts) (files s') = false
    /\ exists_file (a_tmp_of ts) (files s') = false
    /\ (needs_correction (measured_fps written duration) = true ->
        exists_file (fixed_video_of ts) (files s') = false).
Proof.
  intros Ha Hv Hfix. use_names ts.
  destruct s as [t r n fs lg]. cbn [files runs] in Hv, Hfix |- *.
  destruct (delivered env) as [|b bs] eqn:Hdel; [congruence|].
  unfold measured_fps in *.
  unfold_prims. cbn. rewrite Hdel. cbn.
  destruct (duration =? 0) eqn:Hd0; cbn;
  (destruct (needs_correction _) eqn:Hnc; cbn;
   [ specialize (Hfix eq_refl);
     destruct (tool env n) as [rc1 w1]; cbn in Hfix; subst w1; cbn;
     rewrite last_retime; fs_simpl Hv;
     destruct (tool env (S n)) as [rc2 w2]; cbn; rewrite last_mux;
     destruct w2; cbn; fs_simpl Hv;
     normalize_log; do 2 eexists; (split; [reflexivity|]);
     (split; [reflexivity|]); (split; [reflexivity|]);
     (split; [reflexivity|]);
     cbn; fs_simpl Hv; auto
   | destruct (tool env n) as [rc2 w2]; cbn; rewrite last_mux;
     destruct w2; cbn; fs_simpl Hv;
     normalize_log; do 2 eexists; (split; [reflexivity|]);
     (split; [reflexivity|]); (split; [reflexivity|]);
     (split; [reflexivity|]);
     cbn; fs_simpl Hv;
     (split; [reflexivity|]); (split; [reflexivity|]); discriminate ]).
Qed.

(** The external commands of the finalisation, whatever becomes of the
    files. *)
Lemma finalize_calls (ts : string) (duration : Z) (written : nat)
      (env : Env) (s : State) :
  delivered env <> [] ->
  let actual_fps := measured_fps written duration in
  exists evs,
    log (fst (finalize ts duration written env s)) = (log s ++ evs)%list
    /\ (needs_correction actual_fps = true ->
        exists rest,
          subprocess_calls evs
          = retime_argv (v_tmp_of ts) actual_fps (fixed_video_of ts) :: rest
          /\ (rest = [] \/
              rest = [mux_argv (fixed_video_of ts) (a_tmp_of ts) (final_of ts)]))
    /\ (needs_correction actual_fps = false ->
        subprocess_calls evs
        = [mux_argv (v_tmp_of ts) (a_tmp_of ts) (final_of ts)]).
Proof.
  intros Ha actual_fps. subst actual_fps.
  destruct s as [t r n fs lg].
  destruct (delivered env) as [|b bs] eqn:Hdel; [congruence|].
  unfold measured_fps.
  unfold_prims. cbn. rewrite Hdel. cbn.
  destruct (duration =? 0) eqn:Hd0; cbn;
  (destruct (needs_correction _) eqn:Hnc;
   [ crunch; normalize_log; (eexists; split; [reflexivity|]); cbn;
     (split; [intros _|discriminate]); eexists; (split; [reflexivity|]); auto
   | crunch; normalize_log; (eexists; split; [reflexivity|]); cbn;
     (split; [discriminate|intros _]); reflexivity ]).
Qed.

(** Without audio blocks the session stops at line 58, before any external
    command. *)
Lemma finalize_without_audio (ts : string) (duration : Z) (written : nat)
      (env : Env) (s : State) :
  delivered env = [] ->
  snd (finalize ts duration written env s) = Raise ValueError
  /\ exists evs,
       log (fst (finalize ts duration written env s)) = (log s ++ evs)%list
       /\ subprocess_calls evs = [].
Proof.
  intros Hdel. destruct s as [t r n fs lg].
  unfold_prims. cbn. rewrite Hdel. cbn. split; [reflexivity|].
  normalize_log. eexists. split; reflexivity.
Qed.

(** No session ends in a division by zero. *)
Lemma finalize_no_zero_division (ts : string) (duration : Z) (written : nat)
      (env : Env) (s : State) :
  snd (finalize ts duration written env s) <> Raise ZeroDivisionError.
Proof.
  destruct s as [t r n fs lg].
  unfold_prims. cbn.
  destruct (delivered env) as [|b bs]; cbn; [discriminate|].
  destruct (duration =? 0); cbn; crunch; discriminate.
Qed.


(** ** Before the loop *)

Lemma starting_spec (ts : string) (env : Env) (s : State) :
  starting ts env s
  = (mkState (ticks s) (reads s) (runs s)
             (if writer_opens env then create_file (v_tmp_of ts) (files s)
              else files s)
             (log s
              ++ [EvVideoCapture 0; EvCapSet 3 w; EvCapSet 4 h;
                  EvVideoWriter (v_tmp_of ts) fps_target w h]
              ++ (if audio_opens env then [EvStreamStart sr ch] else [])),
     if audio_opens env then Return tt else Raise PortAudioError).
Proof.
  destruct s as [t r n fs lg].
  unfold starting, VideoCapture, VideoWriter, InputStream_start, emit_event,
    touch, ask, raise, pure, bind.
  cbn. destruct (writer_opens env), (audio_opens env); cbn;
    normalize_log; rewrite ?app_nil_r; reflexivity.
Qed.

(** [run] is the start, the loop up to [end_t = start + duration], and the
    finalisation. *)
Lemma run_unfold (duration : Z) (fuel : nat) (env : Env) (s : State) :
  audio_opens env = true ->
  run duration fuel env s
  = bind (capture fuel (F64.add (clock env (ticks s)) (F64.of_Z duration))
                  (mkLoop (clock env (ticks s)) 0))
         (fun st => finalize (timestamp env) duration (frames_written st))
         env (ticked (fst (starting (timestamp env) env s))).
Proof.
  intros Haudio. unfold run. unfold bind at 1, ask. unfold bind at 1.
  rewrite starting_spec, Haudio. cbn [fst]. unfold bind at 1, perf_counter.
  reflexivity.
Qed.

(** Without an audio device [run] ends where the start ends. *)
Lemma run_without_audio (duration : Z) (fuel : nat) (env : Env) (s : State) :
  audio_opens env = false ->
  run duration fuel env s
  = (fst (starting (timestamp env) env s), Raise PortAudioError).
Proof.
  intros Haudio. unfold run. unfold bind at 1, ask. unfold bind at 1.
  rewrite starting_spec, Haudio. reflexivity.
Qed.

(** ** The frame-rate correction *)

Lemma measured_fps_nonzero (written : nat) (duration : Z) :
  duration <> 0 ->
  measured_fps written duration
  = F64.int_quotient (Z.of_nat written) duration.
Proof.
  intros Hd. unfold measured_fps. apply Z.eqb_neq in Hd. rewrite Hd.
  reflexivity.
Qed.


(** ** The text of a rate *)












(** C2.  One pass of the capture loop moves the deadline on by the fixed
    interval [1.0 / 20] whether or not the read delivered a frame, counts
    the frame only when it did (a failed read raises nothing), and sleeps,
    for the time left to the deadline, only when that time is positive.
    The loop stops at the first of its tests that finds the clock not before
    [end_t], after exactly that many passes, and goes on as long as the
    tests find the clock before [end_t]; in [run], [end_t] is the clock
    reading at the start of the session plus the duration. *)
Theorem capture_loop_pacing :
  forall (env : Env) (end_t : F64.float) (st : loop_state) (s : State),
    (let ret := camera_opens env && camera env (reads s) in
     let deadline :=
       F64.add (next_frame_t st) (F64.div (F64.of_Z 1) (F64.of_Z 20)) in
     let sleep_for := F64.sub deadline (clock env (ticks s)) in
     exists s',
       iteration st env s
       = (s', Return (mkLoop deadline
                             (if ret then S (frames_written st)
                              else frames_written st)))
       /\ log s' = (log s ++ pass_events ret sleep_for)%list
       /\ sleeps (pass_events ret sleep_for)
          = if F64.gtb sleep_for (F64.of_Z 0) then [sleep_for] else [])
    /\ (forall fuel k,
           (k < fuel)%nat ->
           still_capturing env (ticks s) end_t k = true ->
           F64.ltb (clock env (ticks s + 2 * k)) end_t = false ->
           exists s',
             capture fuel end_t st env s
             = (s', Return (mkLoop (deadline_after k (next_frame_t st))
                                   (frames_written st
                                    + frames_read env (reads s) k)))
             /\ reads s' = (reads s + k)%nat)
    /\ (forall fuel,
           still_capturing env (ticks s) end_t fuel = true ->
           snd (capture fuel end_t st env s) = OutOfFuel)
    /\ (forall duration fuel,
           audio_opens env = true ->
           run duration fuel env s
           = bind (capture fuel
                           (F64.add (clock env (ticks s)) (F64.of_Z duration))
                           (mkLoop (clock env (ticks s)) 0))
                  (fun st' =>
                     finalize (timestamp env) duration (frames_written st'))
                  env (ticked (fst (starting (timestamp env) env s)))).
Proof.
  intros env end_t st s.
  split; [|split; [|split]].
  - cbv zeta. rewrite iteration_spec. eexists. split; [reflexivity|].
    split; [reflexivity|].
    unfold pass_events.
    destruct (camera_opens env && camera env (reads s));
      destruct (F64.gtb _ _); reflexivity.
  - intros fuel k Hk Hbefore Hexit.
    destruct (capture_exits env end_t k fuel st s Hk Hbefore Hexit)
      as (s' & Heq & _ & Hr & _).
    exists s'. split; assumption.
  - intros fuel. apply capture_goes_on.
  - intros duration fuel. apply run_unfold.
Qed.

(** Witness for C2: a session of one second with a clock that advances
    25 ms per reading ends after twenty passes. *)
Lemma capture_loop_witness :
  still_capturing Examples.env_steady 1
    (F64.add (Examples.clock_every 25 1000 0) (F64.of_Z 1)) 20 = true
  /\ F64.ltb (clock Examples.env_steady 41)
             (F64.add (Examples.clock_every 25 1000 0) (F64.of_Z 1)) = false
  /\ exists s',
       capture 100 (F64.add (Examples.clock_every 25 1000 0) (F64.of_Z 1))
               (mkLoop (Examples.clock_every 25 1000 0) 0)
               Examples.env_steady (mkState 1 0 0 [v_tmp_of Examples.ts] [])
       = (s', Return (mkLoop (deadline_after 20 (Examples.clock_every 25 1000 0))
                             (0 + frames_read Examples.env_steady 0 20)))
       /\ reads s' = (0 + 20)%nat.
Proof.
  assert (Hbefore : still_capturing Examples.env_steady 1
            (F64.add (Examples.clock_every 25 1000 0) (F64.of_Z 1)) 20 = true)
    by (vm_compute; reflexivity).
  assert (Hexit : F64.ltb (clock Examples.env_steady 41)
            (F64.add (Examples.clock_every 25 1000 0) (F64.of_Z 1)) = false)
    by (vm_compute; reflexivity).
  split; [exact Hbefore|]. split; [exact Hexit|].
  exact (proj1 (proj2 (capture_loop_pacing Examples.env_steady
                         (F64.add (Examples.clock_every 25 1000 0) (F64.of_Z 1))
                         (mkLoop (Examples.clock_every 25 1000 0) 0)
                         (mkState 1 0 0 [v_tmp_of Examples.ts] [])))
               100%nat 20%nat ltac:(lia) Hbefore Hexit).
Defined.

(** ** Failures of the external tool *)

(** Counterexample to C3: a muxer that exits with status 1, and a retiming
    run that exits with status 1, each leave a session that returns its
    final path and emits [finished_recording], with the raw video and the
    audio temp files deleted. *)
Lemma tool_failure_takes_success_path :
  (snd (run 1 100 Examples.env_mux_fails (initial []))
   = Return (final_of Examples.ts)
   /\ returncodes (log (fst (run 1 100 Examples.env_mux_fails (initial []))))
      = [1]
   /\ emitted (log (fst (run 1 100 Examples.env_mux_fails (initial []))))
      = [final_of Examples.ts]
   /\ exists_file (v_tmp_of Examples.ts)
        (files (fst (run 1 100 Examples.env_mux_fails (initial [])))) = false
   /\ exists_file (a_tmp_of Examples.ts)
        (files (fst (run 1 100 Examples.env_mux_fails (initial [])))) = false)
  /\ (snd (run 1 100 Examples.env_retime_fails (initial []))
      = Return (final_of Examples.ts)
      /\ returncodes
           (log (fst (run 1 100 Examples.env_retime_fails (initial []))))
         = [1; 0]
      /\ In (EvRemove (v_tmp_of Examples.ts))
            (log (fst (run 1 100 Examples.env_retime_fails (initial []))))
      /\ In (EvRemove (a_tmp_of Examples.ts))
            (log (fst (run 1 100 Examples.env_retime_fails (initial [])))))
  /\ App.rec_active
       (App.on_done (final_of Examples.ts)
          (fst (App.on_spike App.init))) = false.
Proof.
  split; [|split].
  - repeat split; vm_compute; reflexivity.
  - split; [vm_compute; reflexivity|]. split; [vm_compute; reflexivity|].
    split; vm_compute; tauto.
  - reflexivity.
Qed.

(** C3, amended.  The return codes of the retiming and the muxing run are
    not looked at.  Whatever they are, a session that recorded audio, whose
    raw video file exists and whose retiming run (if there is one) wrote its
    output goes the way of a successful session: it returns the final path,
    emits [finished_recording] once, and has deleted the raw video, the
    retimed video and the audio temp file; [on_done] then clears
    [rec_active] and a later spike starts a new session. *)
Theorem tool_return_codes_are_ignored :
  forall (ts : string) (duration : Z) (written : nat) (env : Env) (s : State)
         (a : App.SleepMonitorApp),
    delivered env <> [] ->
    exists_file (v_tmp_of ts) (files s) = true ->
    (needs_correction (measured_fps written duration) = true ->
     snd (tool env (runs s)) = true) ->
    exists s' evs,
      finalize ts duration written env s = (s', Return (final_of ts))
      /\ log s' = (log s ++ evs)%list
      /\ emitted evs = [final_of ts]
      /\ returncodes evs
         = (if needs_correction (measured_fps written duration)
            then [fst (tool env (runs s)); fst (tool env (S (runs s)))]
            else [fst (tool env (runs s))])
      /\ exists_file (v_tmp_of ts) (files s') = false
      /\ exists_file (a_tmp_of ts) (files s') = false
      /\ (needs_correction (measured_fps written duration) = true ->
          exists_file (fixed_video_of ts) (files s') = false)
      /\ App.handle (App.SessionEnds (Return (final_of ts))) (App.mkSystem a 1)
         = Some (App.mkSystem (App.on_done (final_of ts) a) 0)
      /\ App.rec_active (App.on_done (final_of ts) a) = false
      /\ snd (App.on_spike (App.on_done (final_of ts) a))
         = [App.StartRecorder (App.dur_box a)].
Proof.
  intros ts duration written env s a Ha Hv Hfix.
  destruct (finalize_success ts duration written env s Ha Hv Hfix)
    as (s' & evs & Hrun & Hlog & Hemit & Hrc & Hnv & Hna & Hnf).
  exists s', evs. repeat (split; [assumption|]).
  repeat split.
Qed.

(** Witness for C3, amended: the muxer exits with status 1. *)
Lemma tool_return_codes_witness :
  delivered Examples.env_mux_fails <> []
  /\ exists_file (v_tmp_of Examples.ts) (files Examples.after_capture) = true
  /\ needs_correction (measured_fps 20 1) = false
  /\ fst (tool Examples.env_mux_fails 0) = 1
  /\ exists s' evs,
       finalize Examples.ts 1 20 Examples.env_mux_fails Examples.after_capture
       = (s', Return (final_of Examples.ts))
       /\ log s' = (log Examples.after_capture ++ evs)%list
       /\ emitted evs = [final_of Examples.ts].
Proof.
  assert (Ha : delivered Examples.env_mux_fails <> []) by discriminate.
  assert (Hv : exists_file (v_tmp_of Examples.ts)
                 (files Examples.after_capture) = true) by reflexivity.
  assert (Hnc : needs_correction (measured_fps 20 1) = false)
    by (vm_compute; reflexivity).
  split; [exact Ha|]. split; [exact Hv|]. split; [exact Hnc|].
  split; [reflexivity|].
  destruct (tool_return_codes_are_ignored Examples.ts 1 20
              Examples.env_mux_fails Examples.after_capture App.init Ha Hv)
    as (s' & evs & Hrun & Hlog & Hemit & _).
  - rewrite Hnc. discriminate.
  - exists s', evs. repeat split; assumption.
Defined.

(** ** A session of zero duration *)

(** C10.  With a nominal duration of zero the division of line 61 is not
    evaluated: [actual_fps] is the target rate 20, which needs no
    correction; the session does not end in [ZeroDivisionError] (which the
    unguarded division would raise), and the only external command it can
    reach is the muxer on the raw video file. *)
Theorem zero_duration_is_guarded :
  forall (ts : string) (written : nat) (env : Env) (s : State),
    actual_fps_of written 0 env s = (s, Return (F64.of_Z 20))
    /\ needs_correction (F64.of_Z 20) = false
    /\ truediv (Z.of_nat written) 0 env s = (s, Raise ZeroDivisionError)
    /\ snd (finalize ts 0 written env s) <> Raise ZeroDivisionError
    /\ exists evs,
         log (fst (finalize ts 0 written env s)) = (log s ++ evs)%list
         /\ (subprocess_calls evs = []
             \/ subprocess_calls evs
                = [mux_argv (v_tmp_of ts) (a_tmp_of ts) (final_of ts)]).
Proof.
  intros ts written env s.
  assert (Hnc : needs_correction (F64.of_Z 20) = false)
    by (vm_compute; reflexivity).
  split; [reflexivity|]. split; [exact Hnc|]. split; [reflexivity|].
  split; [apply finalize_no_zero_division|].
  destruct (delivered env) as [|b bs] eqn:Hdel.
  - destruct (finalize_without_audio ts 0 written env s Hdel)
      as (_ & evs & Hlog & Hcalls).
    exists evs. split; [exact Hlog|]. left. exact Hcalls.
  - destruct (finalize_calls ts 0 written env s) as (evs & Hlog & _ & Hno);
      [rewrite Hdel; discriminate|].
    exists evs. split; [exact Hlog|]. right. apply Hno. exact Hnc.
Qed.

(** ** Devices that cannot be opened *)

Lemma frames_read_closed (env : Env) (k : nat) : forall r,
  camera_opens env = false -> frames_read env r k = 0%nat.
Proof.
  unfold frames_read. intros r Hcam. rewrite Hcam.
  induction (seq r k) as [|j l IH]; [reflexivity|exact IH].
Qed.

(** No frame in a positive duration is the rate [0.0]. *)
Lemma measured_fps_no_frames (duration : Z) :
  0 < duration -> measured_fps 0 duration = F64.zero.
Proof.
  intros Hd. rewrite measured_fps_nonzero by lia.
  destruct duration as [|p|p]; try lia. reflexivity.
Qed.

(** Counterexample to C8: with a camera that cannot be opened the start of
    the session raises nothing and creates the raw video file; the loop
    makes its twenty passes, and the session runs to its end.  With an audio
    device that cannot be opened the session stops at the start, after the
    raw video file was created. *)
Lemma unopened_camera_creates_files_and_runs :
  (snd (starting Examples.ts Examples.env_no_camera (initial [])) = Return tt
   /\ files (fst (starting Examples.ts Examples.env_no_camera (initial [])))
      = [v_tmp_of Examples.ts]
   /\ reads (fst (run 1 100 Examples.env_no_camera (initial []))) = 20%nat
   /\ In (EvSfWrite (a_tmp_of Examples.ts) 1 sr)
         (log (fst (run 1 100 Examples.env_no_camera (initial []))))
   /\ snd (run 1 100 Examples.env_no_camera (initial []))
      = Return (final_of Examples.ts))
  /\ (snd (run 1 100 Examples.env_no_audio (initial [])) = Raise PortAudioError
      /\ files (fst (run 1 100 Examples.env_no_audio (initial [])))
         = [v_tmp_of Examples.ts]).
Proof.
  split.
  - split; [reflexivity|]. split; [reflexivity|].
    split; [vm_compute; reflexivity|].
    split; [vm_compute; tauto|vm_compute; reflexivity].
  - split; vm_compute; reflexivity.
Qed.

(** A retiming run that leaves no output file: the muxer runs on the
    missing file and the removal of that file raises. *)
Lemma finalize_missing_retimed (ts : string) (duration : Z) (written : nat)
      (env : Env) (s : State) :
  delivered env <> [] ->
  exists_file (v_tmp_of ts) (files s) = true ->
  exists_file (fixed_video_of ts) (files s) = false ->
  needs_correction (measured_fps written duration) = true ->
  snd (tool env (runs s)) = false ->
  exists s' evs,
    finalize ts duration written env s
    = (s', Raise (FileNotFoundError (fixed_video_of ts)))
    /\ log s' = (log s ++ evs)%list
    /\ emitted evs = [].
Proof.
  intros Ha Hv Hnofix Hnc Hw. use_names ts.
  destruct s as [t r n fs lg]. cbn [files runs] in Hv, Hnofix, Hw |- *.
  destruct (delivered env) as [|b bs] eqn:Hdel; [congruence|].
  unfold measured_fps in *.
  unfold_prims. cbn. rewrite Hdel. cbn.
  destruct (duration =? 0) eqn:Hd0; cbn; rewrite Hnc; cbn;
    (destruct (tool env n) as [rc1 w1]; cbn in Hw; subst w1; cbn;
     fs_simpl Hv;
     destruct (tool env (S n)) as [rc2 w2]; cbn; rewrite last_mux;
     destruct w2; cbn; fs_simpl Hv; rewrite ?Hnofix; cbn;
     normalize_log; do 2 eexists; (split; [reflexivity|]);
     split; reflexivity).
Qed.

(** C8, amended.  A camera that cannot be opened does not stop the session
    at its start.  With a video writer and an audio stream that open and a
    positive duration: the start raises nothing and the video writer has
    created the raw video file; every read of the loop fails, so no frame is
    counted, and the loop still runs until the clock reaches [end_t]; the
    session then goes on to its finalisation with zero frames.  There, a
    session without an audio block ends in [ValueError] before any command
    is run; a session with audio computes the rate [0.0] and runs the
    retiming command with "0.0000" first, and then ends by returning and
    emitting [finished_recording] when the retiming run wrote its output,
    and in [FileNotFoundError] when it wrote none.  An audio device that
    cannot be opened stops the session at the start, with the raw video
    file already created. *)
Theorem unopened_device_does_not_prevent_files :
  (forall (env : Env) (s : State) (duration : Z) (fuel k : nat),
      camera_opens env = false ->
      writer_opens env = true ->
      audio_opens env = true ->
      0 < duration ->
      (k < fuel)%nat ->
      still_capturing env (S (ticks s))
        (F64.add (clock env (ticks s)) (F64.of_Z duration)) k = true ->
      F64.ltb (clock env (S (ticks s) + 2 * k))
              (F64.add (clock env (ticks s)) (F64.of_Z duration)) = false ->
      exists s1 s2 s' evs,
        starting (timestamp env) env s = (s1, Return tt)
        /\ exists_file (v_tmp_of (timestamp env)) (files s1) = true
        /\ capture fuel (F64.add (clock env (ticks s)) (F64.of_Z duration))
                   (mkLoop (clock env (ticks s)) 0) env (ticked s1)
           = (s2, Return (mkLoop (deadline_after k (clock env (ticks s))) 0))
        /\ reads s2 = (reads s + k)%nat
        /\ files s2 = files s1
        /\ run duration fuel env s = finalize (timestamp env) duration 0 env s2
        /\ fst (run duration fuel env s) = s'
        /\ log s' = (log s2 ++ evs)%list
        /\ (delivered env = [] ->
            snd (run duration fuel env s) = Raise ValueError
            /\ subprocess_calls evs = [])
        /\ (delivered env <> [] ->
            actual_fps_of 0 duration env s2 = (s2, Return F64.zero)
            /\ needs_correction F64.zero = true
            /\ hd_error (subprocess_calls evs)
               = Some (retime_argv (v_tmp_of (timestamp env)) F64.zero
                                   (fixed_video_of (timestamp env)))
            /\ nth 5 (retime_argv (v_tmp_of (timestamp env)) F64.zero
                                  (fixed_video_of (timestamp env))) ""
               = "0.0000"
            /\ (snd (tool env (runs s)) = true ->
                snd (run duration fuel env s)
                = Return (final_of (timestamp env))
                /\ emitted evs = [final_of (timestamp env)])
            /\ (snd (tool env (runs s)) = false ->
                exists_file (fixed_video_of (timestamp env)) (files s)
                = false ->
                snd (run duration fuel env s)
                = Raise (FileNotFoundError (fixed_video_of (timestamp env)))
                /\ emitted evs = [])))
  /\ (forall (env : Env) (s : State) (duration : Z) (fuel : nat),
         audio_opens env = false ->
         writer_opens env = true ->
         snd (run duration fuel env s) = Raise PortAudioError
         /\ exists_file (v_tmp_of (timestamp env))
              (files (fst (run duration fuel env s))) = true).
Proof.
  split.
  - intros env s duration fuel k Hcam Hwriter Haudio Hd Hk Hbefore Hexit.
    use_names (timestamp env).
    pose proof (starting_spec (timestamp env) env s) as Hstart.
    rewrite Hwriter, Haudio in Hstart.
    set (s1 := fst (starting (timestamp env) env s)).
    assert (Hs1 : starting (timestamp env) env s = (s1, Return tt))
      by (unfold s1; rewrite Hstart; reflexivity).
    assert (Hticks : ticks (ticked s1) = S (ticks s))
      by (unfold s1; rewrite Hstart; reflexivity).
    assert (Hreads : reads (ticked s1) = reads s)
      by (unfold s1; rewrite Hstart; reflexivity).
    assert (Hruns : runs (ticked s1) = runs s)
      by (unfold s1; rewrite Hstart; reflexivity).
    assert (Hfiles1 : files (ticked s1)
                      = create_file (v_tmp_of (timestamp env)) (files s))
      by (unfold s1; rewrite Hstart; reflexivity).
    destruct (capture_exits env
                (F64.add (clock env (ticks s)) (F64.of_Z duration)) k fuel
                (mkLoop (clock env (ticks s)) 0) (ticked s1) Hk)
      as (s2 & Hloop & _ & Hr & Hn & Hf).
    { rewrite Hticks. exact Hbefore. }
    { rewrite Hticks. exact Hexit. }
    rewrite frames_read_closed in Hloop by assumption.
    cbn [next_frame_t frames_written Nat.add] in Hloop.
    assert (Hrun : run duration fuel env s
                   = finalize (timestamp env) duration 0 env s2).
    { rewrite run_unfold by assumption. fold s1. unfold bind at 1.
      rewrite Hloop. reflexivity. }
    assert (Hv2 : exists_file (v_tmp_of (timestamp env)) (files s2) = true).
    { rewrite Hf, Hfiles1, exists_create, String.eqb_refl. reflexivity. }
    assert (Hfps : measured_fps 0 duration = F64.zero)
      by (apply measured_fps_no_frames; assumption).
    assert (Hnc : needs_correction F64.zero = true)
      by (vm_compute; reflexivity).
    assert (Hevs : exists evs,
               log (fst (finalize (timestamp env) duration 0 env s2))
               = (log s2 ++ evs)%list
               /\ (delivered env = [] -> subprocess_calls evs = [])
               /\ (delivered env <> [] ->
                   hd_error (subprocess_calls evs)
                   = Some (retime_argv (v_tmp_of (timestamp env)) F64.zero
                             (fixed_video_of (timestamp env))))).
    { destruct (delivered env) as [|b bs] eqn:Hdel.
      - destruct (finalize_without_audio (timestamp env) duration 0 env s2
                    Hdel) as (_ & evs & Hlog & Hcalls).
        exists evs. split; [exact Hlog|]. split; [auto|congruence].
      - destruct (finalize_calls (timestamp env) duration 0 env s2)
          as (evs & Hlog & Hyes & _); [rewrite Hdel; discriminate|].
        exists evs. split; [exact Hlog|]. split; [discriminate|].
        intros _. rewrite Hfps in Hyes.
        destruct (Hyes Hnc) as (rest & Hcalls & _). rewrite Hcalls.
        reflexivity. }
    destruct Hevs as (evs & Hlog & Hnone & Hsome).
    exists s1, s2, (fst (run duration fuel env s)), evs.
    split; [exact Hs1|].
    split.
    { unfold s1. rewrite Hstart. cbn [fst files]. rewrite exists_create.
      rewrite String.eqb_refl. reflexivity. }
    split; [exact Hloop|]. split; [rewrite Hr, Hreads; reflexivity|].
    split; [exact Hf|]. split; [exact Hrun|]. split; [reflexivity|].
    split; [rewrite Hrun; exact Hlog|].
    split.
    { intros Hdel. split; [|exact (Hnone Hdel)].
      rewrite Hrun.
      exact (proj1 (finalize_without_audio (timestamp env) duration 0 env s2
                      Hdel)). }
    intros Hdel.
    split.
    { rewrite actual_fps_of_spec, Hfps. reflexivity. }
    split; [exact Hnc|]. split; [exact (Hsome Hdel)|].
    split; [reflexivity|].
    split.
    + intros Hw.
      destruct (finalize_success (timestamp env) duration 0 env s2 Hdel Hv2)
        as (s' & evs' & Hfin & Hlog' & Hem & _).
      { intros _. rewrite Hn, Hruns. exact Hw. }
      rewrite Hrun, Hfin. split; [reflexivity|].
      rewrite Hfin in Hlog. cbn [fst] in Hlog. rewrite Hlog' in Hlog.
      apply app_inv_head in Hlog. subst evs'. exact Hem.
    + intros Hw Hnofix.
      destruct (finalize_missing_retimed (timestamp env) duration 0 env s2
                  Hdel Hv2)
        as (s' & evs' & Hfin & Hlog' & Hem).
      { rewrite Hf, Hfiles1, exists_create, Hfv. exact Hnofix. }
      { rewrite Hfps. exact Hnc. }
      { rewrite Hn, Hruns. exact Hw. }
      rewrite Hrun, Hfin. split; [reflexivity|].
      rewrite Hfin in Hlog. cbn [fst] in Hlog. rewrite Hlog' in Hlog.
      apply app_inv_head in Hlog. subst evs'. exact Hem.
  - intros env s duration fuel Haudio Hwriter.
    rewrite (run_without_audio duration fuel env s Haudio).
    rewrite starting_spec, Hwriter. cbn [snd fst files].
    split; [reflexivity|].
    rewrite exists_create, String.eqb_refl. reflexivity.
Qed.

(** Witness for C8, amended: one second with an unopened camera, an audio
    block and a retiming run that writes its output. *)
Lemma unopened_camera_witness :
  camera_opens Examples.env_no_camera = false
  /\ still_capturing Examples.env_no_camera 1
       (F64.add (clock Examples.env_no_camera 0) (F64.of_Z 1)) 20 = true
  /\ F64.ltb (clock Examples.env_no_camera 41)
             (F64.add (clock Examples.env_no_camera 0) (F64.of_Z 1)) = false
  /\ exists s2,
       run 1 100 Examples.env_no_camera (initial [])
       = finalize Examples.ts 1 0 Examples.env_no_camera s2
       /\ reads s2 = 20%nat
       /\ snd (run 1 100 Examples.env_no_camera (initial []))
          = Return (final_of Examples.ts).
Proof.
  assert (Hbefore : still_capturing Examples.env_no_camera 1
            (F64.add (clock Examples.env_no_camera 0) (F64.of_Z 1)) 20 = true)
    by (vm_compute; reflexivity).
  assert (Hexit : F64.ltb (clock Examples.env_no_camera 41)
            (F64.add (clock Examples.env_no_camera 0) (F64.of_Z 1)) = false)
    by (vm_compute; reflexivity).
  split; [reflexivity|]. split; [exact Hbefore|]. split; [exact Hexit|].
  destruct (proj1 unopened_device_does_not_prevent_files
              Examples.env_no_camera (initial []) 1 100%nat 20%nat
              eq_refl eq_refl eq_refl ltac:(lia) ltac:(lia) Hbefore Hexit)
    as (s1 & s2 & s' & evs & _ & _ & _ & Hr & _ & Hrun & _ & _ & _ & Hsome).
  exists s2. split; [exact Hrun|]. split; [exact Hr|].
  destruct (Hsome ltac:(discriminate)) as (_ & _ & _ & _ & Hok & _).
  exact (proj1 (Hok eq_refl)).
Defined.

(* ================================================================== *)
(** * The recording gate of the application *)
(* ================================================================== *)

Lemma on_spike_idle (a : App.SleepMonitorApp) :
  App.rec_active a = false ->
  exists a', App.on_spike a = (a', [App.StartRecorder (App.dur_box a)])
             /\ App.rec_active a' = true.
Proof. intros H. unfold App.on_spike. rewrite H. eexists; split; reflexivity. Qed.

Lemma on_spike_busy (a : App.SleepMonitorApp) :
  App.rec_active a = true -> App.on_spike a = (a, []).
Proof. intros H. unfold App.on_spike. rewrite H. reflexivity. Qed.

Lemma gate_invariant_step (i : App.input) (s s' : App.system) :
  App.gate_invariant s -> App.handle i s = Some s' -> App.gate_invariant s'.
Proof.
  intros (Hle & Hon & Hoff) Hstep. unfold App.gate_invariant.
  destruct s as [a n]. cbn [App.app App.sessions] in *.
  destruct i; cbn in Hstep.
  - inversion Hstep; subst; cbn. auto.
  - inversion Hstep; subst; clear Hstep.
    unfold App.stop_mon, App.stop_mon_finish, App.stop_mon_request.
    cbn. destruct (App.mon a); cbn; auto.
  - inversion Hstep; subst; cbn. auto.
  - inversion Hstep; subst; cbn. auto.
  - unfold App.on_spike in Hstep. destruct (App.rec_active a) eqn:Hact.
    + inversion Hstep; subst; cbn. rewrite Nat.add_0_r. rewrite Hact. auto.
    + inversion Hstep; subst; cbn. specialize (Hoff eq_refl). subst n.
      repeat split; auto; discriminate.
  - destruct n as [|n]; [discriminate|].
    assert (n = 0)%nat by lia. subst n.
    destruct result; inversion Hstep; subst; cbn; repeat split; auto; lia.
Qed.


Lemma gate_invariant_boot : App.gate_invariant App.boot.
Proof.
  unfold App.gate_invariant. cbn. repeat split; try lia; try discriminate.
Qed.

Lemma gate_invariant_reachable (inputs : list App.input) :
  forall s s',
    App.gate_invariant s -> App.handle_all inputs s = Some s' ->
    App.gate_invariant s'.
Proof.
  induction inputs as [|i inputs IH]; intros s s' Hinv Hrun; cbn in Hrun.
  - inversion Hrun; subst. exact Hinv.
  - destruct (App.handle i s) as [s1|] eqn:Hstep; [|discriminate].
    apply (IH s1 s'); [|exact Hrun].
    exact (gate_invariant_step i s s1 Hinv Hstep).
Qed.

(** Only the end of a session that returned clears the flag. *)
Lemma rec_active_cleared_by_on_done (i : App.input) (s s' : App.system) :
  App.handle i s = Some s' ->
  App.rec_active (App.app s) = true ->
  App.rec_active (App.app s') = false ->
  exists f, i = App.SessionEnds (Return f).
Proof.
  intros Hstep Hon Hoff. destruct s as [a n]. cbn [App.app] in *.
  destruct i; cbn in Hstep.
  - inversion Hstep; subst; cbn in Hoff. congruence.
  - inversion Hstep; subst; clear Hstep.
    unfold App.stop_mon, App.stop_mon_finish, App.stop_mon_request in Hoff.
    cbn in Hoff. destruct (App.mon a); cbn in Hoff; congruence.
  - inversion Hstep; subst; cbn in Hoff. congruence.
  - inversion Hstep; subst; cbn in Hoff. congruence.
  - unfold App.on_spike in Hstep. rewrite Hon in Hstep.
    inversion Hstep; subst; cbn in Hoff. congruence.
  - destruct n as [|n]; [discriminate|].
    destruct result as [f| |]; inversion Hstep; subst; cbn in Hoff;
      [exists f; reflexivity|congruence|congruence].
Qed.

(** While every session returns, the flag is set exactly while a
    recorder thread is alive. *)
Lemma gate_exact_step (i : App.input) (s s' : App.system) :
  App.gate_exact s -> App.ends_without_signal i = false ->
  App.handle i s = Some s' -> App.gate_exact s'.
Proof.
  intros (Hle & Hiff) Hi Hstep. unfold App.gate_exact.
  destruct s as [a n]. cbn [App.app App.sessions] in *.
  destruct i; cbn in Hstep.
  - inversion Hstep; subst; cbn. auto.
  - inversion Hstep; subst; clear Hstep.
    unfold App.stop_mon, App.stop_mon_finish, App.stop_mon_request.
    cbn. destruct (App.mon a); cbn; auto.
  - inversion Hstep; subst; cbn. auto.
  - inversion Hstep; subst; cbn. auto.
  - unfold App.on_spike in Hstep. destruct (App.rec_active a) eqn:Hact.
    + inversion Hstep; subst; cbn. rewrite Nat.add_0_r, Hact. auto.
    + inversion Hstep; subst; cbn.
      assert (n <> 1)%nat by (intros H1; apply Hiff in H1; discriminate).
      split; [lia|]. split; [lia|reflexivity].
  - destruct n as [|n]; [discriminate|].
    assert (n = 0)%nat by lia. subst n.
    destruct result; try discriminate.
    inversion Hstep; subst; cbn. split; [lia|].
    split; [discriminate|lia].
Qed.

Lemma gate_exact_boot : App.gate_exact App.boot.
Proof.
  unfold App.gate_exact. cbn. split; [lia|]. split; [discriminate|lia].
Qed.

Lemma gate_exact_reachable (inputs : list App.input) :
  forall s s',
    App.gate_exact s -> App.all_sessions_returned inputs = true ->
    App.handle_all inputs s = Some s' -> App.gate_exact s'.
Proof.
  unfold App.all_sessions_returned.
  induction inputs as [|i inputs IH]; intros s s' Hinv Hall Hrun;
    cbn in Hrun.
  - inversion Hrun; subst. exact Hinv.
  - cbn [forallb] in Hall. apply andb_true_iff in Hall as [Hi Hrest].
    apply negb_true_iff in Hi.
    destruct (App.handle i s) as [s1|] eqn:Hstep; [|discriminate].
    exact (IH s1 s' (gate_exact_step i s s1 Hinv Hi Hstep) Hrest Hrun).
Qed.

(** Counterexample to C9: a spike starts a session, the session ends in an
    exception; no recorder thread is left and [rec_active] is still set,
    so the next spike starts nothing. *)
Lemma raised_session_leaves_rec_active_set :
  App.handle_all [App.Spike; App.SessionEnds (Raise ValueError)] App.boot
  = Some (App.mkSystem
            (App.mkApp "Status: Recording…" (-30) 10 None (Some 10) true) 0)
  /\ App.sessions
       (App.mkSystem
          (App.mkApp "Status: Recording…" (-30) 10 None (Some 10) true) 0)
     = 0%nat
  /\ App.rec_active
       (App.mkApp "Status: Recording…" (-30) 10 None (Some 10) true)
     = true
  /\ App.all_commands
       [App.Spike; App.SessionEnds (Raise ValueError); App.Spike] App.boot
     = [App.StartRecorder 10].
Proof. repeat split. Qed.

(** C9, amended.  [rec_active] is the gate of a single recording: it is
    false in the initial application; a spike that finds it false sets it
    and starts one recorder thread with the duration of the spin box; a
    spike that finds it set starts nothing and leaves the application as it
    is; in every reachable state there is at most one recorder thread and
    the flag is set while there is one.  The flag is cleared by [on_done]
    and by nothing else, that is when a session ends by emitting
    [finished_recording]: as long as every session ends that way the flag
    is set exactly while a session is alive, false before and after; a
    session that ends in an exception leaves the application as it is,
    with the flag set and no session alive. *)
Theorem rec_active_is_a_single_recording_gate :
  App.rec_active App.init = false
  /\ (forall a,
         App.rec_active a = false ->
         exists a',
           App.on_spike a = (a', [App.StartRecorder (App.dur_box a)])
           /\ App.rec_active a' = true)
  /\ (forall a, App.rec_active a = true -> App.on_spike a = (a, []))
  /\ (forall f a, App.rec_active (App.on_done f a) = false)
  /\ (forall inputs s,
         App.handle_all inputs App.boot = Some s ->
         (App.sessions s <= 1)%nat
         /\ (App.sessions s = 1%nat -> App.rec_active (App.app s) = true)
         /\ (App.rec_active (App.app s) = false -> App.sessions s = 0%nat))
  /\ (forall i s s',
         App.handle i s = Some s' ->
         App.rec_active (App.app s) = true ->
         App.rec_active (App.app s') = false ->
         exists f, i = App.SessionEnds (Return f))
  /\ (forall inputs s,
         App.all_sessions_returned inputs = true ->
         App.handle_all inputs App.boot = Some s ->
         (App.rec_active (App.app s) = true <-> App.sessions s = 1%nat)
         /\ (App.rec_active (App.app s) = false <-> App.sessions s = 0%nat))
  /\ (forall inputs s s' e,
         App.handle_all inputs App.boot = Some s ->
         App.handle (App.SessionEnds (Raise e)) s = Some s' ->
         App.app s' = App.app s
         /\ App.rec_active (App.app s') = true
         /\ App.sessions s' = 0%nat).
Proof.
  split; [reflexivity|]. split; [exact on_spike_idle|].
  split; [exact on_spike_busy|]. split; [reflexivity|].
  split; [|split; [exact rec_active_cleared_by_on_done|split]].
  - intros inputs s Hrun.
    exact (gate_invariant_reachable inputs App.boot s gate_invariant_boot Hrun).
  - intros inputs s Hall Hrun.
    destruct (gate_exact_reachable inputs App.boot s gate_exact_boot Hall Hrun)
      as [Hle Hiff].
    split; [exact Hiff|].
    destruct (App.rec_active (App.app s)).
    + split; [discriminate|]. intros H0. destruct Hiff as [H1 _].
      specialize (H1 eq_refl). lia.
    + split; [|reflexivity]. intros _.
      destruct (App.sessions s) as [|[|n]]; [reflexivity| |lia].
      destruct Hiff as [_ H1]. specialize (H1 eq_refl). discriminate.
  - intros inputs s s' e Hrun Hend.
    destruct (gate_invariant_reachable inputs App.boot s gate_invariant_boot
                Hrun) as (Hle & Hon & _).
    destruct s as [a n]. cbn [App.app App.sessions] in *. cbn in Hend.
    destruct n as [|n]; [discriminate|].
    assert (n = 0)%nat by lia. subst n.
    inversion Hend; subst; cbn. repeat split. apply Hon. reflexivity.
Qed.

(** Witness for C9, amended: two spikes, the end of the session, a third
    spike. *)
Lemma rec_active_gate_witness :
  App.all_sessions_returned
    [App.Spike; App.Spike; App.SessionEnds (Return "sleep_1.mp4"); App.Spike]
  = true
  /\ App.handle_all
       [App.Spike; App.Spike; App.SessionEnds (Return "sleep_1.mp4");
        App.Spike]
       App.boot
     = Some (App.mkSystem
               (App.mkApp "Status: Recording…" (-30) 10 None (Some 10) true)
               1)
  /\ (App.rec_active
        (App.app
           (App.mkSystem
              (App.mkApp "Status: Recording…" (-30) 10 None (Some 10) true)
              1))
      = true
      <-> 1%nat = 1%nat).
Proof.
  split; [reflexivity|]. split; [reflexivity|].
  exact (proj1 (proj1 (proj2 (proj2 (proj2 (proj2 (proj2 (proj2
           rec_active_is_a_single_recording_gate))))))
           [App.Spike; App.Spike; App.SessionEnds (Return "sleep_1.mp4");
            App.Spike]
           _ eq_refl eq_refl)).
Defined.

(* ================================================================== *)
(** * The monitors *)
(* ================================================================== *)

Import Monitor.

(** ** The list of monitors *)

Lemma update_length (i : nat) (t : thread) (l : list thread) :
  List.length (update i t l) = List.length l.
Proof.
  revert i. induction l as [|x l IH]; intros [|i]; cbn; auto.
Qed.

Lemma nth_error_update_eq (i : nat) (t x : thread) (l : list thread) :
  nth_error l i = Some x -> nth_error (update i t l) i = Some t.
Proof.
  revert i. induction l as [|y l IH]; intros [|i] H; cbn in *;
    try discriminate; auto.
Qed.

Lemma nth_error_update_neq (i j : nat) (t : thread) (l : list thread) :
  i <> j -> nth_error (update i t l) j = nth_error l j.
Proof.
  revert i j. induction l as [|y l IH]; intros [|i] [|j] H; cbn;
    try reflexivity; try congruence.
  apply IH. congruence.
Qed.

Lemma Forall_update (P : thread -> Prop) (i : nat) (t : thread)
      (l : list thread) :
  Forall P l -> P t -> Forall P (update i t l).
Proof.
  revert i. induction l as [|y l IH]; intros [|i] Hl Ht; cbn;
    try constructor; inversion Hl; subst; auto.
Qed.

Lemma holds_iff (s : sys) (i : nat) : holds s i = true <-> mon s = Some i.
Proof.
  unfold holds. destruct (mon s) as [j|]; [|split; discriminate].
  rewrite Nat.eqb_eq. split; congruence.
Qed.

(** ** What a step does *)

Lemma step_on_inv (j : nat) (a : thread_action) (s s' : sys) :
  step (On j a) s = Some s' ->
  exists t t',
    thread_at s j = Some t /\ local a t = Some t' /\ s' = with_thread s j t'.
Proof.
  cbn. destruct (thread_at s j) as [t|] eqn:Ht; [|discriminate].
  destruct (local a t) as [t'|] eqn:Hl; [|discriminate].
  intros H. inversion H. exists t, t'. repeat split. exact Hl.
Qed.

(** The monitor [i] after a step: only its own steps and a [stop()] of the
    window that holds it touch it. *)
Lemma step_thread (act : action) (s s' : sys) (i : nat) (t : thread) :
  step act s = Some s' -> thread_at s i = Some t ->
  thread_at s' i
  = match act with
    | On j a => if Nat.eqb j i then local a t else Some t
    | StopMonitoring => if holds s i then Some (stopped t) else Some t
    | _ => Some t
    end.
Proof.
  intros Hstep Ht. unfold thread_at in *. destruct act; cbn in Hstep.
  - destruct (waiting s); [discriminate|]. inversion Hstep; subst; cbn.
    rewrite nth_error_app1; [exact Ht|].
    apply nth_error_Some. congruence.
  - destruct (waiting s); [discriminate|]. inversion Hstep; subst; exact Ht.
  - destruct (waiting s); [discriminate|]. unfold holds.
    destruct (mon s) as [k|]; [|inversion Hstep; subst; exact Ht].
    unfold thread_at in Hstep.
    destruct (nth_error (threads s) k) as [tk|] eqn:Hk; [|discriminate].
    inversion Hstep; subst; cbn.
    destruct (Nat.eqb_spec k i) as [->|Hne].
    + rewrite Hk in Ht. inversion Ht; subst.
      exact (nth_error_update_eq i (stopped t) t _ Hk).
    + rewrite nth_error_update_neq by assumption. exact Ht.
  - destruct (waiting s); [|discriminate].
    destruct (mon s) as [k|]; [|discriminate].
    destruct (thread_at s k) as [tk|]; [|discriminate].
    destruct (at_phase tk); try discriminate.
    inversion Hstep; subst; exact Ht.
  - unfold thread_at in Hstep.
    destruct (nth_error (threads s) i0) as [tj|] eqn:Hj; [|discriminate].
    destruct (local a tj) as [t'|] eqn:Hl; [|discriminate].
    inversion Hstep; subst; cbn.
    destruct (Nat.eqb_spec i0 i) as [->|Hne].
    + rewrite Hj in Ht. inversion Ht; subst. rewrite Hl.
      exact (nth_error_update_eq i t' t _ Hj).
    + rewrite nth_error_update_neq by assumption. exact Ht.
Qed.

(** The fields of the window after a step. *)
Lemma step_window (act : action) (s s' : sys) :
  step act s = Some s' ->
  match act with
  | StartMonitoring =>
      waiting s = false
      /\ s' = mkSys (slider s) (threads s ++ [new_thread (slider s)])
                    (Some (List.length (threads s))) false
  | MoveSlider v =>
      waiting s = false
      /\ s' = mkSys (App.bound App.slider_min App.slider_max v) (threads s)
                    (mon s) false
  | StopMonitoring =>
      waiting s = false
      /\ mon s' = mon s /\ slider s' = slider s
      /\ List.length (threads s') = List.length (threads s)
      /\ (mon s = None -> s' = s)
      /\ (mon s <> None -> waiting s' = true)
  | StopReturns =>
      waiting s = true
      /\ (exists i t,
             mon s = Some i /\ thread_at s i = Some t
             /\ at_phase t = Finished)
      /\ s' = mkSys (slider s) (threads s) None false
  | On i a =>
      mon s' = mon s /\ waiting s' = waiting s /\ slider s' = slider s
      /\ List.length (threads s') = List.length (threads s)
  end.
Proof.
  intros Hstep. destruct act; cbn in Hstep.
  - destruct (waiting s); [discriminate|]. inversion Hstep. auto.
  - destruct (waiting s); [discriminate|]. inversion Hstep. auto.
  - destruct (waiting s); [discriminate|]. split; [reflexivity|].
    destruct (mon s) as [k|] eqn:Hm.
    + destruct (thread_at s k) as [tk|]; [|discriminate].
      inversion Hstep; subst; cbn. rewrite update_length.
      repeat split; auto; try discriminate.
    + inversion Hstep; subst. repeat split; auto; try congruence.
  - destruct (waiting s); [|discriminate].
    destruct (mon s) as [k|]; [|discriminate].
    destruct (thread_at s k) as [tk|] eqn:Hk; [|discriminate].
    destruct (at_phase tk) eqn:Hp; try discriminate.
    inversion Hstep. split; [reflexivity|]. split; [|reflexivity].
    exists k, tk. auto.
  - destruct (thread_at s i) as [t|]; [|discriminate].
    destruct (local a t) as [t'|]; [|discriminate].
    inversion Hstep; subst; cbn. rewrite update_length. auto.
Qed.

(** A step of the window emits nothing; a step of a monitor emits under
    the index of that monitor. *)
Lemma emits_by (act : action) (s : sys) (i : nat) (sig : Level.signal) :
  In (i, sig) (emits act s) ->
  exists a t,
    act = On i a /\ thread_at s i = Some t /\ pending t <> None
    /\ local_emits a t <> [].
Proof.
  destruct act; cbn; try tauto.
  destruct (thread_at s i0) as [t|] eqn:Ht; [|intros []].
  intros Hin. apply in_map_iff in Hin as (x & Heq & Hx). inversion Heq; subst.
  exists a, t. split; [reflexivity|]. split; [exact Ht|].
  unfold local_emits in *. destruct a; try contradiction.
  destruct (pending t); [|contradiction].
  split; [discriminate|]. intros Hnil. rewrite Hnil in Hx. contradiction.
Qed.

(** A terminated monitor takes no step. *)
Lemma terminated_local (a : thread_action) (t : thread) :
  terminated t -> local a t = None.
Proof.
  intros [Hp Hq]. destruct a; cbn; rewrite ?Hp, ?Hq; reflexivity.
Qed.

(** ** Well-formed states *)

Lemma local_callback_in_stream (a : thread_action) (t t' : thread) :
  callback_in_stream t -> local a t = Some t' -> callback_in_stream t'.
Proof.
  unfold callback_in_stream. intros Hinv Hl.
  destruct a; cbn in Hl.
  - destruct (at_phase t) eqn:Hp; try discriminate.
    inversion Hl; subst; cbn. intros H. specialize (Hinv H). congruence.
  - destruct (at_phase t) eqn:Hp; try discriminate.
    inversion Hl; subst; cbn. reflexivity.
  - destruct (at_phase t) eqn:Hp; try discriminate.
    inversion Hl; subst; cbn. intros H. specialize (Hinv H). congruence.
  - destruct (at_phase t) eqn:Hp; try discriminate.
    destruct (pending t) eqn:Hq; try discriminate.
    destruct (Level.running (self t)); inversion Hl; subst; cbn; auto.
  - destruct (pending t) eqn:Hq; try discriminate.
    inversion Hl; subst; cbn. congruence.
  - destruct (at_phase t) eqn:Hp; try discriminate.
    destruct (Level.running (self t)); [inversion Hl; subst; auto|].
    destruct (pending t) eqn:Hq; try discriminate.
    inversion Hl; subst; cbn. congruence.
Qed.

Lemma well_formed_init : well_formed init.
Proof.
  unfold well_formed. cbn. split; [constructor|]. split; [discriminate|auto].
Qed.

Lemma well_formed_step (act : action) (s s' : sys) :
  well_formed s -> step act s = Some s' -> well_formed s'.
Proof.
  intros (Hcb & Hidx & Hw) Hstep.
  pose proof (step_window act s s' Hstep) as Hwin.
  unfold well_formed. destruct act.
  - destruct Hwin as [_ ->]. cbn. split.
    + apply Forall_app. split; [exact Hcb|].
      constructor; [|constructor]. unfold callback_in_stream. cbn. congruence.
    + split; [|discriminate]. intros i Hi. inversion Hi; subst.
      rewrite length_app. cbn. lia.
  - destruct Hwin as [_ ->]. cbn. auto.
  - destruct Hwin as (Hw0 & Hm & _ & Hlen & Hnone & Hsome).
    split; [|split].
    + cbn in Hstep. rewrite Hw0 in Hstep.
      destruct (mon s) as [k|]; [|inversion Hstep; subst; exact Hcb].
      destruct (thread_at s k) as [tk|] eqn:Hk; [|discriminate].
      inversion Hstep; subst; cbn. apply Forall_update; [exact Hcb|].
      rewrite Forall_forall in Hcb.
      specialize (Hcb tk (nth_error_In _ _ Hk)).
      unfold callback_in_stream, stopped in *. cbn. exact Hcb.
    + rewrite Hm, Hlen. exact Hidx.
    + rewrite Hm. intros Hn. rewrite (Hnone Hn). exact Hw0.
  - destruct Hwin as (_ & _ & ->). cbn. split; [exact Hcb|].
    split; [discriminate|reflexivity].
  - destruct Hwin as (Hm & Hw' & _ & Hlen).
    destruct (step_on_inv i a s s' Hstep) as (t & t' & Ht & Hl & ->).
    split; [|split].
    + cbn. apply Forall_update; [exact Hcb|].
      rewrite Forall_forall in Hcb.
      exact (local_callback_in_stream a t t'
               (Hcb t (nth_error_In _ _ Ht)) Hl).
    + cbn. rewrite update_length. exact Hidx.
    + cbn. exact Hw.
Qed.

Lemma well_formed_run (acts : list action) :
  forall s s' out,
    well_formed s -> exec acts s = Some (s', out) -> well_formed s'.
Proof.
  induction acts as [|act acts IH]; intros s s' out Hwf Hexec;
    cbn in Hexec.
  - inversion Hexec; subst. exact Hwf.
  - destruct (step act s) as [s1|] eqn:Hstep; [|discriminate].
    destruct (exec acts s1) as [[s2 out2]|] eqn:Hrest; [|discriminate].
    inversion Hexec; subst.
    exact (IH s1 s' out2 (well_formed_step act s s1 Hwf Hstep) Hrest).
Qed.

Lemma well_formed_thread (s : sys) (i : nat) (t : thread) :
  well_formed s -> thread_at s i = Some t -> callback_in_stream t.
Proof.
  intros (Hcb & _) Ht. rewrite Forall_forall in Hcb.
  exact (Hcb t (nth_error_In _ _ Ht)).
Qed.

Lemma exec_app (acts1 acts2 : list action) :
  forall s s1 s2 out1 out2,
    exec acts1 s = Some (s1, out1) -> exec acts2 s1 = Some (s2, out2) ->
    exec (acts1 ++ acts2) s = Some (s2, (out1 ++ out2)%list).
Proof.
  induction acts1 as [|act acts1 IH]; intros s s1 s2 out1 out2 H1 H2;
    cbn in H1 |- *.
  - inversion H1; subst. exact H2.
  - destruct (step act s) as [sa|]; [|discriminate].
    destruct (exec acts1 sa) as [[sb outb]|] eqn:Hb; [|discriminate].
    inversion H1; subst.
    rewrite (IH sa s1 s2 outb out2 Hb H2), app_assoc. reflexivity.
Qed.

(** ** Before the first start *)

Lemma step_without_monitors (act : action) (s s' : sys) :
  threads s = [] -> is_start act = false -> step act s = Some s' ->
  threads s' = [] /\ emits act s = [].
Proof.
  intros Hnil Hact Hstep.
  pose proof (step_window act s s' Hstep) as Hwin.
  destruct act; try discriminate.
  - destruct Hwin as [_ ->]. cbn. auto.
  - destruct Hwin as (_ & _ & _ & Hlen & _). rewrite Hnil in Hlen.
    split; [|reflexivity]. apply length_zero_iff_nil. exact Hlen.
  - destruct Hwin as (_ & (i & t & _ & Ht & _) & _).
    unfold thread_at in Ht. rewrite Hnil in Ht. destruct i; discriminate.
  - destruct (step_on_inv i a s s' Hstep) as (t & _ & Ht & _).
    unfold thread_at in Ht. rewrite Hnil in Ht. destruct i; discriminate.
Qed.

Lemma silent_without_monitors (acts : list action) :
  forall s s' out,
    threads s = [] -> no_start acts = true ->
    exec acts s = Some (s', out) -> out = [] /\ threads s' = [].
Proof.
  unfold no_start.
  induction acts as [|act acts IH]; intros s s' out Hnil Hall Hexec;
    cbn in Hexec.
  - inversion Hexec; subst. auto.
  - cbn [forallb] in Hall. apply andb_true_iff in Hall as [Hact Hrest].
    apply negb_true_iff in Hact.
    destruct (step act s) as [s1|] eqn:Hstep; [|discriminate].
    destruct (exec acts s1) as [[s2 out2]|] eqn:Hexec1; [|discriminate].
    destruct (step_without_monitors act s s1 Hnil Hact Hstep) as [Hnil1 He].
    destruct (IH s1 s2 out2 Hnil1 Hrest Hexec1) as [-> Hnil2].
    rewrite He in Hexec. inversion Hexec; subst. auto.
Qed.

(** ** A monitor the window has stopped and let go of *)

Lemma emitted_by_other (i j : nat) (l : list Level.signal) :
  j <> i -> emitted_by i (map (pair j) l) = [].
Proof.
  intros Hne. unfold emitted_by.
  induction l as [|x l IH]; [reflexivity|]. cbn.
  destruct (Nat.eqb_spec j i); [contradiction|exact IH].
Qed.

Lemma emitted_by_app (i : nat) (l1 l2 : list emission) :
  emitted_by i (l1 ++ l2) = (emitted_by i l1 ++ emitted_by i l2)%list.
Proof. unfold emitted_by. apply filter_app. Qed.

(** It is never touched again and emits nothing more. *)
Lemma released_step (i : nat) (act : action) (s s' : sys) :
  released i s -> step act s = Some s' ->
  released i s'
  /\ thread_at s' i = thread_at s i
  /\ is_on i act = false
  /\ emitted_by i (emits act s) = [].
Proof.
  intros (Hh & Hlt & t & Ht & Hterm) Hstep.
  pose proof (step_thread act s s' i t Hstep Ht) as Hth.
  pose proof (step_window act s s' Hstep) as Hwin.
  unfold released.
  destruct act.
  - destruct Hwin as [_ Hs']. rewrite Ht, Hth. subst s'. cbn.
    unfold holds. cbn. rewrite length_app. cbn.
    destruct (Nat.eqb_spec (List.length (threads s)) i); [lia|].
    repeat split; try lia. exists t. auto.
  - destruct Hwin as [_ Hs']. rewrite Ht, Hth. subst s'. cbn.
    repeat split; try assumption. exists t. auto.
  - destruct Hwin as (_ & Hm & _ & Hlen & _). rewrite Hh in Hth.
    rewrite Ht, Hth, Hlen. unfold holds in *. rewrite Hm.
    repeat split; try assumption. exists t. auto.
  - destruct Hwin as (_ & _ & Hs'). rewrite Ht, Hth. subst s'. cbn.
    repeat split; try assumption. exists t. auto.
  - destruct Hwin as (Hm & _ & _ & Hlen).
    destruct (step_on_inv i0 a s s' Hstep) as (t0 & t' & Ht0 & Hl & _).
    destruct (Nat.eqb_spec i0 i) as [->|Hne].
    + rewrite Ht in Ht0. inversion Ht0; subst.
      rewrite (terminated_local a t0 Hterm) in Hl. discriminate.
    + rewrite Ht, Hth, Hlen. unfold holds in *. rewrite Hm.
      cbn [is_on emits]. rewrite Ht0.
      destruct (Nat.eqb_spec i0 i); [contradiction|].
      repeat split; try assumption; [exists t; auto|].
      apply emitted_by_other. exact Hne.
Qed.

Lemma released_run (i : nat) (acts : list action) :
  forall s s' out,
    released i s -> exec acts s = Some (s', out) ->
    released i s'
    /\ thread_at s' i = thread_at s i
    /\ forallb (fun act => negb (is_on i act)) acts = true
    /\ emitted_by i out = [].
Proof.
  induction acts as [|act acts IH]; intros s s' out Hrel Hexec;
    cbn in Hexec.
  - inversion Hexec; subst. auto.
  - destruct (step act s) as [s1|] eqn:Hstep; [|discriminate].
    destruct (exec acts s1) as [[s2 out2]|] eqn:Hexec1; [|discriminate].
    inversion Hexec; subst; clear Hexec.
    destruct (released_step i act s s1 Hrel Hstep)
      as (Hrel1 & Hth1 & Hon & He).
    destruct (IH s1 s' out2 Hrel1 Hexec1) as (Hrel' & Hth' & Hall & He').
    split; [exact Hrel'|]. split; [congruence|].
    split; [cbn; rewrite Hon, Hall; reflexivity|].
    rewrite emitted_by_app, He, He'. reflexivity.
Qed.

(** [wait()] returns from a terminated monitor, which the window then lets
    go of. *)
Lemma stop_returns_releases (i : nat) (s s1 : sys) :
  well_formed s -> mon s = Some i -> step StopReturns s = Some s1 ->
  (exists t, thread_at s i = Some t /\ terminated t)
  /\ waiting s = true /\ mon s1 = None /\ waiting s1 = false
  /\ released i s1.
Proof.
  intros Hwf Hm Hstep.
  destruct (step_window StopReturns s s1 Hstep)
    as (Hw & (k & t & Hk & Ht & Hfin) & Hs1).
  rewrite Hm in Hk. inversion Hk; subst k.
  assert (Hterm : terminated t).
  { split; [exact Hfin|].
    pose proof (well_formed_thread s i t Hwf Ht) as Hcb.
    destruct (pending t) eqn:Hp; [|reflexivity].
    unfold callback_in_stream in Hcb. rewrite Hp in Hcb.
    assert (at_phase t = Listening) by (apply Hcb; discriminate).
    congruence. }
  split; [exists t; auto|]. split; [exact Hw|].
  subst s1. cbn. split; [reflexivity|]. split; [reflexivity|].
  unfold released, holds, thread_at. cbn.
  split; [reflexivity|]. split; [|exists t; auto].
  apply nth_error_Some. unfold thread_at in Ht. congruence.
Qed.

(** ** A caller that keeps to the protocol *)

Lemma init_only_held_alive : only_held_alive init.
Proof. intros i t Ht. destruct i; discriminate. Qed.

(** Only a monitor the window holds emits, when every other one has
    terminated. *)
Lemma emits_held (act : action) (s : sys) (i : nat) (sig : Level.signal) :
  only_held_alive s -> In (i, sig) (emits act s) -> mon s = Some i.
Proof.
  intros Halive Hin.
  destruct (emits_by act s i sig Hin) as (a & t & _ & Ht & Hp & _).
  apply holds_iff. destruct (holds s i) eqn:Hh; [reflexivity|].
  destruct (Halive i t Ht Hh) as [_ Hnone]. congruence.
Qed.

Lemma alternating_step (act : action) (s s' : sys) (opened : bool) :
  well_formed s -> only_held_alive s ->
  (opened = false -> mon s = None) ->
  alternates opened [act] = true ->
  step act s = Some s' ->
  only_held_alive s'
  /\ (session_open opened [act] = false -> mon s' = None).
Proof.
  intros Hwf Halive Hclosed Halt Hstep.
  pose proof (step_window act s s' Hstep) as Hwin.
  destruct act; cbn [alternates session_open] in *.
  - apply andb_true_iff in Halt as [Hop _]. apply negb_true_iff in Hop.
    specialize (Hclosed Hop). destruct Hwin as [_ ->].
    split; [|discriminate].
    intros i t Ht Hh. unfold thread_at, holds in *. cbn in *.
    destruct (Nat.eqb_spec (List.length (threads s)) i) as [|Hne];
      [discriminate|].
    assert (Hlt : (i < List.length (threads s))%nat).
    { assert (Hsome : nth_error (threads s ++ [new_thread (slider s)]) i
                      <> None) by congruence.
      apply nth_error_Some in Hsome. rewrite length_app in Hsome.
      cbn in Hsome. lia. }
    rewrite nth_error_app1 in Ht by exact Hlt.
    apply (Halive i t Ht). unfold holds. rewrite Hclosed. reflexivity.
  - destruct Hwin as [_ ->]. split; [exact Halive|exact Hclosed].
  - destruct Hwin as (_ & Hm & _ & _ & _).
    split; [|rewrite Hm; exact Hclosed].
    intros i t' Ht' Hh.
    assert (Hh0 : holds s i = false)
      by (unfold holds in *; rewrite Hm in Hh; exact Hh).
    destruct (thread_at s i) as [t|] eqn:Ht.
    + rewrite (step_thread StopMonitoring s s' i t Hstep Ht), Hh0 in Ht'.
      inversion Ht'; subst. exact (Halive i t' Ht Hh0).
    + exfalso. unfold thread_at in *.
      apply nth_error_None in Ht.
      assert (Hsome : nth_error (threads s') i <> None) by congruence.
      apply nth_error_Some in Hsome.
      destruct (step_window StopMonitoring s s' Hstep)
        as (_ & _ & _ & Hlen & _). lia.
  - destruct Hwin as (_ & (k & tk & Hk & Htk & Hfin) & ->).
    split; [|reflexivity].
    intros i t Ht _. unfold thread_at in *. cbn in Ht.
    destruct (holds s i) eqn:Hh; [|exact (Halive i t Ht Hh)].
    apply holds_iff in Hh. rewrite Hk in Hh. inversion Hh; subst k.
    destruct (stop_returns_releases i s _ Hwf Hk Hstep)
      as ((t0 & Ht0 & Hterm) & _).
    unfold thread_at in Ht0. congruence.
  - destruct Hwin as (Hm & _ & _ & _).
    split; [|rewrite Hm; exact Hclosed].
    destruct (step_on_inv i a s s' Hstep) as (t0 & t0' & Ht0 & Hl & _).
    assert (Hheld : holds s i = true).
    { destruct (holds s i) eqn:Hh; [reflexivity|].
      rewrite (terminated_local a t0 (Halive i t0 Ht0 Hh)) in Hl.
      discriminate. }
    intros j t' Ht' Hh.
    assert (Hh0 : holds s j = false)
      by (unfold holds in *; rewrite Hm in Hh; exact Hh).
    assert (Hne : i <> j) by (intros ->; congruence).
    destruct (thread_at s j) as [t|] eqn:Ht.
    + rewrite (step_thread (On i a) s s' j t Hstep Ht) in Ht'.
      destruct (Nat.eqb_spec i j); [contradiction|].
      inversion Ht'; subst. exact (Halive j t' Ht Hh0).
    + exfalso. unfold thread_at in *.
      apply nth_error_None in Ht.
      assert (Hsome : nth_error (threads s') j <> None) by congruence.
      apply nth_error_Some in Hsome.
      destruct (step_window (On i a) s s' Hstep) as (_ & _ & _ & Hlen).
      lia.
Qed.

Lemma alternates_head (act : action) (acts : list action) (opened : bool) :
  alternates opened (act :: acts) = true ->
  alternates opened [act] = true
  /\ alternates (session_open opened [act]) acts = true.
Proof.
  destruct act; cbn; intros H; try (split; [reflexivity|exact H]).
  apply andb_true_iff in H as [-> H]. auto.
Qed.

Lemma session_open_head (act : action) (acts : list action) (opened : bool) :
  session_open opened (act :: acts)
  = session_open (session_open opened [act]) acts.
Proof. destruct act; reflexivity. Qed.

Lemma session_open_app (acts1 acts2 : list action) : forall opened,
  session_open opened (acts1 ++ acts2)
  = session_open (session_open opened acts1) acts2.
Proof.
  induction acts1 as [|act acts1 IH]; intros opened; [reflexivity|].
  destruct act; cbn; apply IH.
Qed.

Lemma alternating_run (acts : list action) :
  forall s s' out opened,
    well_formed s -> only_held_alive s ->
    (opened = false -> mon s = None) ->
    alternates opened acts = true ->
    exec acts s = Some (s', out) ->
    well_formed s' /\ only_held_alive s'
    /\ (session_open opened acts = false -> mon s' = None).
Proof.
  induction acts as [|act acts IH];
    intros s s' out opened Hwf Halive Hclosed Halt Hexec; cbn in Hexec.
  - inversion Hexec; subst. auto.
  - destruct (step act s) as [s1|] eqn:Hstep; [|discriminate].
    destruct (exec acts s1) as [[s2 out2]|] eqn:Hexec1; [|discriminate].
    inversion Hexec; subst; clear Hexec.
    destruct (alternates_head act acts opened Halt) as [Hact Hrest].
    destruct (alternating_step act s s1 opened Hwf Halive Hclosed Hact Hstep)
      as [Halive1 Hclosed1].
    rewrite session_open_head.
    exact (IH s1 s' out2 _ (well_formed_step act s s1 Hwf Hstep)
              Halive1 Hclosed1 Hrest Hexec1).
Qed.

(** With no monitor held and every monitor terminated, nothing is emitted
    until the next start. *)
Lemma idle_run (acts : list action) :
  forall s s' out,
    well_formed s -> only_held_alive s -> mon s = None ->
    no_start acts = true ->
    exec acts s = Some (s', out) -> out = [].
Proof.
  unfold no_start.
  induction acts as [|act acts IH]; intros s s' out Hwf Halive Hm Hall Hexec;
    cbn in Hexec.
  - inversion Hexec; reflexivity.
  - cbn [forallb] in Hall. apply andb_true_iff in Hall as [Hact Hrest].
    apply negb_true_iff in Hact.
    destruct (step act s) as [s1|] eqn:Hstep; [|discriminate].
    destruct (exec acts s1) as [[s2 out2]|] eqn:Hexec1; [|discriminate].
    inversion Hexec; subst; clear Hexec.
    assert (Halt : alternates false [act] = true)
      by (destruct act; try reflexivity; discriminate).
    destruct (alternating_step act s s1 false Hwf Halive (fun _ => Hm)
                Halt Hstep) as [Halive1 Hclosed1].
    assert (Hm1 : mon s1 = None)
      by (apply Hclosed1; destruct act; try reflexivity; discriminate).
    rewrite (IH s1 s' out2 (well_formed_step act s s1 Hwf Hstep)
                Halive1 Hm1 Hrest Hexec1), app_nil_r.
    destruct (emits act s) as [|[i sig] rest] eqn:He; [reflexivity|].
    assert (Hin : In (i, sig) (emits act s)) by (rewrite He; left; reflexivity).
    pose proof (emits_held act s i sig Halive Hin). congruence.
Qed.

(** Counterexample to C4: monitoring is started twice and stopped once.
    [stop_mon] stops the second monitor and returns, no session is open,
    and the first monitor, which nothing refers to any more, raises the
    signal on the next loud block. *)
Lemma replaced_monitor_spikes_after_stop :
  exists s s',
    exec Examples.started_twice init = Some (s, [])
    /\ session_open false Examples.started_twice = false
    /\ mon s = None /\ waiting s = false
    /\ no_start Examples.first_monitor_hears = true
    /\ exec Examples.first_monitor_hears s
       = Some (s', [(0%nat, Level.spike_detected)]).
Proof.
  eexists. eexists. split; [reflexivity|]. split; [reflexivity|].
  split; [reflexivity|]. split; [reflexivity|]. split; [reflexivity|].
  vm_compute. reflexivity.
Qed.

(** C4, amended.  No [spike_detected] is emitted before the first
    [StartMonitoring].  [StopMonitoring] returns only when the thread of the
    monitor it stopped has ended and none of its callbacks is in progress;
    from then on that monitor takes no step, is never changed and emits
    nothing, whatever blocks arrive and whatever the window does, further
    sessions included.  When [StartMonitoring] is only called while no
    session is open, every signal is emitted by the monitor the window
    holds, during an open session, and none from the return of
    [StopMonitoring] to the next [StartMonitoring]. *)
Theorem no_spike_from_stopped_monitor :
  (forall (acts : list action) (s : sys) (out : list emission),
      no_start acts = true ->
      exec acts init = Some (s, out) ->
      out = [])
  /\ (forall (before after : list action) (s s1 s' : sys)
             (out out' : list emission) (i : nat),
         exec before init = Some (s, out) ->
         mon s = Some i ->
         step StopReturns s = Some s1 ->
         exec after s1 = Some (s', out') ->
         (exists t, thread_at s i = Some t /\ terminated t)
         /\ waiting s = true /\ mon s1 = None /\ waiting s1 = false
         /\ thread_at s' i = thread_at s i
         /\ forallb (fun act => negb (is_on i act)) after = true
         /\ emitted_by i out' = [])
  /\ (forall (acts : list action) (act : action) (s : sys)
             (out : list emission) (i : nat) (sig : Level.signal),
         alternates false acts = true ->
         exec acts init = Some (s, out) ->
         In (i, sig) (emits act s) ->
         mon s = Some i /\ session_open false acts = true)
  /\ (forall (before after : list action) (s s' : sys)
             (out out' : list emission),
         alternates false before = true ->
         exec before init = Some (s, out) ->
         session_open false before = false ->
         no_start after = true ->
         exec after s = Some (s', out') ->
         out' = []).
Proof.
  split; [|split; [|split]].
  - intros acts s out Hno Hexec.
    exact (proj1 (silent_without_monitors acts init s out eq_refl Hno Hexec)).
  - intros before after s s1 s' out out' i Hbefore Hm Hret Hafter.
    pose proof (well_formed_run before init s out well_formed_init Hbefore)
      as Hwf.
    destruct (stop_returns_releases i s s1 Hwf Hm Hret)
      as (Hterm & Hw & Hm1 & Hw1 & Hrel).
    destruct (released_run i after s1 s' out' Hrel Hafter)
      as (_ & Hth & Hall & He).
    split; [exact Hterm|]. split; [exact Hw|]. split; [exact Hm1|].
    split; [exact Hw1|]. split; [|split; assumption].
    rewrite Hth.
    destruct (step_window StopReturns s s1 Hret) as (_ & _ & ->).
    reflexivity.
  - intros acts act s out i sig Halt Hexec Hin.
    destruct (alternating_run acts init s out false well_formed_init
                init_only_held_alive (fun _ => eq_refl) Halt Hexec)
      as (_ & Halive & Hclosed).
    pose proof (emits_held act s i sig Halive Hin) as Hm.
    split; [exact Hm|].
    destruct (session_open false acts); [reflexivity|].
    rewrite (Hclosed eq_refl) in Hm. discriminate.
  - intros before after s s' out out' Halt Hbefore Hclosed Hno Hafter.
    destruct (alternating_run before init s out false well_formed_init
                init_only_held_alive (fun _ => eq_refl) Halt Hbefore)
      as (Hwf & Halive & Hm).
    exact (idle_run after s s' out' Hwf Halive (Hm Hclosed) Hno Hafter).
Qed.

(** Witness for C4, amended: a session in which a loud block raises the
    signal; after [stop_mon] has returned a second session is started, in
    which the new monitor raises the signal and the old one nothing. *)
Lemma no_spike_from_stopped_monitor_witness :
  exists s s1 s',
    exec [StartMonitoring; On 0 Run; On 0 Open; On 0 (Deliver Examples.loud);
          On 0 Compute; StopMonitoring; On 0 Poll] init
    = Some (s, [(0%nat, Level.spike_detected)])
    /\ mon s = Some 0%nat
    /\ step StopReturns s = Some s1
    /\ exec [StartMonitoring; On 1 Run; On 1 Open;
             On 1 (Deliver Examples.loud); On 1 Compute] s1
       = Some (s', [(1%nat, Level.spike_detected)])
    /\ emitted_by 0 [(1%nat, Level.spike_detected)] = [].
Proof.
  eexists. eexists. eexists.
  split; [vm_compute; reflexivity|]. split; [reflexivity|].
  split; [reflexivity|]. split; [vm_compute; reflexivity|].
  eapply (proj1 (proj2 no_spike_from_stopped_monitor)
            [StartMonitoring; On 0 Run; On 0 Open;
             On 0 (Deliver Examples.loud); On 0 Compute; StopMonitoring;
             On 0 Poll]
            [StartMonitoring; On 1 Run; On 1 Open;
             On 1 (Deliver Examples.loud); On 1 Compute]).
  - vm_compute. reflexivity.
  - reflexivity.
  - reflexivity.
  - vm_compute. reflexivity.
Defined.

(* ================================================================== *)
(** * Further properties of the level meter *)
(* ================================================================== *)

Lemma add_nan_r (x : F64.float) : F64.add x F64.nan = F64.nan.
Proof. destruct x as [s|s| |s m e]; reflexivity. Qed.

Lemma fold_add_nan (l : list F64.float) :
  fold_left F64.add l F64.nan = F64.nan.
Proof. induction l as [|x l IH]; [reflexivity|exact IH]. Qed.

Lemma fold_add_has_nan (l : list F64.float) : forall a,
  Np.has_nan l = true -> fold_left F64.add l a = F64.nan.
Proof.
  induction l as [|x l IH]; intros a Hnan; [discriminate|].
  cbn [fold_left]. unfold Np.has_nan in Hnan. cbn [existsb] in Hnan.
  apply orb_true_iff in Hnan as [Hx|Hl].
  - destruct x; try discriminate. rewrite add_nan_r. apply fold_add_nan.
  - apply IH. exact Hl.
Qed.

Lemma square_has_nan (l : list F64.float) :
  Np.has_nan l = true -> Np.has_nan (Np.square l) = true.
Proof.
  unfold Np.has_nan, Np.square.
  induction l as [|x l IH]; intros Hnan; [discriminate|].
  cbn [existsb map] in *. apply orb_true_iff in Hnan as [Hx|Hl].
  - destruct x; try discriminate. reflexivity.
  - rewrite (IH Hl). apply orb_true_r.
Qed.

Lemma sum_has_nan (l : list F64.float) :
  Np.has_nan l = true -> Np.sum l = F64.nan.
Proof.
  destruct l as [|x l]; intros Hnan; [discriminate|].
  unfold Np.sum. unfold Np.has_nan in Hnan. cbn [existsb] in Hnan.
  apply orb_true_iff in Hnan as [Hx|Hl].
  - destruct x; try discriminate. apply fold_add_nan.
  - apply fold_add_has_nan. exact Hl.
Qed.

Lemma level_has_nan (indata : Np.ndarray) :
  Np.has_nan indata = true -> Level.level indata = F64.nan.
Proof.
  intros Hnan. unfold Level.level, Level.rms, Np.mean.
  rewrite (sum_has_nan _ (square_has_nan _ Hnan)). reflexivity.
Qed.

(** X1.  A block that holds a NaN sample has the level NaN, and the
    callback raises no spike on it, whatever the threshold and whatever the
    other samples are. *)
Theorem nan_sample_never_spikes :
  forall (self : Level.AudioMonitor) (indata : Np.ndarray),
    Np.has_nan indata = true ->
    Level.level indata = F64.nan /\ Level.cb self indata = [].
Proof.
  intros self indata Hnan.
  pose proof (level_has_nan indata Hnan) as Hlevel.
  split; [exact Hlevel|].
  unfold Level.cb, Level.is_spike, F64.gtb. rewrite Hlevel, ltb_nan_r.
  destruct (Level.running self); reflexivity.
Qed.

(** Witness for X1: a loud block with one NaN sample, heard by a running
    monitor at the lowest threshold. *)
Lemma nan_sample_witness :
  Np.has_nan [F64.of_Z 1; F64.nan; F64.of_Z 1] = true
  /\ Level.cb (Level.mkMonitor (-60) true) [F64.of_Z 1; F64.nan; F64.of_Z 1]
     = []
  /\ Level.cb (Level.mkMonitor (-60) true) [F64.of_Z 1; F64.of_Z 1]
     = [Level.spike_detected].
Proof.
  split; [reflexivity|]. split.
  - exact (proj2 (nan_sample_never_spikes (Level.mkMonitor (-60) true)
                    [F64.of_Z 1; F64.nan; F64.of_Z 1] eq_refl)).
  - vm_compute. reflexivity.
Defined.

Lemma mul_opp_opp (x : F64.float) :
  F64.mul (F64.opp x) (F64.opp x) = F64.mul x x.
Proof. destruct x as [s|s| |s m e]; try reflexivity; destruct s; reflexivity. Qed.

Lemma square_negate (indata : Np.ndarray) :
  Np.square (Np.negate indata) = Np.square indata.
Proof.
  unfold Np.square, Np.negate. rewrite map_map.
  induction indata as [|x l IH]; [reflexivity|].
  cbn [map]. rewrite mul_opp_opp, IH. reflexivity.
Qed.

(** X2.  The level does not depend on the polarity of the signal: a block
    and the block with every sample negated have the same level, bit for
    bit, and the callback raises the same signals on both. *)
Theorem level_ignores_polarity :
  forall (self : Level.AudioMonitor) (indata : Np.ndarray),
    Level.level (Np.negate indata) = Level.level indata
    /\ Level.cb self (Np.negate indata) = Level.cb self indata.
Proof.
  intros self indata.
  assert (Hlevel : Level.level (Np.negate indata) = Level.level indata).
  { unfold Level.level, Level.rms. rewrite square_negate. reflexivity. }
  split; [exact Hlevel|]. unfold Level.cb. rewrite Hlevel. reflexivity.
Qed.

(* ================================================================== *)
(** * Further properties of the recorder *)
(* ================================================================== *)

(** ** Reading logs piecewise *)

Lemma written_frames_app (l1 l2 : list event) :
  written_frames (l1 ++ l2) = (written_frames l1 + written_frames l2)%nat.
Proof.
  induction l1 as [|ev l1 IH]; [reflexivity|].
  destruct ev; cbn; rewrite ?IH; reflexivity.
Qed.

Lemma subprocess_calls_app (l1 l2 : list event) :
  subprocess_calls (l1 ++ l2)
  = (subprocess_calls l1 ++ subprocess_calls l2)%list.
Proof.
  induction l1 as [|ev l1 IH]; [reflexivity|].
  destruct ev; cbn; rewrite ?IH; reflexivity.
Qed.

Lemma emitted_app (l1 l2 : list event) :
  emitted (l1 ++ l2) = (emitted l1 ++ emitted l2)%list.
Proof.
  induction l1 as [|ev l1 IH]; [reflexivity|].
  destruct ev; cbn; rewrite ?IH; reflexivity.
Qed.

Lemma removed_app (l1 l2 : list event) :
  removed (l1 ++ l2) = (removed l1 ++ removed l2)%list.
Proof.
  induction l1 as [|ev l1 IH]; [reflexivity|].
  destruct ev; cbn; rewrite ?IH; reflexivity.
Qed.

Lemma sleeps_app (l1 l2 : list event) :
  sleeps (l1 ++ l2) = (sleeps l1 ++ sleeps l2)%list.
Proof.
  induction l1 as [|ev l1 IH]; [reflexivity|].
  destruct ev; cbn; rewrite ?IH; reflexivity.
Qed.

(** A pass writes at most its frame and touches nothing else. *)
Lemma pass_events_quiet (ret : bool) (sleep_for : F64.float) :
  written_frames (pass_events ret sleep_for) = (if ret then 1 else 0)%nat
  /\ subprocess_calls (pass_events ret sleep_for) = []
  /\ emitted (pass_events ret sleep_for) = []
  /\ removed (pass_events ret sleep_for) = [].
Proof.
  unfold pass_events. destruct ret; destruct (F64.gtb _ _); repeat split.
Qed.

Lemma frames_read_le (env : Env) (k : nat) : forall r,
  (frames_read env r k <= k)%nat.
Proof.
  unfold frames_read. intros r.
  etransitivity; [apply filter_length_le|]. rewrite length_seq. lia.
Qed.

(** The loop with its log: what it appends are the events of its passes. *)
Lemma capture_exits_log (env : Env) (end_t : F64.float) (k : nat) :
  forall fuel st s,
    (k < fuel)%nat ->
    still_capturing env (ticks s) end_t k = true ->
    F64.ltb (clock env (ticks s + 2 * k)) end_t = false ->
    exists s' evs,
      capture fuel end_t st env s
      = (s', Return (mkLoop (deadline_after k (next_frame_t st))
                            (frames_written st + written_frames evs)))
      /\ log s' = (log s ++ evs)%list
      /\ written_frames evs = frames_read env (reads s) k
      /\ subprocess_calls evs = []
      /\ emitted evs = []
      /\ removed evs = []
      /\ files s' = files s
      /\ runs s' = runs s
      /\ reads s' = (reads s + k)%nat.
Proof.
  induction k as [|k IH]; intros fuel st s Hfuel Hbefore Hexit.
  - destruct fuel as [|fuel]; [lia|]. rewrite capture_unfold.
    rewrite Nat.mul_0_r, Nat.add_0_r in Hexit. rewrite Hexit.
    exists (ticked s), []. cbn. rewrite !Nat.add_0_r, app_nil_r.
    destruct st. repeat split.
  - destruct fuel as [|fuel]; [lia|]. rewrite capture_unfold.
    rewrite still_capturing_S in Hbefore.
    apply andb_true_iff in Hbefore as [Hnow Hlater]. rewrite Hnow.
    unfold bind. rewrite iteration_spec. cbn [ticked ticks reads runs files log].
    match goal with
    | |- context [capture fuel end_t ?st1 env ?s1] =>
        destruct (IH fuel st1 s1)
          as (s' & evs & Heq & Hlog & Hw & Hc & He & Hr & Hf & Hn & Hrd)
    end.
    + lia.
    + exact Hlater.
    + cbn [ticks]. rewrite <- Hexit. f_equal. f_equal. lia.
    + cbn [ticks reads runs files log next_frame_t frames_written] in *.
      match type of Hlog with
      | _ = ((_ ++ pass_events ?ret ?sl) ++ _)%list =>
          destruct (pass_events_quiet ret sl) as (Pw & Pc & Pe & Pr);
          exists s', (pass_events ret sl ++ evs)%list
      end.
      rewrite Heq, deadline_after_S, frames_read_S, written_frames_app,
        subprocess_calls_app, emitted_app, removed_app, Pw, Pc, Pe, Pr, Hw,
        Hc, He, Hr, Hlog, <- app_assoc.
      split.
      { f_equal. f_equal. f_equal.
        destruct (camera_opens env && camera env (reads s)); lia. }
      repeat split; first [reflexivity | assumption | lia].
Qed.

(** X3.  When the capture loop ends, [frames_written] has grown by exactly
    the number of successful reads, each of which is one call of
    [vw.write], and by at most the number of passes.  The loop creates and
    removes no file, runs no external command and emits no signal: the
    counter is about the reads and not about the file, and with a writer
    that has not opened it grows although there is no video file. *)
Theorem frames_written_counts_successful_reads :
  forall (env : Env) (end_t : F64.float) (st : loop_state) (s : State)
         (fuel k : nat),
    (k < fuel)%nat ->
    still_capturing env (ticks s) end_t k = true ->
    F64.ltb (clock env (ticks s + 2 * k)) end_t = false ->
    exists s' st' evs,
      capture fuel end_t st env s = (s', Return st')
      /\ log s' = (log s ++ evs)%list
      /\ frames_written st'
         = (frames_written st + frames_read env (reads s) k)%nat
      /\ written_frames evs = frames_read env (reads s) k
      /\ (frames_read env (reads s) k <= k)%nat
      /\ reads s' = (reads s + k)%nat
      /\ files s' = files s
      /\ subprocess_calls evs = []
      /\ removed evs = []
      /\ emitted evs = [].
Proof.
  intros env end_t st s fuel k Hk Hbefore Hexit.
  destruct (capture_exits_log env end_t k fuel st s Hk Hbefore Hexit)
    as (s' & evs & Heq & Hlog & Hw & Hc & He & Hr & Hf & _ & Hrd).
  exists s', (mkLoop (deadline_after k (next_frame_t st))
                     (frames_written st + written_frames evs)), evs.
  split; [exact Heq|]. split; [exact Hlog|].
  split; [cbn; rewrite Hw; reflexivity|]. split; [exact Hw|].
  split; [apply frames_read_le|].
  repeat split; assumption.
Qed.

(** Witness for X3: twenty passes in which every fourth read fails, in a
    directory without a video file. *)
Lemma frames_written_witness :
  still_capturing Examples.env_dropping 1 (F64.of_Z 1) 20 = true
  /\ F64.ltb (clock Examples.env_dropping 41) (F64.of_Z 1) = false
  /\ frames_read Examples.env_dropping 0 20 = 15%nat
  /\ exists s' st' evs,
       capture 100 (F64.of_Z 1) (mkLoop F64.zero 0) Examples.env_dropping
               (mkState 1 0 0 [] [])
       = (s', Return st')
       /\ log s' = ([] ++ evs)%list
       /\ frames_written st'
          = (0 + frames_read Examples.env_dropping 0 20)%nat
       /\ written_frames evs = frames_read Examples.env_dropping 0 20
       /\ files s' = [].
Proof.
  assert (Hbefore : still_capturing Examples.env_dropping 1 (F64.of_Z 1) 20
                    = true) by (vm_compute; reflexivity).
  assert (Hexit : F64.ltb (clock Examples.env_dropping 41) (F64.of_Z 1)
                  = false) by (vm_compute; reflexivity).
  split; [exact Hbefore|]. split; [exact Hexit|].
  split; [vm_compute; reflexivity|].
  destruct (frames_written_counts_successful_reads Examples.env_dropping
              (F64.of_Z 1) (mkLoop F64.zero 0) (mkState 1 0 0 [] [])
              100%nat 20%nat ltac:(lia) Hbefore Hexit)
    as (s' & st' & evs & Heq & Hlog & Hfw & Hw & _ & _ & Hf & _).
  exists s', st', evs. repeat split; assumption.
Defined.

(** ** A session of zero duration makes no pass *)

(** Adding [float(0)] to the start time moves no comparison. *)
Lemma ltb_add_zero (t1 t0 : F64.float) :
  F64.ltb t1 (F64.add t0 (F64.of_Z 0)) = F64.ltb t1 t0.
Proof.
  change (F64.of_Z 0) with F64.zero.
  destruct t0 as [s|s| |s m e]; try reflexivity.
  destruct s; [|reflexivity].
  destruct t1 as [s1|s1| |s1 m1 e1]; try reflexivity; destruct s1; reflexivity.
Qed.

(** X4.  With a nominal duration of zero and a clock that does not run
    backwards between its first two readings, the loop makes no pass: no
    frame is read or written and nothing sleeps; [run] goes from the start
    straight to the finalisation with zero frames. *)
Theorem zero_duration_makes_no_pass :
  forall (env : Env) (s : State) (fuel : nat),
    audio_opens env = true ->
    F64.ltb (clock env (S (ticks s))) (clock env (ticks s)) = false ->
    exists s2 evs,
      run 0 (S fuel) env s = finalize (timestamp env) 0 0 env s2
      /\ reads s2 = reads s
      /\ ticks s2 = S (S (ticks s))
      /\ log s2 = (log s ++ evs)%list
      /\ written_frames evs = 0%nat
      /\ sleeps evs = [].
Proof.
  intros env s fuel Haudio Hclock.
  rewrite run_unfold by assumption.
  pose proof (starting_spec (timestamp env) env s) as Hstart.
  rewrite Haudio in Hstart.
  destruct (starting (timestamp env) env s) as [s1 r1] eqn:Hs1.
  inversion Hstart; subst s1 r1; clear Hstart. cbn [fst].
  unfold bind at 1. rewrite capture_unfold. cbn [ticked ticks].
  rewrite ltb_add_zero, Hclock. cbn [frames_written].
  eexists. eexists. split; [reflexivity|].
  cbn [ticked ticks reads log]. repeat split.
Qed.

(** Witness for X4: the steady clock. *)
Lemma zero_duration_witness :
  F64.ltb (clock Examples.env_steady 1) (clock Examples.env_steady 0) = false
  /\ exists s2,
       run 0 1 Examples.env_steady (initial [])
       = finalize Examples.ts 0 0 Examples.env_steady s2
       /\ reads s2 = 0%nat.
Proof.
  assert (Hclock : F64.ltb (clock Examples.env_steady 1)
                     (clock Examples.env_steady 0) = false)
    by (vm_compute; reflexivity).
  split; [exact Hclock|].
  destruct (zero_duration_makes_no_pass Examples.env_steady (initial []) 0
              eq_refl Hclock) as (s2 & evs & Hrun & Hreads & _).
  exists s2. split; assumption.
Defined.

(** ** Sessions that end in an exception *)

Lemma finalize_without_audio_eq (ts : string) (duration : Z) (written : nat)
      (env : Env) (s : State) :
  delivered env = [] ->
  finalize ts duration written env s
  = (mkState (ticks s) (reads s) (runs s) (files s)
             (log s ++ [EvStreamStop; EvCapRelease; EvWriterRelease]),
     Raise ValueError).
Proof.
  intros Hdel. destruct s as [t r n fs lg].
  unfold_prims. cbn. rewrite Hdel. cbn. normalize_log. reflexivity.
Qed.

(** X5.  A session during which the audio stream delivered no block ends,
    after the capture loop, in the [ValueError] of [np.concatenate]: no audio
    file is written, no external command is run, no file is removed (the raw
    video file stays in the directory) and [finished_recording] is not
    emitted. *)
Theorem session_without_audio_blocks_raises :
  forall (env : Env) (s : State) (duration : Z) (fuel k : nat),
    audio_opens env = true ->
    writer_opens env = true ->
    delivered env = [] ->
    (k < fuel)%nat ->
    still_capturing env (S (ticks s))
      (F64.add (clock env (ticks s)) (F64.of_Z duration)) k = true ->
    F64.ltb (clock env (S (ticks s) + 2 * k))
            (F64.add (clock env (ticks s)) (F64.of_Z duration)) = false ->
    exists s' evs,
      run duration fuel env s = (s', Raise ValueError)
      /\ log s' = (log s ++ evs)%list
      /\ subprocess_calls evs = []
      /\ removed evs = []
      /\ emitted evs = []
      /\ exists_file (v_tmp_of (timestamp env)) (files s') = true
      /\ exists_file (a_tmp_of (timestamp env)) (files s')
         = exists_file (a_tmp_of (timestamp env)) (files s).
Proof.
  intros env s duration fuel k Haudio Hwriter Hdel Hk Hbefore Hexit.
  use_names (timestamp env).
  rewrite run_unfold by assumption.
  pose proof (starting_spec (timestamp env) env s) as Hstart.
  rewrite Haudio, Hwriter in Hstart.
  destruct (starting (timestamp env) env s) as [s1 r1] eqn:Hs1.
  inversion Hstart; subst s1 r1; clear Hstart. cbn [fst].
  match goal with
  | |- context [ticked ?s1] =>
      destruct (capture_exits_log env
                  (F64.add (clock env (ticks s)) (F64.of_Z duration)) k fuel
                  (mkLoop (clock env (ticks s)) 0) (ticked s1) Hk Hbefore Hexit)
        as (s2 & evs & Heq & Hlog & _ & Hc & He & Hr & Hf & _)
  end.
  unfold bind at 1. rewrite Heq.
  rewrite (finalize_without_audio_eq _ _ _ _ _ Hdel).
  cbn [ticked ticks reads runs files log] in Hlog, Hf.
  eexists. eexists. split; [reflexivity|]. cbn [log files].
  rewrite Hlog, Hf, <- !app_assoc.
  split; [reflexivity|].
  rewrite !subprocess_calls_app, !removed_app, !emitted_app, Hc, He, Hr.
  split; [reflexivity|]. split; [reflexivity|]. split; [reflexivity|].
  rewrite !exists_create, String.eqb_refl, Hav. split; reflexivity.
Qed.

(** Witness for X5: a healthy camera and clock, and a silent audio
    device. *)
Lemma session_without_audio_witness :
  delivered (mkEnv Examples.ts true true true (Examples.clock_every 25 1000)
                   (fun _ => true) [] (fun _ => (0, true))) = []
  /\ exists s',
       run 1 100
           (mkEnv Examples.ts true true true (Examples.clock_every 25 1000)
                  (fun _ => true) [] (fun _ => (0, true)))
           (initial [])
       = (s', Raise ValueError).
Proof.
  split; [reflexivity|].
  destruct (session_without_audio_blocks_raises
              (mkEnv Examples.ts true true true (Examples.clock_every 25 1000)
                     (fun _ => true) [] (fun _ => (0, true)))
              (initial []) 1 100%nat 20%nat eq_refl eq_refl eq_refl
              ltac:(lia))
    as (s' & evs & Hrun & _).
  - vm_compute. reflexivity.
  - vm_compute. reflexivity.
  - exists s'. exact Hrun.
Defined.



(** ** Files of other sessions *)

(** A file that is not one of the three temp files of the session survives
    the finalisation, however it ends. *)
Lemma finalize_keeps_other_files (ts : string) (duration : Z) (written : nat)
      (env : Env) (s : State) (p : string) :
  (p =? v_tmp_of ts)%string = false ->
  (p =? a_tmp_of ts)%string = false ->
  (p =? fixed_video_of ts)%string = false ->
  exists_file p (files s) = true ->
  exists_file p (files (fst (finalize ts duration written env s))) = true.
Proof.
  intros Hpv Hpa Hpf Hp.
  destruct s as [t r n fs lg]. cbn [files] in Hp.
  unfold_prims. cbn.
  destruct (delivered env) as [|b bs]; cbn; [exact Hp|].
  destruct (duration =? 0); cbn; crunch;
    repeat (rewrite ?exists_delete, ?exists_create, ?Hpv, ?Hpa, ?Hpf, ?Hp,
              ?last_retime, ?last_mux, ?orb_true_r; cbn);
    reflexivity.
Qed.

Lemma final_is_no_temp_file (ts ts' : string) :
  ((final_of ts' =? v_tmp_of ts) = false
   /\ (final_of ts' =? a_tmp_of ts) = false
   /\ (final_of ts' =? fixed_video_of ts) = false)%string.
Proof. repeat split; reflexivity. Qed.

(** X7.  Whatever the outcome of a session, its clean-up removes none of
    the finished recordings in the directory, its own or those of other
    sessions: the only files a finalisation can remove are the three temp
    files that carry its own timestamp. *)
Theorem cleanup_spares_finished_recordings :
  forall (ts ts' : string) (duration : Z) (written : nat) (env : Env)
         (s : State),
    exists_file (final_of ts') (files s) = true ->
    exists_file (final_of ts')
      (files (fst (finalize ts duration written env s))) = true.
Proof.
  intros ts ts' duration written env s Hfile.
  destruct (final_is_no_temp_file ts ts') as (Hv & Ha & Hf).
  apply finalize_keeps_other_files; assumption.
Qed.

(** Witness for X7: a failing session beside an earlier recording. *)
Lemma cleanup_spares_witness :
  exists_file (final_of "20231231_235959")
    (files (fst (finalize Examples.ts 1 15 Examples.env_mux_fails
                   (mkState 41 20 0
                      [final_of "20231231_235959"; v_tmp_of Examples.ts] []))))
  = true.
Proof.
  apply (cleanup_spares_finished_recordings Examples.ts "20231231_235959").
  reflexivity.
Defined.

(** ** The names of a session *)

Lemma string_length_append (a b : string) :
  String.length (a ++ b) = (String.length a + String.length b)%nat.
Proof. induction a as [|c a IH]; cbn; [reflexivity|rewrite IH; reflexivity]. Qed.

Lemma append_cancel_r (suffix : string) : forall a b : string,
  (a ++ suffix = b ++ suffix)%string -> a = b.
Proof.
  induction a as [|c a IH]; intros [|d b] Heq; cbn in Heq.
  - reflexivity.
  - apply (f_equal String.length) in Heq. cbn in Heq.
    rewrite string_length_append in Heq. lia.
  - apply (f_equal String.length) in Heq. cbn in Heq.
    rewrite string_length_append in Heq. lia.
  - inversion Heq; subst. f_equal. apply IH. assumption.
Qed.

(** X8.  The file names of a session determine its timestamp: two sessions
    share a raw video, audio, retimed video or final file name only if their
    timestamps are equal, and a name of one kind is never a name of another
    kind, whatever the timestamps. *)
Theorem session_names_are_injective :
  forall ts1 ts2 : string,
    (v_tmp_of ts1 = v_tmp_of ts2 -> ts1 = ts2)
    /\ (a_tmp_of ts1 = a_tmp_of ts2 -> ts1 = ts2)
    /\ (fixed_video_of ts1 = fixed_video_of ts2 -> ts1 = ts2)
    /\ (final_of ts1 = final_of ts2 -> ts1 = ts2)
    /\ v_tmp_of ts1 <> a_tmp_of ts2
    /\ v_tmp_of ts1 <> fixed_video_of ts2
    /\ v_tmp_of ts1 <> final_of ts2
    /\ a_tmp_of ts1 <> fixed_video_of ts2
    /\ a_tmp_of ts1 <> final_of ts2
    /\ fixed_video_of ts1 <> final_of ts2.
Proof.
  intros ts1 ts2. unfold v_tmp_of, a_tmp_of, fixed_video_of, final_of.
  repeat split; try (cbn; discriminate);
    intros Heq; cbn in Heq; inversion Heq as [Hrest];
    exact (append_cancel_r _ _ _ Hrest).
Qed.

(* ================================================================== *)
(** * Further properties of the application *)
(* ================================================================== *)

(** Once the flag is set with no recorder thread alive, nothing clears it
    and no recorder is started again. *)
Lemma gate_shut_forever (inputs : list App.input) :
  forall s s',
    App.rec_active (App.app s) = true ->
    App.sessions s = 0%nat ->
    App.handle_all inputs s = Some s' ->
    App.rec_active (App.app s') = true
    /\ App.sessions s' = 0%nat
    /\ App.count_recorders (App.all_commands inputs s) = 0%nat.
Proof.
  induction inputs as [|i inputs IH]; intros s s' Hon Hzero Hrun;
    cbn in Hrun.
  - inversion Hrun; subst. repeat split; assumption.
  - destruct (App.handle i s) as [s1|] eqn:Hstep; [|discriminate].
    assert (Hs1 : App.rec_active (App.app s1) = true
                  /\ App.sessions s1 = 0%nat
                  /\ App.count_recorders (App.commands_of i s) = 0%nat).
    { destruct s as [a n]. cbn [App.app App.sessions] in *. subst n.
      destruct i; cbn in Hstep |- *.
      - inversion Hstep; subst; cbn. auto.
      - inversion Hstep; subst; clear Hstep.
        unfold App.stop_mon, App.stop_mon_finish, App.stop_mon_request.
        cbn. destruct (App.mon a); cbn; auto.
      - inversion Hstep; subst; cbn. auto.
      - inversion Hstep; subst; cbn. auto.
      - unfold App.on_spike in *. rewrite Hon in *.
        inversion Hstep; subst; cbn. auto.
      - discriminate. }
    destruct Hs1 as (Hon1 & Hzero1 & Hnone).
    destruct (IH s1 s' Hon1 Hzero1 Hrun) as (Hon' & Hzero' & Hrest).
    split; [exact Hon'|]. split; [exact Hzero'|].
    cbn [App.all_commands]. rewrite Hstep.
    unfold App.count_recorders in *. rewrite filter_app, length_app.
    rewrite Hnone, Hrest. reflexivity.
Qed.

(** X9.  A recording session that ends in an exception leaves [rec_active]
    set for good: whatever happens afterwards (spikes, button presses,
    changes of the widgets), the flag stays set and no recorder thread is
    ever started again. *)
Theorem failed_session_shuts_the_gate_for_good :
  forall (s s1 s' : App.system) (e : exn) (inputs : list App.input),
    App.gate_invariant s ->
    App.handle (App.SessionEnds (Raise e)) s = Some s1 ->
    App.handle_all inputs s1 = Some s' ->
    App.rec_active (App.app s') = true
    /\ App.sessions s' = 0%nat
    /\ App.count_recorders (App.all_commands inputs s1) = 0%nat.
Proof.
  intros s s1 s' e inputs (Hle & Hon & _) Hend Hrun.
  destruct s as [a n]. cbn [App.app App.sessions] in *.
  cbn in Hend. destruct n as [|n]; [discriminate|].
  assert (n = 0)%nat by lia. subst n.
  inversion Hend; subst s1; clear Hend.
  apply (gate_shut_forever inputs (App.mkSystem a 0) s').
  - apply Hon. reflexivity.
  - reflexivity.
  - exact Hrun.
Qed.

(** Witness for X9: a spike, a session that dies of a missing file, and
    three more spikes. *)
Lemma failed_session_witness :
  App.handle_all
    [App.Spike;
     App.SessionEnds (Raise (FileNotFoundError "vfix_1.mp4"));
     App.Spike; App.ClickStop; App.ClickStart; App.Spike]
    App.boot
  = Some (App.mkSystem
            (App.mkApp "Status: Listening…" (-30) 10
                       (Some (Level.mkMonitor (-30) false)) (Some 10) true) 0)
  /\ App.count_recorders
       (App.all_commands [App.Spike; App.ClickStop; App.ClickStart; App.Spike]
          (App.mkSystem
             (App.mkApp "Status: Recording…" (-30) 10 None (Some 10) true) 0))
     = 0%nat.
Proof.
  split; [reflexivity|].
  refine (proj2 (proj2 (failed_session_shuts_the_gate_for_good
            (App.mkSystem
               (App.mkApp "Status: Recording…" (-30) 10 None (Some 10) true) 1)
            _ _ (FileNotFoundError "vfix_1.mp4")
            [App.Spike; App.ClickStop; App.ClickStart; App.Spike]
            _ eq_refl eq_refl))).
  unfold App.gate_invariant. cbn. repeat split; try lia.
Defined.

(** Only the two monitoring buttons touch the monitor. *)
Lemma monitor_kept_by_other_inputs (inputs : list App.input) :
  forall s s',
    forallb (fun i => negb (App.is_button i)) inputs = true ->
    App.handle_all inputs s = Some s' ->
    App.mon (App.app s') = App.mon (App.app s).
Proof.
  induction inputs as [|i inputs IH]; intros s s' Hnone Hrun; cbn in Hrun.
  - inversion Hrun; subst. reflexivity.
  - cbn [forallb] in Hnone. apply andb_true_iff in Hnone as [Hi Hrest].
    destruct (App.handle i s) as [s1|] eqn:Hstep; [|discriminate].
    rewrite (IH s1 s' Hrest Hrun).
    destruct s as [a n].
    destruct i; try discriminate; cbn in Hstep.
    + inversion Hstep; subst; reflexivity.
    + inversion Hstep; subst; reflexivity.
    + unfold App.on_spike in Hstep. destruct (App.rec_active a);
        inversion Hstep; subst; reflexivity.
    + destruct n as [|n]; [discriminate|].
      destruct result; inversion Hstep; subst; reflexivity.
Qed.

(** X10.  A monitor listens with the threshold the slider showed when
    monitoring was started: [start_mon] copies the value into the monitor,
    and no later input other than the two monitoring buttons changes the
    monitor, so moving the slider does not retune a running monitor. *)
Theorem threshold_is_fixed_at_start :
  forall (s s1 s' : App.system) (inputs : list App.input),
    App.handle App.ClickStart s = Some s1 ->
    forallb (fun i => negb (App.is_button i)) inputs = true ->
    App.handle_all inputs s1 = Some s' ->
    App.mon (App.app s')
    = Some (Level.mkMonitor (App.slider (App.app s)) false).
Proof.
  intros s s1 s' inputs Hstart Hnone Hrun.
  rewrite (monitor_kept_by_other_inputs inputs s1 s' Hnone Hrun).
  cbn in Hstart. inversion Hstart; subst. reflexivity.
Qed.

(** Witness for X10: the slider is moved to -10 after the start. *)
Lemma threshold_is_fixed_witness :
  App.handle_all
    [App.ClickStart; App.SetSlider (-10); App.Spike; App.SetSlider (-5)]
    App.boot
  = Some (App.mkSystem
            (App.mkApp "Status: Recording…" (-5) 10
                       (Some (Level.mkMonitor (-30) false)) (Some 10) true) 1)
  /\ App.mon
       (App.app
          (App.mkSystem
             (App.mkApp "Status: Recording…" (-5) 10
                        (Some (Level.mkMonitor (-30) false)) (Some 10) true) 1))
     = Some (Level.mkMonitor (App.slider (App.app App.boot)) false).
Proof.
  split; [reflexivity|].
  exact (threshold_is_fixed_at_start App.boot _ _
           [App.SetSlider (-10); App.Spike; App.SetSlider (-5)]
           eq_refl eq_refl eq_refl).
Defined.

(** Inputs handled from two states with the same recording side, one
    sequence with the button presses and one without. *)
Lemma buttons_do_not_interfere (inputs : list App.input) :
  forall s t,
    App.recording_view s = App.recording_view t ->
    option_map App.recording_view
               (App.handle_all (App.without_buttons inputs) s)
    = option_map App.recording_view (App.handle_all inputs t)
    /\ App.recorder_durations
         (App.all_commands (App.without_buttons inputs) s)
       = App.recorder_durations (App.all_commands inputs t).
Proof.
  unfold App.without_buttons.
  induction inputs as [|i inputs IH]; intros s t Hview.
  - cbn. rewrite Hview. split; reflexivity.
  - destruct s as [a n], t as [b m].
    unfold App.recording_view in Hview. cbn in Hview.
    inversion Hview as [[Hdur Hrec Hact Hn]]. subst m.
    destruct i;
      cbn [filter App.is_button negb App.handle_all
           App.all_commands App.handle App.commands_of App.app App.sessions
           fst snd App.start_mon].
    + destruct (IH (App.mkSystem a n)
                   (App.mkSystem
                      (App.mkApp "Status: Listening…" (App.slider b)
                                 (App.dur_box b)
                                 (Some (App.new_monitor (App.slider b)))
                                 (App.rec b) (App.rec_active b)) n))
        as [Hv Hc].
      { unfold App.recording_view. cbn. congruence. }
      split; [exact Hv|]. exact Hc.
    + destruct (IH (App.mkSystem a n) (App.mkSystem (App.stop_mon b) n))
        as [Hv Hc].
      { unfold App.recording_view, App.stop_mon, App.stop_mon_finish,
          App.stop_mon_request. cbn.
        destruct (App.mon b); cbn; congruence. }
      split; [exact Hv|]. rewrite app_nil_l. exact Hc.
    + destruct (IH (App.mkSystem
                      (App.mkApp (App.status a) v (App.dur_box a) (App.mon a)
                                 (App.rec a) (App.rec_active a)) n)
                   (App.mkSystem
                      (App.mkApp (App.status b) v (App.dur_box b) (App.mon b)
                                 (App.rec b) (App.rec_active b)) n))
        as [Hv Hc].
      { unfold App.recording_view. cbn. congruence. }
      split; [exact Hv|]. rewrite !app_nil_l. exact Hc.
    + destruct (IH (App.mkSystem
                      (App.mkApp (App.status a) (App.slider a) v (App.mon a)
                                 (App.rec a) (App.rec_active a)) n)
                   (App.mkSystem
                      (App.mkApp (App.status b) (App.slider b) v (App.mon b)
                                 (App.rec b) (App.rec_active b)) n))
        as [Hv Hc].
      { unfold App.recording_view. cbn. congruence. }
      split; [exact Hv|]. rewrite !app_nil_l. exact Hc.
    + unfold App.on_spike. rewrite <- Hact.
      destruct (App.rec_active a) eqn:Ha; cbn [fst snd].
      * destruct (IH (App.mkSystem a (n + App.count_recorders []))
                     (App.mkSystem b (n + App.count_recorders [])))
          as [Hv Hc].
        { unfold App.recording_view. cbn. congruence. }
        split; [exact Hv|]. rewrite !app_nil_l. exact Hc.
      * destruct (IH (App.mkSystem
                        (App.mkApp "Status: Recording…" (App.slider a)
                                   (App.dur_box a) (App.mon a)
                                   (Some (App.dur_box a)) true)
                        (n + App.count_recorders
                               [App.StartRecorder (App.dur_box a)]))
                     (App.mkSystem
                        (App.mkApp "Status: Recording…" (App.slider b)
                                   (App.dur_box b) (App.mon b)
                                   (Some (App.dur_box b)) true)
                        (n + App.count_recorders
                               [App.StartRecorder (App.dur_box b)])))
          as [Hv Hc].
        { unfold App.recording_view. cbn. congruence. }
        split; [exact Hv|].
        unfold App.recorder_durations in *.
        rewrite !flat_map_app. cbn [flat_map]. rewrite Hc, Hdur. reflexivity.
    + destruct n as [|n]; [split; reflexivity|].
      destruct result as [f|e|].
      * destruct (IH (App.mkSystem (App.on_done f a) n)
                     (App.mkSystem (App.on_done f b) n)) as [Hv Hc].
        { unfold App.recording_view. cbn. congruence. }
        split; [exact Hv|]. rewrite !app_nil_l. exact Hc.
      * destruct (IH (App.mkSystem a n) (App.mkSystem b n)) as [Hv Hc].
        { unfold App.recording_view. cbn. congruence. }
        split; [exact Hv|]. rewrite !app_nil_l. exact Hc.
      * destruct (IH (App.mkSystem a n) (App.mkSystem b n)) as [Hv Hc].
        { unfold App.recording_view. cbn. congruence. }
        split; [exact Hv|]. rewrite !app_nil_l. exact Hc.
Qed.

(** X11.  The two monitoring buttons do not interfere with recording:
    along any sequence of inputs, the recorder threads that are started,
    their durations, and the recording side of the final state
    ([rec_active], the recorder, the spin box, the threads alive) are those
    of the same sequence without the button presses.  Stopping the monitor
    neither ends a recording in progress nor reopens the gate. *)
Theorem monitor_buttons_do_not_affect_recording :
  forall (inputs : list App.input) (s : App.system),
    option_map App.recording_view
               (App.handle_all (App.without_buttons inputs) s)
    = option_map App.recording_view (App.handle_all inputs s)
    /\ App.recorder_durations
         (App.all_commands (App.without_buttons inputs) s)
       = App.recorder_durations (App.all_commands inputs s).
Proof.
  intros inputs s. apply buttons_do_not_interfere. reflexivity.
Qed.

(** ** The ranges of the widgets *)

Lemma bound_in_range (lo hi v : Z) :
  lo <= hi -> lo <= App.bound lo hi v <= hi.
Proof. unfold App.bound. lia. Qed.

Lemma in_ranges_step (g : App.gesture) (s s' : App.system) :
  App.in_ranges (App.app s) ->
  App.handle (App.input_of g) s = Some s' ->
  App.in_ranges (App.app s')
  /\ Forall App.in_range (App.commands_of (App.input_of g) s).
Proof.
  intros [Hs Hd] Hstep. destruct s as [a n]. cbn [App.app] in *.
  unfold App.in_ranges.
  destruct g; cbn in Hstep |- *.
  - inversion Hstep; subst; cbn. repeat split; try tauto.
    constructor; [exact Hs|constructor].
  - inversion Hstep; subst; clear Hstep.
    unfold App.stop_mon, App.stop_mon_finish, App.stop_mon_request. cbn.
    destruct (App.mon a); cbn; repeat split; try tauto; constructor.
  - inversion Hstep; subst; cbn.
    pose proof (bound_in_range App.slider_min App.slider_max v) as Hb.
    repeat split; try tauto; try (apply Hb; unfold App.slider_min,
      App.slider_max; lia). constructor.
  - inversion Hstep; subst; cbn.
    pose proof (bound_in_range App.dur_min App.dur_max v) as Hb.
    repeat split; try tauto; try (apply Hb; unfold App.dur_min,
      App.dur_max; lia). constructor.
  - unfold App.on_spike in *. destruct (App.rec_active a);
      inversion Hstep; subst; cbn; repeat split; try tauto.
    + constructor.
    + constructor; [exact Hd|constructor].
  - destruct n as [|n]; [discriminate|].
    destruct result; inversion Hstep; subst; cbn; repeat split; try tauto;
      constructor.
Qed.

Lemma in_ranges_run (gestures : list App.gesture) :
  forall s s',
    App.in_ranges (App.app s) ->
    App.handle_all (map App.input_of gestures) s = Some s' ->
    App.in_ranges (App.app s')
    /\ Forall App.in_range (App.all_commands (map App.input_of gestures) s).
Proof.
  induction gestures as [|g gestures IH]; intros s s' Hin Hrun;
    cbn [map App.handle_all App.all_commands] in *.
  - inversion Hrun; subst. split; [assumption|constructor].
  - destruct (App.handle (App.input_of g) s) as [s1|] eqn:Hstep;
      [|discriminate].
    destruct (in_ranges_step g s s1 Hin Hstep) as [Hin1 Hcmd].
    destruct (IH s1 s' Hin1 Hrun) as [Hin' Hrest].
    split; [exact Hin'|]. apply Forall_app. split; assumption.
Qed.

(** X12.  Through the window, the threshold stays within -60..0 and the
    duration within 5..600 (each widget keeps its value within the range of
    lines 83-84): every monitor is started with a threshold of that range
    and every recorder with a duration of that range, so no recorder is
    started with a duration of zero. *)
Theorem widget_ranges_bound_the_threads :
  forall (gestures : list App.gesture) (s' : App.system),
    App.handle_all (map App.input_of gestures) App.boot = Some s' ->
    (-60 <= App.slider (App.app s') <= 0)
    /\ (5 <= App.dur_box (App.app s') <= 600)
    /\ (forall threshold,
           In (App.StartMonitor threshold)
              (App.all_commands (map App.input_of gestures) App.boot) ->
           -60 <= threshold <= 0)
    /\ (forall duration,
           In (App.StartRecorder duration)
              (App.all_commands (map App.input_of gestures) App.boot) ->
           5 <= duration <= 600 /\ duration <> 0).
Proof.
  intros gestures s' Hrun.
  destruct (in_ranges_run gestures App.boot s') as [[Hs Hd] Hcmds].
  - unfold App.in_ranges, App.slider_min, App.slider_max, App.dur_min,
      App.dur_max. cbn. lia.
  - exact Hrun.
  - rewrite Forall_forall in Hcmds.
    split; [exact Hs|]. split; [exact Hd|]. split.
    + intros threshold Hin. exact (Hcmds _ Hin).
    + intros duration Hin. pose proof (Hcmds _ Hin) as Hr.
      unfold App.in_range, App.dur_min, App.dur_max in Hr. lia.
Qed.

(** Witness for X12: a duration of 0 is typed into the spin box before a
    spike arrives. *)
Lemma widget_ranges_witness :
  App.all_commands
    (map App.input_of [App.EditDuration 0; App.MoveSlider 7; App.PressStart;
                       App.Hear])
    App.boot
  = [App.StartMonitor 0; App.StartRecorder 5]
  /\ 5 <= 5 <= 600.
Proof.
  split; [reflexivity|].
  refine (proj1 (proj2 (proj2 (proj2 (widget_ranges_bound_the_threads
            [App.EditDuration 0; App.MoveSlider 7; App.PressStart; App.Hear]
            _ eq_refl))) 5 _)).
  right. left. reflexivity.
Defined.

(* ================================================================== *)
(** * Further properties of the monitors *)
(* ================================================================== *)

(** ** [stop_mon] before the thread has begun *)

Lemma stuck_local (a : thread_action) (t t' : thread) :
  (at_phase t = Scheduled /\ Level.running (self t) = false)
  \/ (Level.running (self t) = true
      /\ (at_phase t = Started \/ at_phase t = Listening)) ->
  a <> OpenFails ->
  local a t = Some t' ->
  (at_phase t' = Scheduled /\ Level.running (self t') = false)
  \/ (Level.running (self t') = true
      /\ (at_phase t' = Started \/ at_phase t' = Listening)).
Proof.
  intros Hst Ha Hl.
  destruct a; cbn in Hl; try congruence.
  - destruct (at_phase t) eqn:Hp; try discriminate.
    inversion Hl; subst; cbn. right. auto.
  - destruct (at_phase t) eqn:Hp; try discriminate.
    inversion Hl; subst; cbn. right.
    destruct Hst as [[Hs _]|[Hr _]]; [discriminate|auto].
  - destruct (at_phase t) eqn:Hp; try discriminate.
    destruct (pending t); try discriminate.
    destruct Hst as [[Hs _]|[Hr _]]; [discriminate|].
    rewrite Hr in Hl. inversion Hl; subst; cbn. right. auto.
  - destruct (pending t); try discriminate.
    inversion Hl; subst; cbn. exact Hst.
  - destruct (at_phase t) eqn:Hp; try discriminate.
    destruct Hst as [[Hs _]|[Hr _]]; [discriminate|].
    rewrite Hr in Hl. inversion Hl; subst. right. auto.
Qed.

(** In a stuck state [wait()] cannot return, and every step but the
    failure of the monitor's stream leads to a stuck state. *)
Lemma stuck_step (i : nat) (act : action) (s s' : sys) :
  stuck i s -> act <> On i OpenFails -> step act s = Some s' ->
  stuck i s' /\ act <> StopReturns.
Proof.
  intros (Hw & Hm & t & Ht & Hst) Hact Hstep.
  pose proof (step_window act s s' Hstep) as Hwin.
  pose proof (step_thread act s s' i t Hstep Ht) as Hth.
  destruct act.
  - destruct Hwin as [Hw0 _]. congruence.
  - destruct Hwin as [Hw0 _]. congruence.
  - destruct Hwin as [Hw0 _]. congruence.
  - destruct Hwin as (_ & (k & tk & Hk & Htk & Hfin) & _).
    rewrite Hm in Hk. inversion Hk; subst k.
    rewrite Ht in Htk. inversion Htk; subst tk.
    destruct Hst as [[Hs _]|[_ [Hs|Hs]]]; congruence.
  - destruct Hwin as (Hm' & Hw' & _ & _).
    split; [|discriminate].
    unfold stuck. rewrite Hw', Hm'. split; [exact Hw|]. split; [exact Hm|].
    destruct (Nat.eqb_spec i0 i) as [->|Hne].
    + destruct (step_on_inv i a s s' Hstep) as (t0 & t' & Ht0 & Hl & _).
      rewrite Ht in Ht0. inversion Ht0; subst t0.
      rewrite Hl in Hth. exists t'. split; [exact Hth|].
      apply (stuck_local a t t' Hst); [|exact Hl].
      intros ->. apply Hact. reflexivity.
    + exists t. auto.
Qed.

Lemma stuck_forever (i : nat) (acts : list action) :
  forall s s' out,
    stuck i s -> ~ In (On i OpenFails) acts ->
    exec acts s = Some (s', out) ->
    stuck i s' /\ ~ In StopReturns acts.
Proof.
  induction acts as [|act acts IH]; intros s s' out Hstuck Hno Hexec;
    cbn in Hexec.
  - inversion Hexec; subst. split; [assumption|intros []].
  - destruct (step act s) as [s1|] eqn:Hstep; [|discriminate].
    destruct (exec acts s1) as [[s2 out2]|] eqn:Hrest; [|discriminate].
    inversion Hexec; subst; clear Hexec.
    assert (Hact : act <> On i OpenFails)
      by (intros ->; apply Hno; left; reflexivity).
    destruct (stuck_step i act s s1 Hstuck Hact Hstep) as [Hstuck1 Hret].
    destruct (IH s1 s' out2 Hstuck1) as [Hstuck' Hno'];
      [intros Hin; apply Hno; right; exact Hin|exact Hrest|].
    split; [exact Hstuck'|].
    intros [Heq|Hin]; [congruence|exact (Hno' Hin)].
Qed.

Lemma step_on_intro (i : nat) (a : thread_action) (s : sys) (t t' : thread) :
  thread_at s i = Some t -> local a t = Some t' ->
  step (On i a) s = Some (with_thread s i t').
Proof. intros Ht Hl. cbn. rewrite Ht, Hl. reflexivity. Qed.

Lemma thread_at_with_thread (i : nat) (s : sys) (t t' : thread) :
  thread_at s i = Some t -> thread_at (with_thread s i t') i = Some t'.
Proof. unfold thread_at, with_thread. cbn. apply nth_error_update_eq. Qed.

Lemma emits_on (i : nat) (a : thread_action) (s : sys) (t : thread) :
  thread_at s i = Some t -> local_emits a t = [] -> emits (On i a) s = [].
Proof. intros Ht He. cbn. rewrite Ht, He. reflexivity. Qed.

Lemma step_returns_intro (s : sys) (i : nat) (t : thread) :
  waiting s = true -> mon s = Some i -> thread_at s i = Some t ->
  at_phase t = Finished ->
  step StopReturns s = Some (mkSys (slider s) (threads s) None false).
Proof. intros Hw Hm Ht Hp. cbn. rewrite Hw, Hm, Ht, Hp. reflexivity. Qed.

(** A stream that cannot be opened ends the thread, and [wait()]
    returns. *)
Lemma stream_failure_lets_stop_return (i : nat) (s0 : sys) (t : thread) :
  waiting s0 = false -> mon s0 = Some i -> thread_at s0 i = Some t ->
  at_phase t = Scheduled ->
  exists s'',
    exec [StopMonitoring; On i Run; On i OpenFails; StopReturns] s0
    = Some (s'', [])
    /\ mon s'' = None /\ waiting s'' = false.
Proof.
  intros Hw Hm Ht Hsched.
  set (s1 := mkSys (slider s0) (update i (stopped t) (threads s0))
                   (Some i) true).
  set (tr := mkThread (App.set_running (self (stopped t))) Started
                      (pending t)).
  set (tf := mkThread (self tr) Finished (pending t)).
  assert (Hstop : step StopMonitoring s0 = Some s1)
    by (cbn; rewrite Hw, Hm, Ht; reflexivity).
  assert (Ht1 : thread_at s1 i = Some (stopped t))
    by (exact (nth_error_update_eq i (stopped t) t _ Ht)).
  assert (Hrun : step (On i Run) s1 = Some (with_thread s1 i tr))
    by (apply (step_on_intro i Run s1 (stopped t)); [exact Ht1|];
        cbn; rewrite Hsched; reflexivity).
  pose proof (thread_at_with_thread i s1 (stopped t) tr Ht1) as Ht2.
  assert (Hfail : step (On i OpenFails) (with_thread s1 i tr)
                  = Some (with_thread (with_thread s1 i tr) i tf))
    by (apply (step_on_intro i OpenFails _ tr); [exact Ht2|reflexivity]).
  pose proof (thread_at_with_thread i _ tr tf Ht2) as Ht3.
  pose proof (step_returns_intro (with_thread (with_thread s1 i tr) i tf)
                i tf eq_refl eq_refl Ht3 eq_refl) as Hret.
  eexists. cbn [exec]. rewrite Hstop, Hrun, Hfail, Hret.
  rewrite (emits_on i Run s1 (stopped t) Ht1)
    by (unfold local_emits; destruct (pending (stopped t)); reflexivity).
  rewrite (emits_on i OpenFails _ tr Ht2)
    by (unfold local_emits; destruct (pending tr); reflexivity).
  cbn. split; [reflexivity|]. auto.
Qed.

(** X13.  If [stop_mon] is called on a monitor whose thread has not yet
    executed its first statement, [stop_mon] does not return as long as the
    thread's stream opens: the thread sets [running] again when it begins,
    its loop never ends and [wait()] blocks, under every schedule, whatever
    blocks arrive and whatever the other monitors do.  The one way out is a
    stream that cannot be opened: then [run] ends with the exception and
    [wait()] returns. *)
Theorem stop_before_thread_start_never_returns :
  forall (acts : list action) (s0 s' : sys) (out : list emission)
         (i : nat) (t : thread),
    mon s0 = Some i ->
    thread_at s0 i = Some t ->
    at_phase t = Scheduled ->
    exec (StopMonitoring :: acts) s0 = Some (s', out) ->
    (~ In (On i OpenFails) acts ->
     ~ In StopReturns acts
     /\ waiting s' = true
     /\ exists t', thread_at s' i = Some t' /\ at_phase t' <> Finished)
    /\ exists s'',
         exec [StopMonitoring; On i Run; On i OpenFails; StopReturns] s0
         = Some (s'', [])
         /\ mon s'' = None /\ waiting s'' = false.
Proof.
  intros acts s0 s' out i t Hm Ht Hsched Hexec.
  cbn [exec] in Hexec.
  destruct (step StopMonitoring s0) as [s1|] eqn:Hstop; [|discriminate].
  destruct (exec acts s1) as [[s2 out2]|] eqn:Hrest; [|discriminate].
  inversion Hexec; subst s2; clear Hexec.
  destruct (step_window StopMonitoring s0 s1 Hstop)
    as (Hw0 & Hm1 & _ & _ & _ & Hw1).
  pose proof (step_thread StopMonitoring s0 s1 i t Hstop Ht) as Ht1.
  rewrite (proj2 (holds_iff s0 i) Hm) in Ht1.
  assert (Hstuck : stuck i s1).
  { unfold stuck. split; [apply Hw1; congruence|].
    split; [congruence|]. exists (stopped t). split; [exact Ht1|].
    left. cbn. auto. }
  split.
  - intros Hno.
    destruct (stuck_forever i acts s1 s' out2 Hstuck Hno Hrest)
      as [(Hw & _ & t' & Ht' & Hst) Hret].
    split; [exact Hret|]. split; [exact Hw|]. exists t'.
    split; [exact Ht'|].
    destruct Hst as [[Hs _]|[_ [Hs|Hs]]]; congruence.
  - exact (stream_failure_lets_stop_return i s0 t Hw0 Hm Ht Hsched).
Qed.

(** Witness for X13: the thread begins after [stop_mon] was called; a loud
    block still raises the signal and [stop_mon] still waits. *)
Lemma stop_before_thread_start_witness :
  exists s0 s',
    exec [StartMonitoring] init = Some (s0, [])
    /\ exec [StopMonitoring; On 0 Run; On 0 Open;
             On 0 (Deliver Examples.loud); On 0 Compute; On 0 Poll] s0
       = Some (s', [(0%nat, Level.spike_detected)])
    /\ waiting s' = true.
Proof.
  eexists. eexists. split; [reflexivity|].
  match goal with
  | |- exec _ ?s0 = _ /\ _ =>
      split; [vm_compute; reflexivity|];
      eapply (proj1 (proj2 (proj1
                (stop_before_thread_start_never_returns
                   [On 0 Run; On 0 Open; On 0 (Deliver Examples.loud);
                    On 0 Compute; On 0 Poll]
                   s0 _ _ 0%nat _ eq_refl eq_refl eq_refl _) _)))
  end.
  Unshelve.
  all: try (vm_compute; reflexivity).
  - intros [H|[H|[H|[H|[H|[]]]]]]; discriminate H.
Defined.

(** ** After [stop()] has cleared the flag *)

Lemma emitted_by_self (i : nat) (l : list Level.signal) :
  emitted_by i (map (pair i) l) = map (pair i) l.
Proof.
  unfold emitted_by. induction l as [|x l IH]; [reflexivity|]. cbn.
  rewrite Nat.eqb_refl, IH. reflexivity.
Qed.

Lemma local_emits_length (a : thread_action) (t : thread) :
  (List.length (local_emits a t) <= callbacks t)%nat.
Proof.
  unfold local_emits, callbacks.
  destruct a; destruct (pending t); cbn; try lia.
  destruct (Level.is_spike _ _); cbn; lia.
Qed.

(** With the flag down no callback gets past line 19, and a callback in
    progress raises the signal at most once. *)
Lemma flag_down_local (a : thread_action) (t t' : thread) :
  flag_down t -> local a t = Some t' ->
  flag_down t'
  /\ (List.length (local_emits a t) + callbacks t' <= callbacks t)%nat.
Proof.
  unfold flag_down. intros [Hrun Hph] Hl.
  pose proof (local_emits_length a t) as Hlen.
  destruct a; cbn in Hl.
  - destruct (at_phase t); congruence.
  - destruct (at_phase t) eqn:Hp; try discriminate.
    inversion Hl; subst; cbn. split; [split; [exact Hrun|discriminate]|].
    unfold callbacks; cbn. destruct (pending t); cbn; lia.
  - destruct (at_phase t) eqn:Hp; try discriminate.
    inversion Hl; subst; cbn. split; [split; [exact Hrun|discriminate]|].
    unfold callbacks; cbn. destruct (pending t); cbn; lia.
  - destruct (at_phase t) eqn:Hp; try discriminate.
    destruct (pending t) eqn:Hq; try discriminate.
    rewrite Hrun in Hl. inversion Hl; subst.
    split; [split; [exact Hrun|congruence]|].
    unfold local_emits, callbacks. rewrite Hq. cbn. lia.
  - destruct (pending t) eqn:Hq; try discriminate.
    inversion Hl; subst. cbn [self at_phase].
    split; [split; assumption|].
    unfold callbacks in *. cbn [pending]. rewrite Hq in *. lia.
  - destruct (at_phase t) eqn:Hp; try discriminate.
    rewrite Hrun in Hl.
    destruct (pending t) eqn:Hq; try discriminate.
    inversion Hl; subst; cbn. split; [split; [exact Hrun|discriminate]|].
    unfold local_emits, callbacks. rewrite Hq. cbn. lia.
Qed.

Lemma flag_down_step (i : nat) (act : action) (s s' : sys) (t : thread) :
  thread_at s i = Some t -> flag_down t -> step act s = Some s' ->
  exists t',
    thread_at s' i = Some t' /\ flag_down t'
    /\ (List.length (emitted_by i (emits act s)) + callbacks t'
        <= callbacks t)%nat.
Proof.
  intros Ht Hdown Hstep.
  pose proof (step_thread act s s' i t Hstep Ht) as Hth.
  destruct act; cbn [emits];
    try (exists t; split; [exact Hth|split; [exact Hdown|cbn; lia]]).
  - destruct (holds s i).
    + exists (stopped t). split; [exact Hth|].
      destruct Hdown as [Hrun Hph]. unfold flag_down, callbacks. cbn.
      split; [auto|lia].
    + exists t. split; [exact Hth|split; [exact Hdown|cbn; lia]].
  - destruct (step_on_inv i0 a s s' Hstep) as (t0 & t' & Ht0 & Hl & _).
    rewrite Ht0.
    destruct (Nat.eqb_spec i0 i) as [->|Hne].
    + rewrite Ht in Ht0. inversion Ht0; subst t0.
      rewrite Hl in Hth. exists t'. split; [exact Hth|].
      rewrite emitted_by_self, length_map.
      exact (flag_down_local a t t' Hdown Hl).
    + exists t. split; [exact Hth|]. split; [exact Hdown|].
      rewrite emitted_by_other by exact Hne. cbn. lia.
Qed.

Lemma flag_down_run (i : nat) (acts : list action) :
  forall s s' out t,
    thread_at s i = Some t -> flag_down t ->
    exec acts s = Some (s', out) ->
    exists t',
      thread_at s' i = Some t' /\ flag_down t'
      /\ (List.length (emitted_by i out) + callbacks t' <= callbacks t)%nat.
Proof.
  induction acts as [|act acts IH]; intros s s' out t Ht Hdown Hexec;
    cbn in Hexec.
  - inversion Hexec; subst. exists t. cbn. auto.
  - destruct (step act s) as [s1|] eqn:Hstep; [|discriminate].
    destruct (exec acts s1) as [[s2 out2]|] eqn:Hrest; [|discriminate].
    inversion Hexec; subst; clear Hexec.
    destruct (flag_down_step i act s s1 t Ht Hdown Hstep)
      as (t1 & Ht1 & Hdown1 & Hlen1).
    destruct (IH s1 s' out2 t1 Ht1 Hdown1 Hrest)
      as (t' & Ht' & Hdown' & Hlen').
    exists t'. split; [exact Ht'|]. split; [exact Hdown'|].
    rewrite emitted_by_app, length_app. lia.
Qed.

(** X14.  Once [stop()] has cleared the flag of a monitor whose thread has
    already set it, that monitor emits at most one more [spike_detected],
    ever, and only from a callback that was already past the test of line
    19 when the flag was cleared: later blocks are dropped and its flag
    stays clear, whatever the window and the other monitors do. *)
Theorem at_most_one_spike_after_stop :
  forall (acts : list action) (s0 s' : sys) (out : list emission)
         (i : nat) (t : thread),
    mon s0 = Some i ->
    thread_at s0 i = Some t ->
    at_phase t <> Scheduled ->
    exec (StopMonitoring :: acts) s0 = Some (s', out) ->
    (List.length (emitted_by i out) <= 1)%nat
    /\ (pending t = None -> emitted_by i out = [])
    /\ exists t', thread_at s' i = Some t' /\ Level.running (self t') = false.
Proof.
  intros acts s0 s' out i t Hm Ht Hph Hexec.
  cbn [exec] in Hexec.
  destruct (step StopMonitoring s0) as [s1|] eqn:Hstop; [|discriminate].
  destruct (exec acts s1) as [[s2 out2]|] eqn:Hrest; [|discriminate].
  cbn [emits app] in Hexec. inversion Hexec; subst s2 out2; clear Hexec.
  pose proof (step_thread StopMonitoring s0 s1 i t Hstop Ht) as Ht1.
  rewrite (proj2 (holds_iff s0 i) Hm) in Ht1.
  assert (Hdown : flag_down (stopped t)) by (split; [reflexivity|exact Hph]).
  destruct (flag_down_run i acts s1 s' out (stopped t) Ht1 Hdown Hrest)
    as (t' & Ht' & [Hrun _] & Hlen).
  unfold callbacks in Hlen. cbn [stopped pending] in Hlen.
  split; [destruct (pending t); lia|]. split; [|exists t'; auto].
  intros Hp. rewrite Hp in Hlen.
  destruct (emitted_by i out); [reflexivity|cbn in Hlen; lia].
Qed.

(** Witness for X14: [stop_mon] is called while the callback computes the
    level of a loud block; a second loud block arrives afterwards. *)
Lemma at_most_one_spike_witness :
  exists s0 s',
    exec [StartMonitoring; On 0 Run; On 0 Open; On 0 (Deliver Examples.loud)]
         init
    = Some (s0, [])
    /\ exec [StopMonitoring; On 0 Compute; On 0 (Deliver Examples.loud);
             On 0 Poll; StopReturns] s0
       = Some (s', [(0%nat, Level.spike_detected)])
    /\ (List.length (emitted_by 0 [(0%nat, Level.spike_detected)]) <= 1)%nat.
Proof.
  eexists. eexists. split; [vm_compute; reflexivity|].
  match goal with
  | |- exec _ ?s0 = _ /\ _ =>
      split; [vm_compute; reflexivity|];
      eapply (proj1 (at_most_one_spike_after_stop
                       [On 0 Compute; On 0 (Deliver Examples.loud);
                        On 0 Poll; StopReturns]
                       s0 _ _ 0%nat _ eq_refl eq_refl _ _))
  end.
  Unshelve.
  all: try (vm_compute; reflexivity).
  - cbn. discriminate.
Defined.

(** ** [stop_mon] after the thread has begun *)

Lemma winding_down_local (a : thread_action) (t t' : thread) :
  flag_down t -> callback_in_stream t -> local a t = Some t' ->
  match a with
  | Deliver _ => t' = t
  | _ => (remaining t' < remaining t)%nat
  end.
Proof.
  intros [Hrun Hph] Hcb Hl. unfold callback_in_stream in Hcb.
  destruct a; cbn in Hl.
  - destruct (at_phase t); congruence.
  - destruct (at_phase t) eqn:Hp; try discriminate.
    inversion Hl; subst. unfold remaining, callbacks. cbn. rewrite Hp.
    destruct (pending t) eqn:Hq; [|lia].
    assert (Started = Listening) by (apply Hcb; discriminate). discriminate.
  - destruct (at_phase t) eqn:Hp; try discriminate.
    inversion Hl; subst. unfold remaining. cbn. rewrite Hp. lia.
  - destruct (at_phase t) eqn:Hp; try discriminate.
    destruct (pending t); try discriminate.
    rewrite Hrun in Hl. inversion Hl. reflexivity.
  - destruct (pending t) eqn:Hq; try discriminate.
    inversion Hl; subst.
    assert (Hp : at_phase t = Listening) by (apply Hcb; discriminate).
    unfold remaining, callbacks. cbn. rewrite Hp, Hq. lia.
  - destruct (at_phase t) eqn:Hp; try discriminate.
    rewrite Hrun in Hl.
    destruct (pending t) eqn:Hq; try discriminate.
    inversion Hl; subst. unfold remaining, callbacks. cbn.
    rewrite Hp, Hq. lia.
Qed.

(** While [stop_mon] waits for a monitor that runs with the flag clear, a
    step of that monitor brings the return of [stop_mon] nearer, and nothing
    else changes the monitor. *)
Lemma winding_down_step (i : nat) (act : action) (s s' : sys) (t : thread) :
  winding_down i s -> thread_at s i = Some t ->
  act <> StopReturns -> step act s = Some s' ->
  winding_down i s'
  /\ exists t',
       thread_at s' i = Some t'
       /\ (if is_own_step i act then (remaining t' < remaining t)%nat
           else t' = t).
Proof.
  intros (Hw & Hm & t0 & Ht0 & Hdown & Hcb) Ht Hact Hstep.
  rewrite Ht in Ht0. inversion Ht0; subst t0; clear Ht0.
  pose proof (step_window act s s' Hstep) as Hwin.
  pose proof (step_thread act s s' i t Hstep Ht) as Hth.
  destruct act; try (destruct Hwin as [Hw0 _]; congruence).
  destruct Hwin as (Hm' & Hw' & _ & _).
  unfold winding_down. rewrite Hm', Hw'.
  destruct (step_on_inv i0 a s s' Hstep) as (t0 & t' & Ht0 & Hl & _).
  cbn [is_own_step].
  destruct (Nat.eqb_spec i0 i) as [->|Hne].
  - rewrite Ht in Ht0. inversion Ht0; subst t0.
    rewrite Hl in Hth.
    pose proof (winding_down_local a t t' Hdown Hcb Hl) as Hdec.
    split.
    + split; [exact Hw|]. split; [exact Hm|]. exists t'.
      split; [exact Hth|].
      split; [exact (proj1 (flag_down_local a t t' Hdown Hl))|].
      exact (local_callback_in_stream a t t' Hcb Hl).
    + exists t'. split; [exact Hth|].
      destruct a; try rewrite Nat.eqb_refl; exact Hdec.
  - split.
    + split; [exact Hw|]. split; [exact Hm|]. exists t. auto.
    + exists t. split; [exact Hth|].
      destruct a; try reflexivity;
        destruct (Nat.eqb_spec i0 i); try contradiction; reflexivity.
Qed.

Lemma winding_down_run (i : nat) (acts : list action) :
  forall s s' out t,
    winding_down i s -> thread_at s i = Some t ->
    ~ In StopReturns acts ->
    exec acts s = Some (s', out) ->
    winding_down i s'
    /\ exists t',
         thread_at s' i = Some t'
         /\ (List.length (own_steps i acts) + remaining t'
             <= remaining t)%nat.
Proof.
  induction acts as [|act acts IH]; intros s s' out t Hwd Ht Hno Hexec;
    cbn in Hexec.
  - inversion Hexec; subst. split; [assumption|]. exists t. cbn. auto.
  - destruct (step act s) as [s1|] eqn:Hstep; [|discriminate].
    destruct (exec acts s1) as [[s2 out2]|] eqn:Hrest; [|discriminate].
    inversion Hexec; subst; clear Hexec.
    assert (Hact : act <> StopReturns)
      by (intros ->; apply Hno; left; reflexivity).
    destruct (winding_down_step i act s s1 t Hwd Ht Hact Hstep)
      as (Hwd1 & t1 & Ht1 & Hdec).
    destruct (IH s1 s' out2 t1 Hwd1 Ht1) as (Hwd' & t' & Ht' & Hlen);
      [intros Hin; apply Hno; right; exact Hin|exact Hrest|].
    split; [exact Hwd'|]. exists t'. split; [exact Ht'|].
    unfold own_steps in *. cbn [filter].
    destruct (is_own_step i act); cbn [List.length].
    + lia.
    + subst t1. exact Hlen.
Qed.

(** While [stop_mon] waits, the monitor can take a step or [wait()] can
    return. *)
Lemma winding_down_progress (i : nat) (s : sys) :
  winding_down i s ->
  exists act s',
    (is_own_step i act = true \/ act = StopReturns)
    /\ step act s = Some s'.
Proof.
  intros (Hw & Hm & t & Ht & [Hrun Hph] & Hcb).
  destruct (at_phase t) eqn:Hp; [congruence| | |].
  - exists (On i Open). eexists. split; [left; cbn; apply Nat.eqb_refl|].
    cbn. rewrite Ht. cbn. rewrite Hp. reflexivity.
  - destruct (pending t) eqn:Hq.
    + exists (On i Compute). eexists.
      split; [left; cbn; apply Nat.eqb_refl|].
      cbn. rewrite Ht. cbn. rewrite Hq. reflexivity.
    + exists (On i Poll). eexists.
      split; [left; cbn; apply Nat.eqb_refl|].
      cbn. rewrite Ht. cbn. rewrite Hp, Hrun, Hq. reflexivity.
  - exists StopReturns. eexists. split; [right; reflexivity|].
    cbn. rewrite Hw, Hm, Ht, Hp. reflexivity.
Qed.

Lemma remaining_bounds (t : thread) :
  flag_down t -> callback_in_stream t -> (1 <= remaining t <= 3)%nat.
Proof.
  intros [_ Hph] _. unfold remaining, callbacks.
  destruct (at_phase t); try congruence; try lia.
  destruct (pending t); lia.
Qed.

(** X15.  If [stop_mon] is called on a monitor whose thread has executed
    its first statement, it cannot hang on that monitor: however the threads
    are scheduled, whatever blocks arrive and whatever the other monitors
    do, the monitor takes at most two steps (opening its stream or failing
    to, finishing a callback, leaving the loop) before [wait()] can return;
    until then [stop_mon] waits and the monitor can take a next step or
    [wait()] can return; and the return of [wait()] leaves [self.mon] empty
    and the monitor terminated, with no callback in progress. *)
Theorem stop_after_thread_start_returns :
  forall (before acts : list action) (s0 s' : sys)
         (out0 out : list emission) (i : nat) (t : thread),
    exec before init = Some (s0, out0) ->
    mon s0 = Some i ->
    thread_at s0 i = Some t ->
    at_phase t = Started \/ at_phase t = Listening ->
    exec (StopMonitoring :: acts) s0 = Some (s', out) ->
    ~ In StopReturns acts ->
    (List.length (own_steps i acts) <= 2)%nat
    /\ waiting s' = true
    /\ (exists act s'',
           (is_own_step i act = true \/ act = StopReturns)
           /\ step act s' = Some s'')
    /\ (forall s'',
           step StopReturns s' = Some s'' ->
           mon s'' = None /\ waiting s'' = false
           /\ exists t', thread_at s'' i = Some t' /\ terminated t').
Proof.
  intros before acts s0 s' out0 out i t Hreach Hm Ht Hph Hexec Hno.
  pose proof (well_formed_run before init s0 out0 well_formed_init Hreach)
    as Hwf0.
  cbn [exec] in Hexec.
  destruct (step StopMonitoring s0) as [s1|] eqn:Hstop; [|discriminate].
  destruct (exec acts s1) as [[s2 out2]|] eqn:Hrest; [|discriminate].
  inversion Hexec; subst s2; clear Hexec.
  pose proof (well_formed_step _ _ _ Hwf0 Hstop) as Hwf1.
  pose proof (well_formed_run acts s1 s' out2 Hwf1 Hrest) as Hwf'.
  destruct (step_window StopMonitoring s0 s1 Hstop)
    as (_ & Hm1 & _ & _ & _ & Hw1).
  pose proof (step_thread StopMonitoring s0 s1 i t Hstop Ht) as Ht1.
  rewrite (proj2 (holds_iff s0 i) Hm) in Ht1.
  assert (Hdown : flag_down (stopped t)).
  { split; [reflexivity|]. cbn. destruct Hph as [Hp|Hp]; congruence. }
  assert (Hwd : winding_down i s1).
  { split; [apply Hw1; congruence|]. split; [congruence|].
    exists (stopped t). split; [exact Ht1|]. split; [exact Hdown|].
    exact (well_formed_thread s1 i _ Hwf1 Ht1). }
  destruct (winding_down_run i acts s1 s' out2 (stopped t) Hwd Ht1 Hno Hrest)
    as (Hwd' & t' & Ht' & Hlen).
  pose proof (remaining_bounds (stopped t) Hdown
                (well_formed_thread s1 i _ Hwf1 Ht1)) as Hb1.
  destruct Hwd' as (Hw' & Hm' & t'' & Ht'' & Hdown' & Hcb').
  rewrite Ht' in Ht''. inversion Ht''; subst t''.
  pose proof (remaining_bounds t' Hdown' Hcb') as Hb'.
  split; [lia|]. split; [exact Hw'|].
  split.
  { apply winding_down_progress. split; [exact Hw'|]. split; [exact Hm'|].
    exists t'. auto. }
  intros s'' Hret.
  destruct (stop_returns_releases i s' s'' Hwf' Hm' Hret)
    as (_ & _ & Hmn & Hwn & _ & _ & tr & Htr & Hterm).
  split; [exact Hmn|]. split; [exact Hwn|]. exists tr. auto.
Qed.

(** Witness for X15: [stop_mon] is called while a callback is in progress,
    and two more blocks arrive before the thread looks at the flag. *)
Lemma stop_after_thread_start_witness :
  exists s0 s',
    exec [StartMonitoring; On 0 Run; On 0 Open; On 0 (Deliver Examples.loud)]
         init
    = Some (s0, [])
    /\ exec [StopMonitoring; On 0 Compute; On 0 (Deliver Examples.silence);
             On 0 (Deliver Examples.loud); On 0 Poll] s0
       = Some (s', [(0%nat, Level.spike_detected)])
    /\ waiting s' = true.
Proof.
  eexists. eexists. split; [vm_compute; reflexivity|].
  split; [vm_compute; reflexivity|].
  eapply (proj1 (proj2 (stop_after_thread_start_returns
                   [StartMonitoring; On 0 Run; On 0 Open;
                    On 0 (Deliver Examples.loud)]
                   [On 0 Compute; On 0 (Deliver Examples.silence);
                    On 0 (Deliver Examples.loud); On 0 Poll]
                   _ _ _ _ 0%nat _ eq_refl eq_refl eq_refl _ _ _))).
  Unshelve.
  all: try (vm_compute; reflexivity).
  - right. reflexivity.
  - intros [H|[H|[H|[H|[]]]]]; discriminate H.
Defined.

(** ** Silence *)

Lemma slider_values_complete (t : Z) :
  App.slider_min <= t <= App.slider_max -> In t slider_values.
Proof.
  unfold slider_values, App.slider_min, App.slider_max. intros Ht.
  apply in_map_iff. exists (Z.to_nat (t + 60)). split; [lia|].
  apply in_seq. cbn. lia.
Qed.

(** The level of silence is above no threshold of the slider. *)
Lemma silence_below_slider (t : Z) :
  App.slider_min <= t <= App.slider_max ->
  Level.is_spike t (F64.mul (F64.of_Z 20) (Np.log10 Level.floor)) = false.
Proof.
  intros Ht.
  assert (Hall : forallb
            (fun t => negb (Level.is_spike t
                              (F64.mul (F64.of_Z 20) (Np.log10 Level.floor))))
            slider_values = true) by (vm_compute; reflexivity).
  rewrite forallb_forall in Hall.
  specialize (Hall t (slider_values_complete t Ht)).
  destruct (Level.is_spike _ _); [discriminate|reflexivity].
Qed.

Lemma silent_block_never_spikes (t : Z) (indata : Np.ndarray) :
  silent indata = true ->
  App.slider_min <= t <= App.slider_max ->
  Level.is_spike t (Level.level indata) = false.
Proof.
  intros Hs Ht. rewrite level_of_silence.
  - apply silence_below_slider. exact Ht.
  - destruct indata; [discriminate|congruence].
  - destruct indata; [discriminate|exact Hs].
Qed.

Lemma quiet_local (a : thread_action) (t t' : thread) :
  quiet t -> hears_silence (On 0 a) = true -> local a t = Some t' ->
  quiet t' /\ local_emits a t = [].
Proof.
  unfold quiet. intros [Hp Hth] Ha Hl.
  destruct a; cbn in Hl.
  - destruct (at_phase t); try discriminate. inversion Hl; subst; cbn.
    unfold local_emits. destruct (pending t); auto.
  - destruct (at_phase t); try discriminate. inversion Hl; subst; cbn.
    unfold local_emits. destruct (pending t); auto.
  - destruct (at_phase t); try discriminate. inversion Hl; subst; cbn.
    unfold local_emits. destruct (pending t); auto.
  - split; [|reflexivity].
    destruct (at_phase t); try discriminate.
    destruct (pending t) eqn:Hq; try discriminate.
    destruct (Level.running (self t)); inversion Hl; subst; cbn.
    + split; [|exact Hth]. intros b Hb. inversion Hb; subst. exact Ha.
    + rewrite Hq. split; [discriminate|exact Hth].
  - destruct (pending t) as [indata|] eqn:Hq; try discriminate.
    inversion Hl; subst; cbn.
    split; [split; [discriminate|exact Hth]|].
    unfold local_emits. rewrite Hq.
    rewrite (silent_block_never_spikes _ indata (Hp indata eq_refl) Hth).
    reflexivity.
  - split; [|reflexivity].
    destruct (at_phase t); try discriminate.
    destruct (Level.running (self t)); [inversion Hl; subst; auto|].
    destruct (pending t); try discriminate.
    inversion Hl; subst; cbn. split; [discriminate|exact Hth].
Qed.

Lemma quiet_step (act : action) (s s' : sys) :
  Forall quiet (threads s) ->
  App.slider_min <= slider s <= App.slider_max ->
  hears_silence act = true -> step act s = Some s' ->
  Forall quiet (threads s')
  /\ App.slider_min <= slider s' <= App.slider_max
  /\ emits act s = [].
Proof.
  intros Hq Hsl Hact Hstep.
  pose proof (step_window act s s' Hstep) as Hwin.
  destruct act.
  - destruct Hwin as [_ ->]. cbn. split; [|auto].
    apply Forall_app. split; [exact Hq|]. constructor; [|constructor].
    split; [discriminate|exact Hsl].
  - destruct Hwin as [_ ->]. cbn. split; [exact Hq|]. split; [|reflexivity].
    unfold App.bound, App.slider_min, App.slider_max. lia.
  - destruct Hwin as (Hw0 & _ & Hs & _). rewrite Hs.
    split; [|auto]. cbn in Hstep. rewrite Hw0 in Hstep.
    destruct (mon s) as [k|]; [|inversion Hstep; subst; exact Hq].
    destruct (thread_at s k) as [tk|] eqn:Hk; [|discriminate].
    inversion Hstep; subst; cbn. apply Forall_update; [exact Hq|].
    rewrite Forall_forall in Hq.
    exact (Hq tk (nth_error_In _ _ Hk)).
  - destruct Hwin as (_ & _ & ->). cbn. auto.
  - destruct Hwin as (_ & _ & Hs & _). rewrite Hs.
    destruct (step_on_inv i a s s' Hstep) as (t & t' & Ht & Hl & ->).
    rewrite Forall_forall in Hq.
    destruct (quiet_local a t t' (Hq t (nth_error_In _ _ Ht)) Hact Hl)
      as [Hq' He].
    split; [|split; [exact Hsl|]].
    + cbn. apply Forall_update; [|exact Hq'].
      apply Forall_forall. exact Hq.
    + cbn. rewrite Ht, He. reflexivity.
Qed.

Lemma quiet_run (acts : list action) :
  forall s s' out,
    Forall quiet (threads s) ->
    App.slider_min <= slider s <= App.slider_max ->
    forallb hears_silence acts = true ->
    exec acts s = Some (s', out) -> out = [].
Proof.
  induction acts as [|act acts IH]; intros s s' out Hq Hsl Hall Hexec;
    cbn in Hexec.
  - inversion Hexec; reflexivity.
  - cbn [forallb] in Hall. apply andb_true_iff in Hall as [Hact Hrest].
    destruct (step act s) as [s1|] eqn:Hstep; [|discriminate].
    destruct (exec acts s1) as [[s2 out2]|] eqn:Hexec1; [|discriminate].
    destruct (quiet_step act s s1 Hq Hsl Hact Hstep) as (Hq1 & Hsl1 & He).
    rewrite He, (IH s1 s2 out2 Hq1 Hsl1 Hrest Hexec1) in Hexec.
    inversion Hexec; reflexivity.
Qed.

(** X16.  Silence never raises the signal: at every threshold the slider
    offers (-60..0) the callback of a running monitor emits nothing on a
    block of zeros, whose level lies below all of them; and a program that
    hears nothing but silence emits no [spike_detected] at all, however
    often monitoring is started (with or without a stop in between) and
    stopped, wherever the slider is moved and however the threads are
    scheduled. *)
Theorem silence_never_raises_the_signal :
  (forall (self : Level.AudioMonitor) (indata : Np.ndarray),
      silent indata = true ->
      App.slider_min <= Level.threshold_db self <= App.slider_max ->
      Level.cb self indata = [])
  /\ (forall (acts : list action) (s' : sys) (out : list emission),
         forallb hears_silence acts = true ->
         exec acts init = Some (s', out) ->
         out = []).
Proof.
  split.
  - intros self indata Hs Ht. unfold Level.cb.
    rewrite (silent_block_never_spikes _ indata Hs Ht).
    destruct (negb (Level.running self)); reflexivity.
  - intros acts s' out Hall Hexec.
    apply (quiet_run acts init s' out); try assumption.
    + constructor.
    + unfold App.slider_min, App.slider_max. cbn. lia.
Qed.

(** Witness for X16: monitoring is started twice with the slider moved in
    between, and both monitors hear silence. *)
Lemma silence_witness :
  exists s',
    exec [StartMonitoring; On 0 Run; On 0 Open; MoveSlider (-75);
          StartMonitoring; On 1 Run; On 1 Open;
          On 0 (Deliver Examples.silence); On 1 (Deliver Examples.silence);
          On 1 Compute; On 0 Compute; StopMonitoring; On 1 Poll;
          StopReturns; On 0 (Deliver Examples.silence); On 0 Compute] init
    = Some (s', [])
    /\ Level.cb (Level.mkMonitor (-60) true) Examples.silence = [].
Proof.
  eexists. split; [vm_compute; reflexivity|].
  apply (proj1 silence_never_raises_the_signal).
  - reflexivity.
  - cbn. unfold App.slider_min, App.slider_max. lia.
Defined.
